(** * ol/webgl/Helper.js: the WebGL helper of OpenLayers

    A shallow embedding of the class [WebGLHelper] (src/ol/webgl/Helper.js)
    and the properties of its resource caches, program binding, context-loss
    handling, frame transforms and post-processing chain.

    Conventions of the embedding.
    - A JavaScript number is an IEEE-754 binary64 value: [float].
    - A WebGL object (WebGLBuffer, WebGLShader, WebGLProgram, WebGLTexture,
      WebGLUniformLocation) is an opaque name; a value that is such an object
      or [null]/[undefined] is an [option] of a name.
    - A JavaScript object used as a dictionary is a [gmap string _] of its own
      properties; its keys here are uids, uid pairs and GLSL identifiers.
    - A method of the class is a function from the helper before the call to
      a completion (normal return or thrown error) and the helper after it.
      Every call the helper makes on the rendering context, on a
      post-processing pass or on the console is appended to one log, in
      program order.
    - Every method of the class is embedded but the accessors [getCanvas]
      and [getGL], which are field reads. The delete calls of
      [disposeInternal] follow the enumeration order of the cache objects,
      which is a parameter of its embedding. *)

From Stdlib Require Import ZArith String List Bool Lia Floats.
From stdpp Require Import base option list gmap strings.

Set Warnings "-inexact-float".
Local Open Scope Z_scope.

(** ** JavaScript values used by the helper *)

(** A JavaScript number. *)
Definition number : Type := float.

(** The name of a WebGL object. *)
Definition WebGLObject : Type := nat.

(** A WebGL object or [null]. *)
Definition handle : Type := option WebGLObject.

(** The errors the helper's code can raise: reading a property of
    [undefined] raises a TypeError. *)
Inductive JSError : Type :=
| TypeError (msg : string).

(** How a call completes. *)
Inductive Completion (A : Type) : Type :=
| Normal (a : A)
| Throw (e : JSError).
Arguments Normal {A} a.
Arguments Throw {A} e.

(** ** Constants of ol/webgl.js and of the rendering context *)

Definition ARRAY_BUFFER : Z := 0x8892.
Definition ELEMENT_ARRAY_BUFFER : Z := 0x8893.
Definition TEXTURE_2D : Z := 0x0DE1.
Definition TEXTURE_WRAP_S : Z := 0x2802.
Definition TEXTURE_WRAP_T : Z := 0x2803.
Definition TEXTURE_MAG_FILTER : Z := 0x2800.
Definition TEXTURE_MIN_FILTER : Z := 0x2801.
Definition LINEAR : Z := 0x2601.
Definition CLAMP_TO_EDGE : Z := 0x812F.
Definition TRIANGLES : Z := 0x0004.
Definition UNSIGNED_BYTE : Z := 0x1401.
Definition UNSIGNED_SHORT : Z := 0x1403.
Definition UNSIGNED_INT : Z := 0x1405.
Definition RGBA : Z := 0x1908.
Definition COLOR_BUFFER_BIT : Z := 0x4000.
Definition BLEND : Z := 0x0BE2.
Definition ONE : Z := 1.
Definition ONE_MINUS_SRC_ALPHA : Z := 0x0303.
Definition COMPILE_STATUS : Z := 0x8B81.

(** ** Typed arrays *)

(** The typed array built from a numeric array: the constructor records
    which element conversion the runtime applies to [arr]. *)
Inductive ArrayBufferView : Type :=
| Float32Array (arr : list number)
| Uint32Array (arr : list number)
| Uint16Array (arr : list number)
| Uint8Array (arr : list number).

(** BYTES_PER_ELEMENT of a typed array. *)
Definition BYTES_PER_ELEMENT (v : ArrayBufferView) : number :=
  match v with
  | Float32Array _ => 4%float
  | Uint32Array _ => 4%float
  | Uint16Array _ => 2%float
  | Uint8Array _ => 1%float
  end.

(** The numeric array a typed array was built from. *)
Definition source_array (v : ArrayBufferView) : list number :=
  match v with
  | Float32Array a | Uint32Array a | Uint16Array a | Uint8Array a => a
  end.

(** The element type a draw call has to name to read a typed array as
    indices ([None]: not an index type). *)
Definition index_type_of (v : ArrayBufferView) : option Z :=
  match v with
  | Uint32Array _ => Some UNSIGNED_INT
  | Uint16Array _ => Some UNSIGNED_SHORT
  | Uint8Array _ => Some UNSIGNED_BYTE
  | Float32Array _ => None
  end.

(** ** 2D affine transforms and 4x4 matrices *)

Module Transform.
Local Open Scope float_scope.

(** Modelled from the spec: ol/transform.js is not among the sources. A
      transform is the six numbers of a 2D affine map, the linear part
      [a b c d] and the translation [e f]. *)
Record t : Type := mk { a : number; b : number; c : number; d : number;
                          e : number; f : number }.

(** Modelled from the spec: [create] of ol/transform.js, the identity. *)
Definition create : t := mk 1 0 0 1 0 0.

(** Modelled from the spec: [reset] of ol/transform.js sets a transform
      back to the identity and returns it. *)
Definition reset (_ : t) : t := mk 1 0 0 1 0 0.

(** Modelled from the spec: [multiply] of ol/transform.js, the product
      that applies [t2] to the accumulated transform [t1]. *)
Definition multiply (t1 t2 : t) : t :=
    mk (a t1 * a t2 + c t1 * b t2)
       (b t1 * a t2 + d t1 * b t2)
       (a t1 * c t2 + c t1 * d t2)
       (b t1 * c t2 + d t1 * d t2)
       (a t1 * e t2 + c t1 * f t2 + e t1)
       (b t1 * e t2 + d t1 * f t2 + f t1).

(** Modelled from the spec: [scale] of ol/transform.js. *)
Definition scale (m : t) (x y : number) : t := multiply m (mk x 0 0 y 0 0).

(** Modelled from the spec: [translate] of ol/transform.js. *)
Definition translate (m : t) (dx dy : number) : t :=
    multiply m (mk 1 0 0 1 dx dy).

Section Trigonometry.
(** Math.cos and Math.sin are approximated by the runtime outside the
        arguments the language fixes; the approximations are parameters. *)
Variables cos_approx sin_approx : number -> number.

(** Math.cos: NaN on NaN and on an infinity, 1 on either zero. *)
Definition Math_cos (x : number) : number :=
      if is_nan x || is_infinity x then nan
      else if is_zero x then 1
      else cos_approx x.

(** Math.sin: NaN on NaN and on an infinity, the argument itself on
        either zero. *)
Definition Math_sin (x : number) : number :=
      if is_nan x || is_infinity x then nan
      else if is_zero x then x
      else sin_approx x.

(** Modelled from the spec: [rotate] of ol/transform.js. *)
Definition rotate (m : t) (angle : number) : t :=
      let cos := Math_cos angle in
      let sin := Math_sin angle in
      multiply m (mk cos sin (- sin) cos 0 0).
End Trigonometry.
End Transform.

Module Mat4.
Local Open Scope float_scope.

(** Modelled from the spec: [create] of ol/vec/mat4.js, the 4x4
      identity as an array of sixteen numbers. *)
Definition create : list number :=
    [1; 0; 0; 0;  0; 1; 0; 0;  0; 0; 1; 0;  0; 0; 0; 1].

(** Modelled from the spec: [fromTransform] of ol/vec/mat4.js writes the
      linear part and the translation of a transform into cells 0, 1, 4, 5,
      12 and 13 of [mat4], leaves the other cells, and returns [mat4]. *)
Definition fromTransform (mat4 : list number) (m : Transform.t)
    : list number :=
    <[13%nat := Transform.f m]>
      (<[12%nat := Transform.e m]>
        (<[5%nat := Transform.d m]>
          (<[4%nat := Transform.c m]>
            (<[1%nat := Transform.b m]>
              (<[0%nat := Transform.a m]> mat4))))).
End Mat4.

(** ** Objects the helper holds or is given *)

(** The two context events the canvas dispatches (ol/webgl/ContextEventType.js). *)
Inductive ContextEventType : Type := LOST | RESTORED.

#[global] Instance ContextEventType_eq_dec : EqDecision ContextEventType.
Proof. solve_decision. Defined.

(** The canvas element the helper creates: the attributes and the style
    lengths (in px) the helper assigns, and the event types it listens to. *)
Record HTMLCanvasElement : Type := {
  width : number;
  height : number;
  style_position : string;
  style_width : option number;
  style_height : option number;
  listeners : list ContextEventType
}.

(** A buffer object of ol/webgl/Buffer.js: its uid (as [getUid] assigns it
    once per object), its numeric array and its usage hint. *)
Record WebGLBuffer : Type := {
  buffer_uid : string;
  getArray : list number;
  getUsage : Z
}.

(** A shader object of ol/webgl/Shader.js (Fragment.js, Vertex.js). *)
Record WebGLShaderSource : Type := {
  shader_uid : string;
  getType : Z;
  getSource : string
}.

(** The resolved value of a custom uniform, by the tests [applyUniforms]
    makes on it. *)
Inductive UniformData : Type :=
| CanvasValue (canvas : nat)
| ImageDataValue (w h : number) (data : list number)
| ArrayValue (arr : list number)
| NumberValue (n : number)
| OtherValue.

(** The [value] of a custom uniform: a value, or a function called for it. *)
Inductive UniformValue : Type :=
| Constant (v : UniformData)
| Callback (f : unit -> UniformData).

(** An entry of [uniforms_]. *)
Record Uniform : Type := {
  name : string;
  value : UniformValue;
  texture : handle
}.

(** The options of one post-processing pass. *)
Record PostProcessOptions : Type := {
  scaleRatio : option number;
  vertexShader : option string;
  fragmentShader : option string;
  uniforms : list (string * UniformValue)
}.

(** A post-processing pass object (ol/webgl/PostProcessingPass.js): the
    position it was created at, which tells the objects apart, and the
    options it was created with ([None]: only the context was given). *)
Record WebGLPostProcessingPass : Type := {
  pass_index : nat;
  pass_options : option PostProcessOptions
}.

(** The options of the helper's constructor. *)
Record Options : Type := {
  opt_uniforms : option (list (string * UniformValue));
  opt_postProcesses : option (list PostProcessOptions)
}.

(** The view state and the frame state (ol/PluggableMap.js), as far as
    [applyFrameState] reads them. *)
Record ViewState : Type := {
  center : number * number;
  resolution : number;
  rotation : number
}.

Record FrameState : Type := {
  size : number * number;
  viewState : ViewState
}.

(** The source of the pixels of a [texImage2D] call. *)
Inductive TexSource : Type :=
| TexPixels (w h : number) (pixels : option ArrayBufferView)
| TexCanvas (canvas : nat).

(** ** The log of calls *)

(** One call of the helper on the rendering context, on a pass or on the
    console, with its arguments and, for a call that returns, its result. *)
Inductive Call : Type :=
| gl_getExtension (ext : string)
| gl_isContextLost (ret : bool)
| gl_createBuffer (ret : handle)
| gl_bindBuffer (target : Z) (buffer : handle)
| gl_bufferData (target : Z) (data : option ArrayBufferView) (usage : Z)
| gl_deleteBuffer (buffer : handle)
| gl_createShader (type : Z) (ret : handle)
| gl_shaderSource (shader : handle) (source : string)
| gl_compileShader (shader : handle)
| gl_getShaderParameter (shader : handle) (pname : Z) (ret : bool)
| gl_getShaderInfoLog (shader : handle) (ret : string)
| gl_deleteShader (shader : handle)
| gl_createProgram (ret : handle)
| gl_attachShader (program shader : handle)
| gl_linkProgram (program : handle)
| gl_useProgram (program : handle)
| gl_deleteProgram (program : handle)
| gl_getUniformLocation (program : handle) (uname : string) (ret : handle)
| gl_getAttribLocation (program : handle) (aname : string) (ret : Z)
| gl_uniform1f (loc : handle) (x : number)
| gl_uniform1i (loc : handle) (x : nat)
| gl_uniform2f (loc : handle) (x y : number)
| gl_uniform3f (loc : handle) (x y z : number)
| gl_uniform4f (loc : handle) (x y z w : number)
| gl_uniformMatrix4fv (loc : handle) (transpose : bool) (m : list number)
| gl_enableVertexAttribArray (index : Z)
| gl_vertexAttribPointer (index size type : Z) (normalized : bool)
    (stride offset : Z)
| gl_drawElements (mode : Z) (count : number) (type : Z) (offset : number)
| gl_createTexture (ret : handle)
| gl_activeTexture (slot : nat)
| gl_bindTexture (target : Z) (tex : handle)
| gl_texParameteri (target pname param : Z)
| gl_texImage2D (target : Z) (source : TexSource)
| gl_clearColor (r g b a : number)
| gl_clear (mask : Z)
| gl_enable (cap : Z)
| gl_blendFunc (sfactor dfactor : Z)
| pass_init (pass : WebGLPostProcessingPass) (sz : number * number)
    (pixelRatio : number)
| pass_apply (pass : WebGLPostProcessingPass)
    (nextPass : option WebGLPostProcessingPass)
| console_error (msg : string).

(** ** The rendering context *)

(** The rendering context as the helper observes it: the log of calls made
    so far (oldest first), the next unused object name, whether the context
    is lost, and what the context answers to the queries on linked programs
    and compiled shaders. *)
Record WebGLRenderingContext : Type := {
  calls : list Call;
  next_name : WebGLObject;
  lost : bool;
  uniform_location : handle -> string -> handle;
  attrib_location : handle -> string -> Z;
  compile_status : handle -> bool;
  info_log : handle -> string
}.

(** ** The helper *)

(** An entry of the buffer cache. *)
Record BufferCacheEntry : Type := {
  buf : WebGLBuffer;
  buffer : handle
}.

(** The fields of a [WebGLHelper]. The two location maps are [None] while
    the property is [undefined]. *)
Record WebGLHelper : Type := {
  canvas_ : HTMLCanvasElement;
  gl_ : WebGLRenderingContext;
  bufferCache_ : gmap string BufferCacheEntry;
  shaderCache_ : gmap string handle;
  programCache_ : gmap string handle;
  currentProgram_ : handle;
  hasOESElementIndexUint : bool;
  projectionMatrix_ : Transform.t;
  offsetRotateMatrix_ : Transform.t;
  offsetScaleMatrix_ : Transform.t;
  tmpMat4_ : list number;
  uniformLocations_ : option (gmap string handle);
  attribLocations_ : option (gmap string Z);
  uniforms_ : list Uniform;
  postProcessPasses : list WebGLPostProcessingPass
}.

(** *** Field updates *)

Definition log (c : Call) (gl : WebGLRenderingContext)
  : WebGLRenderingContext :=
  {| calls := calls gl ++ [c]; next_name := next_name gl; lost := lost gl;
     uniform_location := uniform_location gl;
     attrib_location := attrib_location gl;
     compile_status := compile_status gl; info_log := info_log gl |}.

Definition take_name (gl : WebGLRenderingContext) : WebGLRenderingContext :=
  {| calls := calls gl; next_name := S (next_name gl); lost := lost gl;
     uniform_location := uniform_location gl;
     attrib_location := attrib_location gl;
     compile_status := compile_status gl; info_log := info_log gl |}.

Definition set_lost (b : bool) (gl : WebGLRenderingContext)
  : WebGLRenderingContext :=
  {| calls := calls gl; next_name := next_name gl; lost := b;
     uniform_location := uniform_location gl;
     attrib_location := attrib_location gl;
     compile_status := compile_status gl; info_log := info_log gl |}.

Definition set_canvas_ (v : HTMLCanvasElement) (h : WebGLHelper) : WebGLHelper :=
  {| canvas_ := v; gl_ := gl_ h; bufferCache_ := bufferCache_ h;
     shaderCache_ := shaderCache_ h; programCache_ := programCache_ h;
     currentProgram_ := currentProgram_ h;
     hasOESElementIndexUint := hasOESElementIndexUint h;
     projectionMatrix_ := projectionMatrix_ h;
     offsetRotateMatrix_ := offsetRotateMatrix_ h;
     offsetScaleMatrix_ := offsetScaleMatrix_ h; tmpMat4_ := tmpMat4_ h;
     uniformLocations_ := uniformLocations_ h;
     attribLocations_ := attribLocations_ h; uniforms_ := uniforms_ h;
     postProcessPasses := postProcessPasses h |}.

Definition set_gl_ (v : WebGLRenderingContext) (h : WebGLHelper) : WebGLHelper :=
  {| canvas_ := canvas_ h; gl_ := v; bufferCache_ := bufferCache_ h;
     shaderCache_ := shaderCache_ h; programCache_ := programCache_ h;
     currentProgram_ := currentProgram_ h;
     hasOESElementIndexUint := hasOESElementIndexUint h;
     projectionMatrix_ := projectionMatrix_ h;
     offsetRotateMatrix_ := offsetRotateMatrix_ h;
     offsetScaleMatrix_ := offsetScaleMatrix_ h; tmpMat4_ := tmpMat4_ h;
     uniformLocations_ := uniformLocations_ h;
     attribLocations_ := attribLocations_ h; uniforms_ := uniforms_ h;
     postProcessPasses := postProcessPasses h |}.

Definition set_bufferCache_ (v : gmap string BufferCacheEntry) (h : WebGLHelper)
  : WebGLHelper :=
  {| canvas_ := canvas_ h; gl_ := gl_ h; bufferCache_ := v;
     shaderCache_ := shaderCache_ h; programCache_ := programCache_ h;
     currentProgram_ := currentProgram_ h;
     hasOESElementIndexUint := hasOESElementIndexUint h;
     projectionMatrix_ := projectionMatrix_ h;
     offsetRotateMatrix_ := offsetRotateMatrix_ h;
     offsetScaleMatrix_ := offsetScaleMatrix_ h; tmpMat4_ := tmpMat4_ h;
     uniformLocations_ := uniformLocations_ h;
     attribLocations_ := attribLocations_ h; uniforms_ := uniforms_ h;
     postProcessPasses := postProcessPasses h |}.

Definition set_shaderCache_ (v : gmap string handle) (h : WebGLHelper)
  : WebGLHelper :=
  {| canvas_ := canvas_ h; gl_ := gl_ h; bufferCache_ := bufferCache_ h;
     shaderCache_ := v; programCache_ := programCache_ h;
     currentProgram_ := currentProgram_ h;
     hasOESElementIndexUint := hasOESElementIndexUint h;
     projectionMatrix_ := projectionMatrix_ h;
     offsetRotateMatrix_ := offsetRotateMatrix_ h;
     offsetScaleMatrix_ := offsetScaleMatrix_ h; tmpMat4_ := tmpMat4_ h;
     uniformLocations_ := uniformLocations_ h;
     attribLocations_ := attribLocations_ h; uniforms_ := uniforms_ h;
     postProcessPasses := postProcessPasses h |}.

Definition set_programCache_ (v : gmap string handle) (h : WebGLHelper)
  : WebGLHelper :=
  {| canvas_ := canvas_ h; gl_ := gl_ h; bufferCache_ := bufferCache_ h;
     shaderCache_ := shaderCache_ h; programCache_ := v;
     currentProgram_ := currentProgram_ h;
     hasOESElementIndexUint := hasOESElementIndexUint h;
     projectionMatrix_ := projectionMatrix_ h;
     offsetRotateMatrix_ := offsetRotateMatrix_ h;
     offsetScaleMatrix_ := offsetScaleMatrix_ h; tmpMat4_ := tmpMat4_ h;
     uniformLocations_ := uniformLocations_ h;
     attribLocations_ := attribLocations_ h; uniforms_ := uniforms_ h;
     postProcessPasses := postProcessPasses h |}.

Definition set_currentProgram_ (v : handle) (h : WebGLHelper) : WebGLHelper :=
  {| canvas_ := canvas_ h; gl_ := gl_ h; bufferCache_ := bufferCache_ h;
     shaderCache_ := shaderCache_ h; programCache_ := programCache_ h;
     currentProgram_ := v;
     hasOESElementIndexUint := hasOESElementIndexUint h;
     projectionMatrix_ := projectionMatrix_ h;
     offsetRotateMatrix_ := offsetRotateMatrix_ h;
     offsetScaleMatrix_ := offsetScaleMatrix_ h; tmpMat4_ := tmpMat4_ h;
     uniformLocations_ := uniformLocations_ h;
     attribLocations_ := attribLocations_ h; uniforms_ := uniforms_ h;
     postProcessPasses := postProcessPasses h |}.

Definition set_projectionMatrix_ (v : Transform.t) (h : WebGLHelper)
  : WebGLHelper :=
  {| canvas_ := canvas_ h; gl_ := gl_ h; bufferCache_ := bufferCache_ h;
     shaderCache_ := shaderCache_ h; programCache_ := programCache_ h;
     currentProgram_ := currentProgram_ h;
     hasOESElementIndexUint := hasOESElementIndexUint h;
     projectionMatrix_ := v;
     offsetRotateMatrix_ := offsetRotateMatrix_ h;
     offsetScaleMatrix_ := offsetScaleMatrix_ h; tmpMat4_ := tmpMat4_ h;
     uniformLocations_ := uniformLocations_ h;
     attribLocations_ := attribLocations_ h; uniforms_ := uniforms_ h;
     postProcessPasses := postProcessPasses h |}.

Definition set_offsetRotateMatrix_ (v : Transform.t) (h : WebGLHelper)
  : WebGLHelper :=
  {| canvas_ := canvas_ h; gl_ := gl_ h; bufferCache_ := bufferCache_ h;
     shaderCache_ := shaderCache_ h; programCache_ := programCache_ h;
     currentProgram_ := currentProgram_ h;
     hasOESElementIndexUint := hasOESElementIndexUint h;
     projectionMatrix_ := projectionMatrix_ h;
     offsetRotateMatrix_ := v;
     offsetScaleMatrix_ := offsetScaleMatrix_ h; tmpMat4_ := tmpMat4_ h;
     uniformLocations_ := uniformLocations_ h;
     attribLocations_ := attribLocations_ h; uniforms_ := uniforms_ h;
     postProcessPasses := postProcessPasses h |}.

Definition set_offsetScaleMatrix_ (v : Transform.t) (h : WebGLHelper)
  : WebGLHelper :=
  {| canvas_ := canvas_ h; gl_ := gl_ h; bufferCache_ := bufferCache_ h;
     shaderCache_ := shaderCache_ h; programCache_ := programCache_ h;
     currentProgram_ := currentProgram_ h;
     hasOESElementIndexUint := hasOESElementIndexUint h;
     projectionMatrix_ := projectionMatrix_ h;
     offsetRotateMatrix_ := offsetRotateMatrix_ h;
     offsetScaleMatrix_ := v; tmpMat4_ := tmpMat4_ h;
     uniformLocations_ := uniformLocations_ h;
     attribLocations_ := attribLocations_ h; uniforms_ := uniforms_ h;
     postProcessPasses := postProcessPasses h |}.

Definition set_tmpMat4_ (v : list number) (h : WebGLHelper) : WebGLHelper :=
  {| canvas_ := canvas_ h; gl_ := gl_ h; bufferCache_ := bufferCache_ h;
     shaderCache_ := shaderCache_ h; programCache_ := programCache_ h;
     currentProgram_ := currentProgram_ h;
     hasOESElementIndexUint := hasOESElementIndexUint h;
     projectionMatrix_ := projectionMatrix_ h;
     offsetRotateMatrix_ := offsetRotateMatrix_ h;
     offsetScaleMatrix_ := offsetScaleMatrix_ h; tmpMat4_ := v;
     uniformLocations_ := uniformLocations_ h;
     attribLocations_ := attribLocations_ h; uniforms_ := uniforms_ h;
     postProcessPasses := postProcessPasses h |}.

Definition set_uniformLocations_ (v : option (gmap string handle))
  (h : WebGLHelper) : WebGLHelper :=
  {| canvas_ := canvas_ h; gl_ := gl_ h; bufferCache_ := bufferCache_ h;
     shaderCache_ := shaderCache_ h; programCache_ := programCache_ h;
     currentProgram_ := currentProgram_ h;
     hasOESElementIndexUint := hasOESElementIndexUint h;
     projectionMatrix_ := projectionMatrix_ h;
     offsetRotateMatrix_ := offsetRotateMatrix_ h;
     offsetScaleMatrix_ := offsetScaleMatrix_ h; tmpMat4_ := tmpMat4_ h;
     uniformLocations_ := v;
     attribLocations_ := attribLocations_ h; uniforms_ := uniforms_ h;
     postProcessPasses := postProcessPasses h |}.

Definition set_attribLocations_ (v : option (gmap string Z)) (h : WebGLHelper)
  : WebGLHelper :=
  {| canvas_ := canvas_ h; gl_ := gl_ h; bufferCache_ := bufferCache_ h;
     shaderCache_ := shaderCache_ h; programCache_ := programCache_ h;
     currentProgram_ := currentProgram_ h;
     hasOESElementIndexUint := hasOESElementIndexUint h;
     projectionMatrix_ := projectionMatrix_ h;
     offsetRotateMatrix_ := offsetRotateMatrix_ h;
     offsetScaleMatrix_ := offsetScaleMatrix_ h; tmpMat4_ := tmpMat4_ h;
     uniformLocations_ := uniformLocations_ h;
     attribLocations_ := v; uniforms_ := uniforms_ h;
     postProcessPasses := postProcessPasses h |}.

Definition set_uniforms_ (v : list Uniform) (h : WebGLHelper) : WebGLHelper :=
  {| canvas_ := canvas_ h; gl_ := gl_ h; bufferCache_ := bufferCache_ h;
     shaderCache_ := shaderCache_ h; programCache_ := programCache_ h;
     currentProgram_ := currentProgram_ h;
     hasOESElementIndexUint := hasOESElementIndexUint h;
     projectionMatrix_ := projectionMatrix_ h;
     offsetRotateMatrix_ := offsetRotateMatrix_ h;
     offsetScaleMatrix_ := offsetScaleMatrix_ h; tmpMat4_ := tmpMat4_ h;
     uniformLocations_ := uniformLocations_ h;
     attribLocations_ := attribLocations_ h; uniforms_ := v;
     postProcessPasses := postProcessPasses h |}.

Definition set_texture (v : handle) (u : Uniform) : Uniform :=
  {| name := name u; value := value u; texture := v |}.

(** ** Methods as state transformers *)

Definition Method (A : Type) : Type :=
  WebGLHelper -> Completion A * WebGLHelper.

#[global] Instance Method_ret : MRet Method :=
  fun A a h => (Normal a, h).

#[global] Instance Method_bind : MBind Method :=
  fun A B k m h =>
    match m h with
    | (Normal a, h') => k a h'
    | (Throw e, h') => (Throw e, h')
    end.

(** [throw e]: the call ends here with the error; what was assigned before
    stays assigned. *)
Definition throw {A : Type} (e : JSError) : Method A :=
  fun h => (Throw e, h).

(** [this]: read the helper. *)
Definition this : Method WebGLHelper := fun h => (Normal h, h).

(** [assign f]: an assignment to a field. *)
Definition assign (f : WebGLHelper -> WebGLHelper) : Method unit :=
  fun h => (Normal tt, f h).

(** A call on a collaborator that returns nothing the helper uses. *)
Definition call (c : Call) : Method unit :=
  assign (fun h => set_gl_ (log c (gl_ h)) h).

(** A [gl.create...()] call: a lost context returns [null]; otherwise the
    context returns an object under the next unused name. *)
Definition context_create (c : handle -> Call) : Method handle :=
  h ← this;
  if lost (gl_ h) then call (c None);; mret None
  else
    let o := Some (next_name (gl_ h)) in
    assign (fun h => set_gl_ (take_name (gl_ h)) h);;
    call (c o);;
    mret o.

(** [gl.isContextLost()]. *)
Definition isContextLost : Method bool :=
  h ← this;
  call (gl_isContextLost (lost (gl_ h)));;
  mret (lost (gl_ h)).

(** [gl.getUniformLocation(program, name)]: [null] on a lost context. *)
Definition context_getUniformLocation (program : handle) (uname : string)
  : Method handle :=
  h ← this;
  let r := if lost (gl_ h) then None
           else uniform_location (gl_ h) program uname in
  call (gl_getUniformLocation program uname r);;
  mret r.

(** [gl.getAttribLocation(program, name)]: [-1] on a lost context. *)
Definition context_getAttribLocation (program : handle) (aname : string)
  : Method Z :=
  h ← this;
  let r := if lost (gl_ h) then -1
           else attrib_location (gl_ h) program aname in
  call (gl_getAttribLocation program aname r);;
  mret r.

(** [gl.getShaderParameter(shader, gl.COMPILE_STATUS)], as the truth value
    the helper tests: nothing truthy on a lost context. *)
Definition context_getCompileStatus (shader : handle) : Method bool :=
  h ← this;
  let r := if lost (gl_ h) then false else compile_status (gl_ h) shader in
  call (gl_getShaderParameter shader COMPILE_STATUS r);;
  mret r.

(** [gl.getShaderInfoLog(shader)]. *)
Definition context_getShaderInfoLog (shader : handle) : Method string :=
  h ← this;
  let r := info_log (gl_ h) shader in
  call (gl_getShaderInfoLog shader r);;
  mret r.

(** ** The class WebGLHelper *)

(** The names of the default uniforms. *)
Definition PROJECTION_MATRIX : string := "u_projectionMatrix".
Definition OFFSET_SCALE_MATRIX : string := "u_offsetScaleMatrix".
Definition OFFSET_ROTATION_MATRIX : string := "u_offsetRotateMatrix".

(** The message of the TypeError raised by reading a property of
    [undefined]. *)
Definition undefined_read (what : string) : JSError :=
  TypeError ("Cannot read properties of undefined (reading '" ++ what ++ "')").

(** The canvas [document.createElement('canvas')] returns. *)
Definition new_canvas : HTMLCanvasElement :=
  {| width := 300%float; height := 150%float; style_position := "";
     style_width := None; style_height := None; listeners := [] |}.

(** [constructor(opt_options)]. [WEBGL_EXTENSIONS] is the list exported by
    ol/webgl.js and [gl] the context the new canvas gives. *)
Definition constructor (WEBGL_EXTENSIONS : list string)
  (gl : WebGLRenderingContext) (opt_options : option Options) : WebGLHelper :=
  let options :=
    default {| opt_uniforms := None; opt_postProcesses := None |} opt_options in
  let canvas :=
    {| width := width new_canvas; height := height new_canvas;
       style_position := "absolute";
       style_width := None; style_height := None;
       listeners := [LOST; RESTORED] |} in
  let hasOES := bool_decide ("OES_element_index_uint" ∈ WEBGL_EXTENSIONS) in
  {| canvas_ := canvas;
     gl_ := if hasOES then log (gl_getExtension "OES_element_index_uint") gl
            else gl;
     bufferCache_ := ∅;
     shaderCache_ := ∅;
     programCache_ := ∅;
     currentProgram_ := None;
     hasOESElementIndexUint := hasOES;
     projectionMatrix_ := Transform.create;
     offsetRotateMatrix_ := Transform.create;
     offsetScaleMatrix_ := Transform.create;
     tmpMat4_ := Mat4.create;
     uniformLocations_ := None;
     attribLocations_ := None;
     uniforms_ :=
       match opt_uniforms options with
       | Some us =>
           map (fun nv => {| name := fst nv; value := snd nv; texture := None |}) us
       | None => []
       end;
     postProcessPasses :=
       match opt_postProcesses options with
       | Some ps =>
           imap (fun i o => {| pass_index := i; pass_options := Some o |}) ps
       | None => [ {| pass_index := 0; pass_options := None |} ]
       end |}.

(** [bindBuffer(target, buf)]. *)
Definition bindBuffer (target : Z) (buf : WebGLBuffer) : Method unit :=
  let arr := getArray buf in
  let bufferKey := buffer_uid buf in
  h ← this;
  bufferCache ←
    match bufferCache_ h !! bufferKey with
    | Some entry => mret entry
    | None =>
        buffer ← context_create gl_createBuffer;
        let entry := {| buf := buf; buffer := buffer |} in
        assign (fun h => set_bufferCache_ (<[bufferKey := entry]> (bufferCache_ h)) h);;
        mret entry
    end;
  call (gl_bindBuffer target (buffer bufferCache));;
  let arrayBuffer :=
    if target =? ARRAY_BUFFER then Some (Float32Array arr)
    else if target =? ELEMENT_ARRAY_BUFFER then
      Some (if hasOESElementIndexUint h then Uint32Array arr
            else Uint16Array arr)
    else None in
  call (gl_bufferData target arrayBuffer (getUsage buf)).

(** [deleteBuffer(buf)]. *)
Definition deleteBuffer (buf : WebGLBuffer) : Method unit :=
  let bufferKey := buffer_uid buf in
  h ← this;
  let bufferCacheEntry := bufferCache_ h !! bufferKey in
  isLost ← isContextLost;
  (if negb isLost then
     match bufferCacheEntry with
     | Some entry => call (gl_deleteBuffer (buffer entry))
     | None => throw (undefined_read "buffer")
     end
   else mret tt);;
  assign (fun h => set_bufferCache_ (delete bufferKey (bufferCache_ h)) h).

(** [drawElements(start, end)]. *)
Definition drawElements (start end_ : number) : Method unit :=
  h ← this;
  let elementType :=
    if hasOESElementIndexUint h then UNSIGNED_INT else UNSIGNED_SHORT in
  let elementSize : number :=
    if hasOESElementIndexUint h then 4%float else 2%float in
  let numItems := (end_ - start)%float in
  let offsetInBytes := (start * elementSize)%float in
  call (gl_drawElements TRIANGLES numItems elementType offsetInBytes).

(** [getShader(shaderObject)]. *)
Definition getShader (shaderObject : WebGLShaderSource) : Method handle :=
  let shaderKey := shader_uid shaderObject in
  h ← this;
  match shaderCache_ h !! shaderKey with
  | Some shader => mret shader
  | None =>
      shader ← context_create (gl_createShader (getType shaderObject));
      call (gl_shaderSource shader (getSource shaderObject));;
      call (gl_compileShader shader);;
      ok ← context_getCompileStatus shader;
      (if negb ok then
         infoLog ← context_getShaderInfoLog shader;
         call (console_error
                 ("Shader compilation failed - log:" ++
                  String (Ascii.ascii_of_nat 10) infoLog))
       else mret tt);;
      assign (fun h => set_shaderCache_ (<[shaderKey := shader]> (shaderCache_ h)) h);;
      mret shader
  end.

(** [useProgram(program)]. *)
Definition useProgram (program : handle) : Method bool :=
  h ← this;
  if bool_decide (program = currentProgram_ h) then mret false
  else
    call (gl_useProgram program);;
    assign (set_currentProgram_ program);;
    assign (set_uniformLocations_ (Some ∅));;
    assign (set_attribLocations_ (Some ∅));;
    mret true.

(** [getProgram(fragmentShaderObject, vertexShaderObject)]. *)
Definition getProgram (fragmentShaderObject vertexShaderObject : WebGLShaderSource)
  : Method handle :=
  let programKey :=
    (shader_uid fragmentShaderObject ++ "/" ++ shader_uid vertexShaderObject)%string in
  h ← this;
  match programCache_ h !! programKey with
  | Some program => mret program
  | None =>
      program ← context_create gl_createProgram;
      fragment ← getShader fragmentShaderObject;
      call (gl_attachShader program fragment);;
      vertex ← getShader vertexShaderObject;
      call (gl_attachShader program vertex);;
      call (gl_linkProgram program);;
      assign (fun h => set_programCache_ (<[programKey := program]> (programCache_ h)) h);;
      mret program
  end.

(** [getUniformLocation(name)]. Reading [this.uniformLocations_[name]] of an
    undefined map throws. A stored location that is an object is returned;
    when the property is absent or holds [null] the context is asked, the
    answer is stored under the name, and the stored value is returned. *)
Definition getUniformLocation (uname : string) : Method handle :=
  h ← this;
  match uniformLocations_ h with
  | None => throw (undefined_read uname)
  | Some locations =>
      match locations !! uname with
      | Some (Some loc) => mret (Some loc)
      | Some None | None =>
          loc ← context_getUniformLocation (currentProgram_ h) uname;
          assign (set_uniformLocations_ (Some (<[uname := loc]> locations)));;
          mret loc
      end
  end.

(** [getAttributeLocation(name)]. As [getUniformLocation]; a stored number
    is truthy when it is not zero. *)
Definition getAttributeLocation (aname : string) : Method Z :=
  h ← this;
  match attribLocations_ h with
  | None => throw (undefined_read aname)
  | Some locations =>
      match locations !! aname with
      | Some loc =>
          if negb (loc =? 0) then mret loc
          else
            loc ← context_getAttribLocation (currentProgram_ h) aname;
            assign (set_attribLocations_ (Some (<[aname := loc]> locations)));;
            mret loc
      | None =>
          loc ← context_getAttribLocation (currentProgram_ h) aname;
          assign (set_attribLocations_ (Some (<[aname := loc]> locations)));;
          mret loc
      end
  end.

(** [setUniformFloatValue(uniform, value)]. *)
Definition setUniformFloatValue (uniform : string) (v : number) : Method unit :=
  loc ← getUniformLocation uniform;
  call (gl_uniform1f loc v).

(** [setUniformMatrixValue(uniform, value)]. *)
Definition setUniformMatrixValue (uniform : string) (v : list number)
  : Method unit :=
  loc ← getUniformLocation uniform;
  call (gl_uniformMatrix4fv loc false v).

(** [enableAttributeArray(attribName, size, type, stride, offset)]. *)
Definition enableAttributeArray (attribName : string)
  (sz type stride offset : Z) : Method unit :=
  loc ← getAttributeLocation attribName;
  call (gl_enableVertexAttribArray loc);;
  loc ← getAttributeLocation attribName;
  call (gl_vertexAttribPointer loc sz type false stride offset).

(** Modelled from the spec: [clear] of ol/obj.js, which is not among the
    sources, removes every property of the object it is given. *)
Definition clear {V : Type} (object : gmap string V) : gmap string V := ∅.

(** [handleWebGLContextLost()]. *)
Definition handleWebGLContextLost : Method unit :=
  assign (fun h => set_bufferCache_ (clear (bufferCache_ h)) h);;
  assign (fun h => set_shaderCache_ (clear (shaderCache_ h)) h);;
  assign (fun h => set_programCache_ (clear (programCache_ h)) h);;
  assign (set_currentProgram_ None).

(** [handleWebGLContextRestored()]. *)
Definition handleWebGLContextRestored : Method unit :=
  mret tt.

(** The current value of a custom uniform: a function is called for it. *)
Definition current_value (v : UniformValue) : UniformData :=
  match v with
  | Constant d => d
  | Callback f => f tt
  end.

(** The texture of the uniform at index [i] of [uniforms_], created on the
    first use and kept in the uniform's [texture] property. *)
Definition uniform_texture (i : nat) (uniform : Uniform) : Method handle :=
  match texture uniform with
  | Some t => mret (Some t)
  | None =>
      t ← context_create gl_createTexture;
      assign (fun h => set_uniforms_ (<[i := set_texture t uniform]> (uniforms_ h)) h);;
      mret t
  end.

(** The upload of an image value into the texture bound to [textureSlot],
    and the sampler uniform set to that slot. *)
Definition apply_image (i : nat) (uniform : Uniform) (source : TexSource)
  (textureSlot : nat) : Method nat :=
  t ← uniform_texture i uniform;
  call (gl_activeTexture textureSlot);;
  call (gl_bindTexture TEXTURE_2D t);;
  call (gl_texParameteri TEXTURE_2D TEXTURE_MIN_FILTER LINEAR);;
  call (gl_texParameteri TEXTURE_2D TEXTURE_WRAP_S CLAMP_TO_EDGE);;
  call (gl_texParameteri TEXTURE_2D TEXTURE_WRAP_T CLAMP_TO_EDGE);;
  call (gl_texImage2D TEXTURE_2D source);;
  loc ← getUniformLocation (name uniform);
  call (gl_uniform1i loc textureSlot);;
  mret (S textureSlot).

(** The callback [applyUniforms] runs on the uniform at index [i]: the
    result is the texture slot the next uniform starts from. *)
Definition apply_uniform (i : nat) (uniform : Uniform) (textureSlot : nat)
  : Method nat :=
  match current_value (value uniform) with
  | CanvasValue c => apply_image i uniform (TexCanvas c) textureSlot
  | ImageDataValue w h data =>
      apply_image i uniform (TexPixels w h (Some (Uint8Array data))) textureSlot
  | ArrayValue [x; y] =>
      loc ← getUniformLocation (name uniform);
      call (gl_uniform2f loc x y);;
      mret textureSlot
  | ArrayValue [x; y; z] =>
      loc ← getUniformLocation (name uniform);
      call (gl_uniform3f loc x y z);;
      mret textureSlot
  | ArrayValue [x; y; z; w] =>
      loc ← getUniformLocation (name uniform);
      call (gl_uniform4f loc x y z w);;
      mret textureSlot
  | ArrayValue _ => mret textureSlot
  | NumberValue n =>
      loc ← getUniformLocation (name uniform);
      call (gl_uniform1f loc n);;
      mret textureSlot
  | OtherValue => mret textureSlot
  end.

(** The [forEach] of [applyUniforms] from index [i], with [n] elements left. *)
Fixpoint applyUniforms_from (n i textureSlot : nat) : Method unit :=
  match n with
  | O => mret tt
  | S n' =>
      h ← this;
      match uniforms_ h !! i with
      | Some uniform =>
          slot ← apply_uniform i uniform textureSlot;
          applyUniforms_from n' (S i) slot
      | None => mret tt
      end
  end.

(** [applyUniforms()]. *)
Definition applyUniforms : Method unit :=
  h ← this;
  applyUniforms_from (length (uniforms_ h)) 0 0.

(** The loop of [prepareDraw] over the passes, from index [k - 1] down to 0. *)
Fixpoint init_passes (k : nat) (sz : number * number) (pixelRatio : number)
  : Method unit :=
  match k with
  | O => mret tt
  | S i =>
      h ← this;
      match postProcessPasses h !! i with
      | Some pass =>
          call (pass_init pass sz pixelRatio);;
          init_passes i sz pixelRatio
      | None => throw (undefined_read "init")
      end
  end.

(** [prepareDraw(size, pixelRatio)]. *)
Definition prepareDraw (sz : number * number) (pixelRatio : number)
  : Method unit :=
  assign (fun h =>
    set_canvas_ {| width := (fst sz * pixelRatio)%float;
                   height := (snd sz * pixelRatio)%float;
                   style_position := style_position (canvas_ h);
                   style_width := Some (fst sz);
                   style_height := Some (snd sz);
                   listeners := listeners (canvas_ h) |} h);;
  h ← this;
  call (gl_useProgram (currentProgram_ h));;
  init_passes (length (postProcessPasses h)) sz pixelRatio;;
  call (gl_bindTexture TEXTURE_2D None);;
  call (gl_clearColor 0%float 0%float 0%float 0%float);;
  call (gl_clear COLOR_BUFFER_BIT);;
  call (gl_enable BLEND);;
  call (gl_blendFunc ONE ONE_MINUS_SRC_ALPHA);;
  applyUniforms.

(** The loop of [finalizeDraw] from index [i], with [n] passes left. The
    target of a pass is the next pass of the array, or [null]. *)
Fixpoint apply_passes (n i : nat) : Method unit :=
  match n with
  | O => mret tt
  | S n' =>
      h ← this;
      match postProcessPasses h !! i with
      | Some pass =>
          call (pass_apply pass (postProcessPasses h !! S i));;
          apply_passes n' (S i)
      | None => throw (undefined_read "apply")
      end
  end.

(** [finalizeDraw()]. *)
Definition finalizeDraw : Method unit :=
  h ← this;
  apply_passes (length (postProcessPasses h)) 0.

(** [createTextureInternal(opt_wrapS, opt_wrapT)]. *)
Definition createTextureInternal (opt_wrapS opt_wrapT : option Z)
  : Method handle :=
  t ← context_create gl_createTexture;
  call (gl_bindTexture TEXTURE_2D t);;
  call (gl_texParameteri TEXTURE_2D TEXTURE_MAG_FILTER LINEAR);;
  call (gl_texParameteri TEXTURE_2D TEXTURE_MIN_FILTER LINEAR);;
  match opt_wrapS with
  | Some wrapS => call (gl_texParameteri TEXTURE_2D TEXTURE_WRAP_S wrapS)
  | None => mret tt
  end;;
  match opt_wrapT with
  | Some wrapT => call (gl_texParameteri TEXTURE_2D TEXTURE_WRAP_T wrapT)
  | None => mret tt
  end;;
  mret t.

(** [createEmptyTexture(width, height, opt_wrapS, opt_wrapT)]. *)
Definition createEmptyTexture (w h : number) (opt_wrapS opt_wrapT : option Z)
  : Method handle :=
  t ← createTextureInternal opt_wrapS opt_wrapT;
  call (gl_texImage2D TEXTURE_2D (TexPixels w h None));;
  mret t.

(** [createTexture(image, opt_wrapS, opt_wrapT)]. *)
Definition createTexture (image : nat) (opt_wrapS opt_wrapT : option Z)
  : Method handle :=
  t ← createTextureInternal opt_wrapS opt_wrapT;
  call (gl_texImage2D TEXTURE_2D (TexCanvas image));;
  mret t.

Section FrameState.
Variables cos_approx sin_approx : number -> number.

(** [applyFrameState(frameState)]. Each transform is reset and then
    changed in place, one call after the other; [tmpMat4_] is filled from
    a transform just before the uniform that takes it is set. *)
Definition applyFrameState (frameState : FrameState) : Method unit :=
  let sz := size frameState in
  let rotation := rotation (viewState frameState) in
  let resolution := resolution (viewState frameState) in
  let center := center (viewState frameState) in
  assign (fun h => set_projectionMatrix_
    (Transform.reset (projectionMatrix_ h)) h);;
  assign (fun h => set_projectionMatrix_
    (Transform.scale (projectionMatrix_ h)
       (2 / (resolution * fst sz))%float (2 / (resolution * snd sz))%float) h);;
  assign (fun h => set_projectionMatrix_
    (Transform.rotate cos_approx sin_approx (projectionMatrix_ h)
       (- rotation)%float) h);;
  assign (fun h => set_projectionMatrix_
    (Transform.translate (projectionMatrix_ h)
       (- fst center)%float (- snd center)%float) h);;
  assign (fun h => set_offsetScaleMatrix_
    (Transform.reset (offsetScaleMatrix_ h)) h);;
  assign (fun h => set_offsetScaleMatrix_
    (Transform.scale (offsetScaleMatrix_ h)
       (2 / fst sz)%float (2 / snd sz)%float) h);;
  assign (fun h => set_offsetRotateMatrix_
    (Transform.reset (offsetRotateMatrix_ h)) h);;
  (if negb (rotation =? 0)%float then
     assign (fun h => set_offsetRotateMatrix_
       (Transform.rotate cos_approx sin_approx (offsetRotateMatrix_ h)
          (- rotation)%float) h)
   else mret tt);;
  assign (fun h => set_tmpMat4_
    (Mat4.fromTransform (tmpMat4_ h) (projectionMatrix_ h)) h);;
  h ← this;
  setUniformMatrixValue PROJECTION_MATRIX (tmpMat4_ h);;
  assign (fun h => set_tmpMat4_
    (Mat4.fromTransform (tmpMat4_ h) (offsetScaleMatrix_ h)) h);;
  h ← this;
  setUniformMatrixValue OFFSET_SCALE_MATRIX (tmpMat4_ h);;
  assign (fun h => set_tmpMat4_
    (Mat4.fromTransform (tmpMat4_ h) (offsetRotateMatrix_ h)) h);;
  h ← this;
  setUniformMatrixValue OFFSET_ROTATION_MATRIX (tmpMat4_ h).
End FrameState.

(** ** Context events *)

(** The canvas dispatches a context event: the context is lost or restored
    first, then the listener registered for the event runs. *)
Definition dispatch (type : ContextEventType) : Method unit :=
  match type with
  | LOST =>
      assign (fun h => set_gl_ (set_lost true (gl_ h)) h);;
      h ← this;
      if bool_decide (LOST ∈ listeners (canvas_ h)) then handleWebGLContextLost
      else mret tt
  | RESTORED =>
      assign (fun h => set_gl_ (set_lost false (gl_ h)) h);;
      h ← this;
      if bool_decide (RESTORED ∈ listeners (canvas_ h))
      then handleWebGLContextRestored
      else mret tt
  end.

(** ** Disposal *)

(** Modelled from the spec: [unlistenAll] of ol/events.js, which is not
    among the sources, removes every listener registered on its target. *)
Definition unlistenAll (canvas : HTMLCanvasElement) : HTMLCanvasElement :=
  {| width := width canvas; height := height canvas;
     style_position := style_position canvas;
     style_width := style_width canvas; style_height := style_height canvas;
     listeners := [] |}.

(** A loop over the keys of an object, in the order given. *)
Fixpoint for_each (keys : list string) (body : string -> Method unit)
  : Method unit :=
  match keys with
  | [] => mret tt
  | key :: rest => body key;; for_each rest body
  end.

Section Disposal.
(** The order in which [for (key in object)] visits the keys of an object
    is the engine's, and depends on the order the keys were added in, which
    the maps here do not record: the enumeration is a parameter. *)
Variable for_in : forall V : Type, gmap string V -> list string.

(** [disposeInternal()]. A property that is read under a key the object
    does not have is [undefined]; the context takes it as [null]. *)
Definition disposeInternal : Method unit :=
  assign (fun h => set_canvas_ (unlistenAll (canvas_ h)) h);;
  isLost ← isContextLost;
  if negb isLost then
    h ← this;
    for_each (for_in _ (bufferCache_ h)) (fun key =>
      h ← this;
      match bufferCache_ h !! key with
      | Some entry => call (gl_deleteBuffer (buffer entry))
      | None => throw (undefined_read "buffer")
      end);;
    h ← this;
    for_each (for_in _ (programCache_ h)) (fun key =>
      h ← this;
      call (gl_deleteProgram (default None (programCache_ h !! key))));;
    h ← this;
    for_each (for_in _ (shaderCache_ h)) (fun key =>
      h ← this;
      call (gl_deleteShader (default None (shaderCache_ h !! key))))
  else mret tt.
End Disposal.

(** ** Calls of the methods from outside *)

Section Operations.
Variables cos_approx sin_approx : number -> number.

(** One call of a method of the helper by its user, or one context event
    dispatched by the canvas. *)
Inductive Op : Type :=
| op_bindBuffer (target : Z) (buf : WebGLBuffer)
| op_deleteBuffer (buf : WebGLBuffer)
| op_prepareDraw (sz : number * number) (pixelRatio : number)
| op_drawElements (start end_ : number)
| op_finalizeDraw
| op_applyFrameState (frameState : FrameState)
| op_getShader (shaderObject : WebGLShaderSource)
| op_useProgram (program : handle)
| op_getProgram (fragmentShaderObject vertexShaderObject : WebGLShaderSource)
| op_getUniformLocation (uname : string)
| op_getAttributeLocation (aname : string)
| op_setUniformFloatValue (uniform : string) (v : number)
| op_setUniformMatrixValue (uniform : string) (v : list number)
| op_enableAttributeArray (attribName : string) (sz type stride offset : Z)
| op_applyUniforms
| op_createEmptyTexture (w h : number) (opt_wrapS opt_wrapT : option Z)
| op_createTexture (image : nat) (opt_wrapS opt_wrapT : option Z)
| op_dispatch (type : ContextEventType).

(** A method call whose result is dropped. *)
Definition discard {A : Type} (m : Method A) : Method unit :=
  m ≫= fun _ => mret tt.

(** The helper after an operation, whether it returned or threw. *)
Definition perform (op : Op) (h : WebGLHelper) : WebGLHelper :=
  snd (match op with
       | op_bindBuffer target b => bindBuffer target b
       | op_deleteBuffer b => deleteBuffer b
       | op_prepareDraw sz pixelRatio => prepareDraw sz pixelRatio
       | op_drawElements start end_ => drawElements start end_
       | op_finalizeDraw => finalizeDraw
       | op_applyFrameState frameState =>
           applyFrameState cos_approx sin_approx frameState
       | op_getShader s => discard (getShader s)
       | op_useProgram p => discard (useProgram p)
       | op_getProgram fs vs => discard (getProgram fs vs)
       | op_getUniformLocation n => discard (getUniformLocation n)
       | op_getAttributeLocation n => discard (getAttributeLocation n)
       | op_setUniformFloatValue n v => setUniformFloatValue n v
       | op_setUniformMatrixValue n v => setUniformMatrixValue n v
       | op_enableAttributeArray n sz type stride offset =>
           enableAttributeArray n sz type stride offset
       | op_applyUniforms => applyUniforms
       | op_createEmptyTexture w ht ws wt => discard (createEmptyTexture w ht ws wt)
       | op_createTexture image ws wt => discard (createTexture image ws wt)
       | op_dispatch type => dispatch type
       end h).

(** The helper after a sequence of operations. *)
Definition perform_all (ops : list Op) (h : WebGLHelper) : WebGLHelper :=
  fold_left (fun h op => perform op h) ops h.

(** An operation that changes the program in use: a [useProgram] call
    with a program that is not the current one. *)
Definition changes_program (op : Op) (h : WebGLHelper) : bool :=
  match op with
  | op_useProgram p => negb (bool_decide (p = currentProgram_ h))
  | _ => false
  end.

(** No operation of the sequence, run from [h], changes the program. *)
Fixpoint no_program_change (ops : list Op) (h : WebGLHelper) : bool :=
  match ops with
  | [] => true
  | op :: ops' =>
      negb (changes_program op h) && no_program_change ops' (perform op h)
  end.
End Operations.

(** ** Notions the properties are stated with *)

(** The helper after a method call and the way the call completed. *)
Definition after {A : Type} (m : Method A) (h : WebGLHelper) : WebGLHelper :=
  snd (m h).

Definition completion {A : Type} (m : Method A) (h : WebGLHelper)
  : Completion A :=
  fst (m h).

(** The calls a method makes from [h]: what it appends to the log. *)
Definition new_calls {A : Type} (m : Method A) (h : WebGLHelper) : list Call :=
  drop (length (calls (gl_ h))) (calls (gl_ (after m h))).

(** Calls on a post-processing pass. *)
Definition is_pass_call (c : Call) : bool :=
  match c with
  | pass_init _ _ _ | pass_apply _ _ => true
  | _ => false
  end.

(** Calls that delete an object of the context. *)
Definition is_delete_call (c : Call) : bool :=
  match c with
  | gl_deleteBuffer _ | gl_deleteShader _ | gl_deleteProgram _ => true
  | _ => false
  end.

(** Calls that upload buffer data. *)
Definition is_upload (c : Call) : bool :=
  match c with
  | gl_bufferData _ _ _ => true
  | _ => false
  end.

(** Calls that create a texture. *)
Definition is_createTexture (c : Call) : bool :=
  match c with
  | gl_createTexture _ => true
  | _ => false
  end.

(** Lookups of the location of the uniform [uname] in the context. *)
Definition is_uniform_lookup (uname : string) (c : Call) : bool :=
  match c with
  | gl_getUniformLocation _ n _ => bool_decide (n = uname)
  | _ => false
  end.

(** Lookups of the location of the attribute [aname] in the context. *)
Definition is_attrib_lookup (aname : string) (c : Call) : bool :=
  match c with
  | gl_getAttribLocation _ n _ => bool_decide (n = aname)
  | _ => false
  end.

(** The calls [applyUniforms] can make. *)
Definition is_uniform_call (c : Call) : bool :=
  match c with
  | gl_createTexture _ | gl_activeTexture _ | gl_bindTexture _ _
  | gl_texParameteri _ _ _ | gl_texImage2D _ _
  | gl_getUniformLocation _ _ _
  | gl_uniform1i _ _ | gl_uniform1f _ _ | gl_uniform2f _ _ _
  | gl_uniform3f _ _ _ _ | gl_uniform4f _ _ _ _ _ => true
  | _ => false
  end.

(** The apply chain as the specification words it: every pass in forward
    order, each with the next pass as its target, the last with none. *)
Fixpoint apply_chain (passes : list WebGLPostProcessingPass) : list Call :=
  match passes with
  | [] => []
  | pass :: rest => pass_apply pass (head rest) :: apply_chain rest
  end.

(** The value of a custom uniform is an image. *)
Definition is_image (u : Uniform) : bool :=
  match current_value (value u) with
  | CanvasValue _ | ImageDataValue _ _ _ => true
  | _ => false
  end.

(** A handle is [null] or an object the context has created. *)
Definition allocated (gl : WebGLRenderingContext) (x : handle) : Prop :=
  match x with
  | Some k => (k < next_name gl)%nat
  | None => True
  end.

(** Every handle in the three caches was created by the context. *)
Definition handles_allocated (h : WebGLHelper) : Prop :=
  map_Forall (fun (_ : string) (entry : BufferCacheEntry) =>
                allocated (gl_ h) (buffer entry)) (bufferCache_ h) /\
  map_Forall (fun (_ : string) (shader : handle) =>
                allocated (gl_ h) shader) (shaderCache_ h) /\
  map_Forall (fun (_ : string) (program : handle) =>
                allocated (gl_ h) program) (programCache_ h).

#[global] Instance allocated_dec (gl : WebGLRenderingContext) (x : handle) :
  Decision (allocated gl x).
Proof. destruct x; simpl; apply _. Defined.

#[global] Instance handles_allocated_dec (h : WebGLHelper) :
  Decision (handles_allocated h).
Proof. unfold handles_allocated. apply _. Defined.

(** A method stays within a relation between the helper before and after. *)
Definition within {A : Type} (R : relation WebGLHelper) (m : Method A) : Prop :=
  forall h, R h (after m h).

(** The calls made between two helpers satisfy [P]. *)
Definition logs (P : Call -> bool) (h h' : WebGLHelper) : Prop :=
  exists new, calls (gl_ h') = calls (gl_ h) ++ new /\ forallb P new = true.

(** A method always returns normally. *)
Definition returns {A : Type} (m : Method A) : Prop :=
  forall h, exists a, completion m h = Normal a.

(** The context keeps its state of loss and hands out only new names. *)
Definition grows : relation WebGLHelper := fun h h' =>
  lost (gl_ h') = lost (gl_ h) /\
  (next_name (gl_ h) <= next_name (gl_ h'))%nat.

(** From a helper that satisfies [I], a method returns normally and leaves
    a helper that satisfies [I]. *)
Definition returns_if {A : Type} (I : WebGLHelper -> Prop) (m : Method A)
  : Prop :=
  forall h, I h -> exists a, completion m h = Normal a /\ I (after m h).

(** The call [c] is made between two helpers. *)
Definition emits (c : Call) (h h' : WebGLHelper) : Prop :=
  exists new, calls (gl_ h') = calls (gl_ h) ++ new /\ In c new.

(** Every custom uniform whose value is an image has its texture. *)
Definition images_textured (h : WebGLHelper) : Prop :=
  forall i u, uniforms_ h !! i = Some u -> is_image u = true ->
    is_Some (texture u).

(** From a helper that satisfies [P], a method leaves a helper that
    satisfies [Q], whether it returns or throws. *)
Definition hoare {A : Type} (P : WebGLHelper -> Prop) (m : Method A)
  (Q : WebGLHelper -> Prop) : Prop :=
  forall h, P h -> Q (after m h).

(** The three transforms of the helper. *)
Definition matrices (h : WebGLHelper)
  : Transform.t * Transform.t * Transform.t :=
  (projectionMatrix_ h, offsetScaleMatrix_ h, offsetRotateMatrix_ h).

(** Both location maps are undefined. *)
Definition locations_undefined (h : WebGLHelper) : Prop :=
  uniformLocations_ h = None /\ attribLocations_ h = None.

(** A field has the same value after as before. *)
Definition unchanged {X : Type} (f : WebGLHelper -> X) : relation WebGLHelper :=
  fun h h' => f h' = f h.

(** What a method that neither fills a cache nor changes the program leaves
    as it was: the caches, the program, the capability flag, the passes and
    whether the context is lost; the context only hands out new names; a
    location map that is undefined stays undefined. *)
Definition quiet : relation WebGLHelper := fun h h' =>
  bufferCache_ h' = bufferCache_ h /\
  shaderCache_ h' = shaderCache_ h /\
  programCache_ h' = programCache_ h /\
  currentProgram_ h' = currentProgram_ h /\
  hasOESElementIndexUint h' = hasOESElementIndexUint h /\
  postProcessPasses h' = postProcessPasses h /\
  lost (gl_ h') = lost (gl_ h) /\
  (next_name (gl_ h) <= next_name (gl_ h'))%nat /\
  (uniformLocations_ h = None -> uniformLocations_ h' = None) /\
  (attribLocations_ h = None -> attribLocations_ h' = None).

(** An operation is quiet unless it is one of the cache methods, a program
    change or an event. *)
Definition is_quiet_op (op : Op) : bool :=
  match op with
  | op_bindBuffer _ _ | op_deleteBuffer _ | op_getShader _ | op_useProgram _
  | op_getProgram _ _ | op_dispatch _ => false
  | _ => true
  end.

(** The handle a [gl.create...()] call returns from a context. *)
Definition fresh_handle (gl : WebGLRenderingContext) : handle :=
  if lost gl then None else Some (next_name gl).

(** The context after a sequence of calls, none of which creates an object. *)
Definition log_all (cs : list Call) (gl : WebGLRenderingContext)
  : WebGLRenderingContext :=
  {| calls := calls gl ++ cs; next_name := next_name gl; lost := lost gl;
     uniform_location := uniform_location gl;
     attrib_location := attrib_location gl;
     compile_status := compile_status gl; info_log := info_log gl |}.

(** [k] calls of a method in a row. *)
Fixpoint repeatedly {A : Type} (k : nat) (m : Method A) : Method unit :=
  match k with
  | O => mret tt
  | S k' => m ≫= fun _ => repeatedly k' m
  end.

(** The number of lookups of the uniform [uname] that a method makes in
    the context. *)
Definition uniform_lookups {A : Type} (uname : string) (m : Method A)
  (h : WebGLHelper) : nat :=
  length (List.filter (is_uniform_lookup uname) (new_calls m h)).

(** The number of lookups of the attribute [aname] that a method makes in
    the context. *)
Definition attrib_lookups {A : Type} (aname : string) (m : Method A)
  (h : WebGLHelper) : nat :=
  length (List.filter (is_attrib_lookup aname) (new_calls m h)).

(** ** Notions of the further properties *)

(** From a helper that satisfies [P], the completion of a method and the
    helper it leaves satisfy [Q]. *)
Definition outcome {A : Type} (P : WebGLHelper -> Prop) (m : Method A)
  (Q : Completion A -> WebGLHelper -> Prop) : Prop :=
  forall h, P h -> Q (completion m h) (after m h).

(** The matrix a [uniformMatrix4fv] call uploads. *)
Definition matrix_upload (c : Call) : option (list number) :=
  match c with
  | gl_uniformMatrix4fv _ _ v => Some v
  | _ => None
  end.

(** What [applyFrameState] works on: whether the uniform locations are
    defined ([D]), the three transforms [M], the scratch matrix [T], and the
    calls made since the log was [cs] ([C]). *)
Definition frame_state (D : option (gmap string handle) -> Prop)
  (cs : list Call) (C : list Call -> Prop) (T : list number)
  (M : Transform.t * Transform.t * Transform.t) (h : WebGLHelper) : Prop :=
  D (uniformLocations_ h) /\ matrices h = M /\ tmpMat4_ h = T /\
  exists new, calls (gl_ h) = cs ++ new /\ C new.





(** The value of a custom uniform is one [applyUniforms] has no branch
    for: an array of a length other than 2, 3 or 4, or a value that is no
    image, array or number. *)
Definition is_skipped (u : Uniform) : bool :=
  match current_value (value u) with
  | ArrayValue [_; _] | ArrayValue [_; _; _] | ArrayValue [_; _; _; _] => false
  | ArrayValue _ => true
  | OtherValue => true
  | _ => false
  end.

(** Calls that make a program: create, attach, link. *)
Definition is_program_call (c : Call) : bool :=
  match c with
  | gl_createProgram _ | gl_attachShader _ _ | gl_linkProgram _ => true
  | _ => false
  end.

(** Both location maps are defined. *)
Definition locations_defined (h : WebGLHelper) : Prop :=
  is_Some (uniformLocations_ h) /\ is_Some (attribLocations_ h).

(** A property of the helper that holds after when it held before. *)
Definition preserves (J : WebGLHelper -> Prop) : relation WebGLHelper :=
  fun h h' => J h -> J h'.

(** ** Data of the examples *)

(** A context that knows the uniform [u_opacity] at location 7 and the
    attribute [a_position] at location 0, and compiles every shader. *)
Definition example_context : WebGLRenderingContext :=
  {| calls := []; next_name := 1%nat; lost := false;
     uniform_location := fun _ n =>
       if bool_decide (n = "u_opacity") then Some 7%nat else None;
     attrib_location := fun _ n =>
       if bool_decide (n = "a_position") then 0 else -1;
     compile_status := fun _ => true;
     info_log := fun _ => ""%string |}.

Definition example_buffer : WebGLBuffer :=
  {| buffer_uid := "1"; getArray := [0%float; 1%float; 2%float];
     getUsage := 0x88E4 |}.

Definition example_fragment : WebGLShaderSource :=
  {| shader_uid := "2"; getType := 0x8B30; getSource := "void main(void) {}" |}.

Definition example_vertex : WebGLShaderSource :=
  {| shader_uid := "3"; getType := 0x8B31; getSource := "void main(void) {}" |}.

(** The frame of a view centred at the origin, at resolution 1, not
    rotated, on a viewport of 100 by 100. *)
Definition example_frame : FrameState :=
  {| size := (100%float, 100%float);
     viewState := {| center := (0%float, 0%float); resolution := 1%float;
                     rotation := 0%float |} |}.

(** The frame of a view centred at (5, 7), at resolution 2, not rotated. *)
Definition example_frame_off_centre : FrameState :=
  {| size := (100%float, 100%float);
     viewState := {| center := (5%float, 7%float); resolution := 2%float;
                     rotation := 0%float |} |}.

(** A helper without options, as constructed. *)
Definition example_helper : WebGLHelper := constructor [] example_context None.

(** The same helper after its context was lost. *)
Definition example_lost_helper : WebGLHelper :=
  after (dispatch LOST) example_helper.

(** A helper with one image uniform, after a program was put in use and a
    first frame was prepared. *)
Definition example_textured_helper : WebGLHelper :=
  after (prepareDraw (100%float, 100%float) 1%float)
    (after (useProgram (Some 9%nat))
       (constructor [] example_context
          (Some {| opt_uniforms := Some [("u_image"%string, Constant (CanvasValue 0))];
                   opt_postProcesses := None |}))).

(** A helper with a program in use: the program [9]. *)
Definition example_bound_helper : WebGLHelper :=
  after (useProgram (Some 9%nat)) example_helper.

(** A helper that holds a buffer and a program in its caches. *)
Definition example_cached_helper : WebGLHelper :=
  after (getProgram example_fragment example_vertex)
    (after (bindBuffer ARRAY_BUFFER example_buffer) example_helper).

(** Unfolding of the method combinators. *)
Ltac run :=
  unfold after, completion, discard, mbind, Method_bind, mret, Method_ret, this,
    assign, call, throw in *;
  simpl in *.

(** * Properties *)

(** ** Combinators *)

Lemma new_calls_app {A : Type} (m : Method A) (h : WebGLHelper) (new : list Call) :
  calls (gl_ (after m h)) = calls (gl_ h) ++ new -> new_calls m h = new.
Proof. intros E. unfold new_calls. rewrite E. apply drop_app_length. Qed.

Lemma after_bind {A B : Type} (m : Method A) (k : A -> Method B) h a h1 :
  m h = (Normal a, h1) -> (m ≫= k) h = k a h1.
Proof. intros E. unfold mbind, Method_bind. by rewrite E. Qed.

Lemma after_bind_throw {A B : Type} (m : Method A) (k : A -> Method B) h e h1 :
  m h = (Throw e, h1) -> (m ≫= k) h = (Throw e, h1).
Proof. intros E. unfold mbind, Method_bind. by rewrite E. Qed.

Lemma after_call_bind {B : Type} (c : Call) (k : unit -> Method B)
  (h : WebGLHelper) :
  after (call c ≫= k) h = after (k tt) (set_gl_ (log c (gl_ h)) h).
Proof. reflexivity. Qed.

Lemma after_bind_normal {A B : Type} (m : Method A) (k : A -> Method B) h a h1 :
  m h = (Normal a, h1) -> after (m ≫= k) h = after (k a) h1.
Proof. intros E. unfold after. by rewrite (after_bind m k h a h1 E). Qed.

#[global] Instance unchanged_preorder {X : Type} (f : WebGLHelper -> X) :
  PreOrder (unchanged f).
Proof. split; unfold unchanged; [done | intros x y z; congruence]. Qed.

#[global] Instance quiet_preorder : PreOrder quiet.
Proof.
  split; unfold quiet.
  - intros h. split_and!; auto.
  - intros x y z Hxy Hyz. destruct_and!.
    split_and!; try congruence; try lia; auto.
Qed.

#[global] Instance grows_preorder : PreOrder grows.
Proof.
  split; unfold grows.
  - intros h. split; [done | lia].
  - intros x y z [L1 N1] [L2 N2]. split; [congruence | lia].
Qed.

#[global] Instance logs_preorder (P : Call -> bool) : PreOrder (logs P).
Proof.
  split; unfold logs.
  - intros h. exists []. by rewrite app_nil_r.
  - intros x y z (n1 & E1 & F1) (n2 & E2 & F2). exists (n1 ++ n2).
    rewrite E2, E1, app_assoc, forallb_app, F1, F2. done.
Qed.

Section Within.
Context (R : relation WebGLHelper) `{!PreOrder R}.

Lemma within_ret {A : Type} (a : A) : within R (mret a).
Proof. intros h. run. reflexivity. Qed.

Lemma within_throw {A : Type} (e : JSError) : within R (@throw A e).
Proof. intros h. run. reflexivity. Qed.

Lemma within_this : within R this.
Proof. intros h. run. reflexivity. Qed.

Lemma within_bind {A B : Type} (m : Method A) (k : A -> Method B) :
  within R m -> (forall a, within R (k a)) -> within R (m ≫= k).
Proof.
  intros Hm Hk h. specialize (Hm h). unfold after in *.
  unfold mbind, Method_bind. destruct (m h) as [[a|e] h1]; simpl in *.
  - etrans; [exact Hm|]. apply Hk.
  - exact Hm.
Qed.

Lemma within_assign (f : WebGLHelper -> WebGLHelper) :
  (forall h, R h (f h)) -> within R (assign f).
Proof. intros Hf h. run. apply Hf. Qed.

Lemma within_call (c : Call) :
  (forall h, R h (set_gl_ (log c (gl_ h)) h)) -> within R (call c).
Proof. intros Hf h. run. apply Hf. Qed.

Lemma within_context_create (c : handle -> Call) :
  (forall x h, R h (set_gl_ (log (c x) (gl_ h)) h)) ->
  (forall h, R h (set_gl_ (take_name (gl_ h)) h)) ->
  within R (context_create c).
Proof.
  intros Hc Hn. unfold context_create.
  apply within_bind; [apply within_this|]. intros h0.
  destruct (lost (gl_ h0)).
  - apply within_bind; [by apply within_call|]. intros _. apply within_ret.
  - apply within_bind; [by apply within_assign|]. intros _.
    apply within_bind; [by apply within_call|]. intros _. apply within_ret.
Qed.
End Within.

Create HintDb within.

(** The obligation of an assignment or a call for the relations in use. *)
Ltac within_leaf :=
  intros; unfold quiet, unchanged, logs, grows; simpl;
  first [ done
        | solve [ auto ]
        | split_and!; solve [ done | lia | auto ]
        | exists []; split; [by rewrite app_nil_r | done]
        | eexists [_]; split;
            [reflexivity | simpl; rewrite ?andb_true_r; solve [auto]] ].

(** One step through the structure of a method. *)
Ltac within_step :=
  lazymatch goal with
  | |- within ?R (mret _) => apply (within_ret R)
  | |- within ?R (throw _) => apply (within_throw R)
  | |- within ?R this => apply (within_this R)
  | |- within ?R (assign _) => apply (within_assign R); within_leaf
  | |- within ?R (call _) => apply (within_call R); within_leaf
  | |- within ?R (context_create _) =>
      apply (within_context_create R); within_leaf
  | |- within ?R (mbind _ _) => apply (within_bind R); [ | intros ? ]
  | |- within _ (match ?x with _ => _ end) => destruct x
  | |- within _ (let _ := _ in _) => cbv zeta
  | |- within _ _ => solve [ eauto with within ]
  end.

Ltac within_tac := repeat within_step.

Lemma returns_ret {A : Type} (a : A) : returns (mret a).
Proof. intros h. by exists a. Qed.

Lemma returns_this : returns this.
Proof. intros h. by exists h. Qed.

Lemma returns_assign (f : WebGLHelper -> WebGLHelper) : returns (assign f).
Proof. intros h. by exists tt. Qed.

Lemma returns_call (c : Call) : returns (call c).
Proof. intros h. by exists tt. Qed.

Lemma returns_bind {A B : Type} (m : Method A) (k : A -> Method B) :
  returns m -> (forall a, returns (k a)) -> returns (m ≫= k).
Proof.
  intros Hm Hk h. destruct (Hm h) as [a Ha]. unfold completion in *.
  unfold mbind, Method_bind. destruct (m h) as [[a'|e] h1]; simpl in *.
  - apply Hk.
  - discriminate.
Qed.

Lemma returns_context_create (c : handle -> Call) : returns (context_create c).
Proof.
  unfold context_create. apply returns_bind; [apply returns_this|].
  intros h0. destruct (lost (gl_ h0)).
  - apply returns_bind; [apply returns_call|]. intros _. apply returns_ret.
  - apply returns_bind; [apply returns_assign|]. intros _.
    apply returns_bind; [apply returns_call|]. intros _. apply returns_ret.
Qed.

(** One step through the structure of a method that cannot throw. *)
Ltac returns_step :=
  lazymatch goal with
  | |- returns (mret _) => apply returns_ret
  | |- returns this => apply returns_this
  | |- returns (assign _) => apply returns_assign
  | |- returns (call _) => apply returns_call
  | |- returns (context_create _) => apply returns_context_create
  | |- returns (mbind _ _) => apply returns_bind; [ | intros ? ]
  | |- returns (match ?x with _ => _ end) => destruct x
  | |- returns (let _ := _ in _) => cbv zeta
  | |- returns _ => solve [ eauto with within ]
  end.

Ltac returns_tac := repeat returns_step.

(** What [m] does from [h], with the completion named. *)
Lemma returns_inv {A : Type} (m : Method A) (h : WebGLHelper) :
  returns m -> exists a, m h = (Normal a, after m h).
Proof.
  intros Hm. destruct (Hm h) as [a Ha]. exists a.
  unfold completion, after in *. destruct (m h); simpl in *. by subst.
Qed.

(** ** The program in use *)

Lemma useProgram_same (h : WebGLHelper) (P : handle) :
  P = currentProgram_ h -> useProgram P h = (Normal false, h).
Proof. intros ->. unfold useProgram. run. by rewrite bool_decide_eq_true_2. Qed.

Lemma useProgram_changed (h : WebGLHelper) (P : handle) :
  P <> currentProgram_ h ->
  useProgram P h =
    (Normal true,
     set_attribLocations_ (Some ∅)
       (set_uniformLocations_ (Some ∅)
          (set_currentProgram_ P (set_gl_ (log (gl_useProgram P) (gl_ h)) h)))).
Proof. intros Hne. unfold useProgram. run. by rewrite bool_decide_eq_false_2. Qed.

(** C4. [useProgram(P)] with the program already in use returns [false]
    and changes nothing, the location maps included. With another program it
    returns [true], makes [P] the program in use and leaves both location
    maps empty, after one [gl.useProgram(P)] call. Called again with the same
    [P], it returns [false] and changes nothing. *)
Theorem useProgram_spec (h : WebGLHelper) (P : handle) :
  (P = currentProgram_ h ->
     useProgram P h = (Normal false, h)) /\
  (P <> currentProgram_ h ->
     completion (useProgram P) h = Normal true /\
     currentProgram_ (after (useProgram P) h) = P /\
     uniformLocations_ (after (useProgram P) h) = Some ∅ /\
     attribLocations_ (after (useProgram P) h) = Some ∅ /\
     new_calls (useProgram P) h = [gl_useProgram P]) /\
  useProgram P (after (useProgram P) h) =
    (Normal false, after (useProgram P) h).
Proof.
  split; [|split].
  - apply useProgram_same.
  - intros Hne. split_and!; try apply new_calls_app;
      unfold after, completion; by rewrite useProgram_changed.
  - destruct (decide (P = currentProgram_ h)) as [E|Hne]; unfold after.
    + rewrite (useProgram_same h P E). simpl. by apply useProgram_same.
    + rewrite (useProgram_changed h P Hne). simpl. by apply useProgram_same.
Qed.

(** ** The buffer cache *)

(** The typed array [bindBuffer] uploads, by the branches of its test. *)
Lemma bindBuffer_cached (h : WebGLHelper) (target : Z) (b : WebGLBuffer)
  (entry : BufferCacheEntry) :
  bufferCache_ h !! buffer_uid b = Some entry ->
  bindBuffer target b h =
    (Normal tt,
     set_gl_
       (log (gl_bufferData target
               (if target =? ARRAY_BUFFER then Some (Float32Array (getArray b))
                else if target =? ELEMENT_ARRAY_BUFFER then
                  Some (if hasOESElementIndexUint h
                        then Uint32Array (getArray b)
                        else Uint16Array (getArray b))
                else None)
               (getUsage b))
          (log (gl_bindBuffer target (buffer entry)) (gl_ h))) h).
Proof. intros E. unfold bindBuffer. run. rewrite E. reflexivity. Qed.

Lemma bindBuffer_missing (h : WebGLHelper) (target : Z) (b : WebGLBuffer) :
  bufferCache_ h !! buffer_uid b = None ->
  bindBuffer target b h =
    (Normal tt,
     set_gl_
       (log (gl_bufferData target
               (if target =? ARRAY_BUFFER then Some (Float32Array (getArray b))
                else if target =? ELEMENT_ARRAY_BUFFER then
                  Some (if hasOESElementIndexUint h
                        then Uint32Array (getArray b)
                        else Uint16Array (getArray b))
                else None)
               (getUsage b))
          (log (gl_bindBuffer target (fresh_handle (gl_ h)))
             (log (gl_createBuffer (fresh_handle (gl_ h)))
                (if lost (gl_ h) then gl_ h else take_name (gl_ h)))))
       (set_bufferCache_
          (<[buffer_uid b := {| buf := b; buffer := fresh_handle (gl_ h) |}]>
             (bufferCache_ h)) h)).
Proof.
  intros E. unfold bindBuffer, context_create, fresh_handle. run. rewrite E.
  destruct (lost (gl_ h)) eqn:L; simpl; reflexivity.
Qed.

(** The calls of a bind: the buffer is created when it is not cached, then
    bound, then filled. *)
Lemma bindBuffer_calls (h : WebGLHelper) (target : Z) (b : WebGLBuffer) :
  exists (created : list Call) (bound : handle),
    Forall (fun c => is_upload c = false) created /\
    new_calls (bindBuffer target b) h =
      created ++
      [gl_bindBuffer target bound;
       gl_bufferData target
         (if target =? ARRAY_BUFFER then Some (Float32Array (getArray b))
          else if target =? ELEMENT_ARRAY_BUFFER then
            Some (if hasOESElementIndexUint h
                  then Uint32Array (getArray b)
                  else Uint16Array (getArray b))
          else None)
         (getUsage b)].
Proof.
  destruct (bufferCache_ h !! buffer_uid b) as [entry|] eqn:E.
  - exists [], (buffer entry). split; [constructor|].
    apply new_calls_app. unfold after.
    rewrite (bindBuffer_cached h target b entry E). simpl.
    by rewrite <- app_assoc.
  - exists [gl_createBuffer (fresh_handle (gl_ h))], (fresh_handle (gl_ h)).
    split; [by repeat constructor|].
    apply new_calls_app. unfold after.
    rewrite (bindBuffer_missing h target b E). simpl.
    destruct (lost (gl_ h)); simpl; by rewrite <- !app_assoc.
Qed.

Lemma filter_upload_skip (created : list Call) (rest : list Call) :
  Forall (fun c => is_upload c = false) created ->
  List.filter is_upload (created ++ rest) = List.filter is_upload rest.
Proof.
  induction 1 as [|c created Hc _ IH]; simpl; [done|]. by rewrite Hc.
Qed.

Lemma bindBuffer_uploads (h : WebGLHelper) (target : Z) (b : WebGLBuffer) :
  List.filter is_upload (new_calls (bindBuffer target b) h) =
    [gl_bufferData target
       (if target =? ARRAY_BUFFER then Some (Float32Array (getArray b))
        else if target =? ELEMENT_ARRAY_BUFFER then
          Some (if hasOESElementIndexUint h
                then Uint32Array (getArray b)
                else Uint16Array (getArray b))
        else None)
       (getUsage b)].
Proof.
  destruct (bindBuffer_calls h target b) as (created & bound & Hc & ->).
  by rewrite filter_upload_skip.
Qed.

Lemma bindBuffer_returns (h : WebGLHelper) (target : Z) (b : WebGLBuffer) :
  completion (bindBuffer target b) h = Normal tt /\
  hasOESElementIndexUint (after (bindBuffer target b) h) =
    hasOESElementIndexUint h.
Proof.
  unfold completion, after.
  destruct (bufferCache_ h !! buffer_uid b) as [entry|] eqn:E.
  - by rewrite (bindBuffer_cached h target b entry E).
  - by rewrite (bindBuffer_missing h target b E).
Qed.

(** C2. Every bind uploads the numeric array once, converted by the target:
    a vertex-array target as 32-bit floats, an element-array target as
    32-bit unsigned integers when the capability flag is set and as 16-bit
    unsigned integers otherwise. The flag itself is not changed. *)
Theorem bindBuffer_upload_conversion (h : WebGLHelper) (b : WebGLBuffer) :
  List.filter is_upload (new_calls (bindBuffer ARRAY_BUFFER b) h) =
    [gl_bufferData ARRAY_BUFFER (Some (Float32Array (getArray b)))
       (getUsage b)] /\
  List.filter is_upload (new_calls (bindBuffer ELEMENT_ARRAY_BUFFER b) h) =
    [gl_bufferData ELEMENT_ARRAY_BUFFER
       (Some (if hasOESElementIndexUint h
              then Uint32Array (getArray b)
              else Uint16Array (getArray b)))
       (getUsage b)] /\
  (forall target,
     completion (bindBuffer target b) h = Normal tt /\
     hasOESElementIndexUint (after (bindBuffer target b) h) =
       hasOESElementIndexUint h).
Proof.
  split_and!.
  - apply (bindBuffer_uploads h ARRAY_BUFFER b).
  - apply (bindBuffer_uploads h ELEMENT_ARRAY_BUFFER b).
  - intros target. apply bindBuffer_returns.
Qed.

Lemma deleteBuffer_cached (h : WebGLHelper) (b : WebGLBuffer)
  (entry : BufferCacheEntry) :
  bufferCache_ h !! buffer_uid b = Some entry ->
  deleteBuffer b h =
    (Normal tt,
     set_bufferCache_ (delete (buffer_uid b) (bufferCache_ h))
       (set_gl_
          (if lost (gl_ h)
           then log (gl_isContextLost true) (gl_ h)
           else log (gl_deleteBuffer (buffer entry))
                  (log (gl_isContextLost false) (gl_ h))) h)).
Proof.
  intros E. unfold deleteBuffer, isContextLost. run. rewrite E.
  destruct (lost (gl_ h)); reflexivity.
Qed.

Lemma deleteBuffer_missing (h : WebGLHelper) (b : WebGLBuffer) :
  bufferCache_ h !! buffer_uid b = None ->
  deleteBuffer b h =
    if lost (gl_ h)
    then (Normal tt,
          set_bufferCache_ (delete (buffer_uid b) (bufferCache_ h))
            (set_gl_ (log (gl_isContextLost true) (gl_ h)) h))
    else (Throw (undefined_read "buffer"),
          set_gl_ (log (gl_isContextLost false) (gl_ h)) h).
Proof.
  intros E. unfold deleteBuffer, isContextLost. run. rewrite E.
  destruct (lost (gl_ h)); reflexivity.
Qed.

(** C8, as the code has it. [deleteBuffer] of a buffer with a cache entry
    removes the entry and deletes the object of the entry, without the
    delete call when the context is lost. For a buffer with no cache entry
    it throws when the context is not lost; when the context is lost it
    returns and leaves the cache as it was. Nothing is deleted in either
    case. *)
Theorem deleteBuffer_spec (h : WebGLHelper) (b : WebGLBuffer) :
  (forall entry, bufferCache_ h !! buffer_uid b = Some entry ->
     completion (deleteBuffer b) h = Normal tt /\
     bufferCache_ (after (deleteBuffer b) h) =
       delete (buffer_uid b) (bufferCache_ h) /\
     List.filter is_delete_call (new_calls (deleteBuffer b) h) =
       (if lost (gl_ h) then [] else [gl_deleteBuffer (buffer entry)])) /\
  (bufferCache_ h !! buffer_uid b = None ->
     completion (deleteBuffer b) h =
       (if lost (gl_ h) then Normal tt else Throw (undefined_read "buffer")) /\
     bufferCache_ (after (deleteBuffer b) h) = bufferCache_ h /\
     List.filter is_delete_call (new_calls (deleteBuffer b) h) = []).
Proof.
  split.
  - intros entry E. unfold completion.
    assert (new_calls (deleteBuffer b) h =
              if lost (gl_ h) then [gl_isContextLost true]
              else [gl_isContextLost false; gl_deleteBuffer (buffer entry)])
      as ->.
    { apply new_calls_app. unfold after. rewrite (deleteBuffer_cached h b entry E).
      destruct (lost (gl_ h)); simpl; by rewrite <- ?app_assoc. }
    unfold after. rewrite (deleteBuffer_cached h b entry E).
    destruct (lost (gl_ h)); done.
  - intros E. unfold completion.
    assert (new_calls (deleteBuffer b) h = [gl_isContextLost (lost (gl_ h))])
      as ->.
    { apply new_calls_app. unfold after. rewrite (deleteBuffer_missing h b E).
      destruct (lost (gl_ h)); reflexivity. }
    unfold after. rewrite (deleteBuffer_missing h b E).
    destruct (lost (gl_ h)); simpl; split_and!; try done.
    by apply delete_id.
Qed.

(** C8, as stated, fails: on a helper whose context is lost, [deleteBuffer]
    of a buffer that was never bound returns normally, changes no cache entry
    and deletes nothing. *)
Lemma deleteBuffer_unregistered_silent_when_lost :
  lost (gl_ example_lost_helper) = true /\
  bufferCache_ example_lost_helper !! buffer_uid example_buffer = None /\
  completion (deleteBuffer example_buffer) example_lost_helper = Normal tt /\
  bufferCache_ (after (deleteBuffer example_buffer) example_lost_helper) =
    bufferCache_ example_lost_helper /\
  new_calls (deleteBuffer example_buffer) example_lost_helper =
    [gl_isContextLost true] /\
  ~ (forall h b, bufferCache_ h !! buffer_uid b = None ->
       exists e, completion (deleteBuffer b) h = Throw e).
Proof.
  split_and!; try reflexivity.
  intros Hclaim.
  destruct (Hclaim example_lost_helper example_buffer eq_refl) as [e He].
  vm_compute in He. discriminate He.
Qed.

(** ** Draw calls *)

(** C3. The indexed draw call draws triangles; its count is the end index
    minus the start index and its byte offset the start index times the
    element size; element type and element size come from the capability
    flag, UNSIGNED_INT and 4 bytes when it is set, UNSIGNED_SHORT and 2 bytes
    when it is not. They are the type and the element size of the typed
    array a bind uploads to an element-array target under the same flag.
    With the flag unset, [drawElements(10, 20)] has offset 20 and count 10. *)
Theorem drawElements_spec (h : WebGLHelper) (start end_ : number) :
  completion (drawElements start end_) h = Normal tt /\
  new_calls (drawElements start end_) h =
    [gl_drawElements TRIANGLES (end_ - start)%float
       (if hasOESElementIndexUint h then UNSIGNED_INT else UNSIGNED_SHORT)
       (start * (if hasOESElementIndexUint h then 4 else 2))%float] /\
  (forall b, exists view elementType count offset,
     List.filter is_upload (new_calls (bindBuffer ELEMENT_ARRAY_BUFFER b) h) =
       [gl_bufferData ELEMENT_ARRAY_BUFFER (Some view) (getUsage b)] /\
     new_calls (drawElements start end_) (after (bindBuffer ELEMENT_ARRAY_BUFFER b) h) =
       [gl_drawElements TRIANGLES count elementType offset] /\
     index_type_of view = Some elementType /\
     offset = (start * BYTES_PER_ELEMENT view)%float) /\
  (hasOESElementIndexUint h = false ->
     new_calls (drawElements 10%float 20%float) h =
       [gl_drawElements TRIANGLES 10%float UNSIGNED_SHORT 20%float]).
Proof.
  assert (forall h0 s e, new_calls (drawElements s e) h0 =
    [gl_drawElements TRIANGLES (e - s)%float
       (if hasOESElementIndexUint h0 then UNSIGNED_INT else UNSIGNED_SHORT)
       (s * (if hasOESElementIndexUint h0 then 4 else 2))%float]) as Hdraw.
  { intros h0 s e. apply new_calls_app. unfold drawElements. run. reflexivity. }
  split_and!.
  - reflexivity.
  - apply Hdraw.
  - intros b.
    pose proof (bindBuffer_uploads h ELEMENT_ARRAY_BUFFER b) as Hup.
    destruct (bindBuffer_returns h ELEMENT_ARRAY_BUFFER b) as [_ Hsame].
    eexists _, _, _, _. split; [exact Hup|]. split; [apply Hdraw|].
    rewrite Hsame. destruct (hasOESElementIndexUint h); done.
  - intros E. rewrite Hdraw, E. reflexivity.
Qed.

(** ** The shader and program caches *)

Lemma getShader_cached (h : WebGLHelper) (s : WebGLShaderSource) (shader : handle) :
  shaderCache_ h !! shader_uid s = Some shader ->
  getShader s h = (Normal shader, h).
Proof. intros E. unfold getShader. run. by rewrite E. Qed.

Lemma getShader_returns (s : WebGLShaderSource) : returns (getShader s).
Proof.
  unfold getShader, context_getCompileStatus, context_getShaderInfoLog.
  returns_tac.
Qed.

Lemma getShader_unchanged {X : Type} (f : WebGLHelper -> X) (s : WebGLShaderSource) :
  (forall v h, f (set_gl_ v h) = f h) ->
  (forall v h, f (set_shaderCache_ v h) = f h) ->
  within (unchanged f) (getShader s).
Proof.
  intros Hgl Hcache.
  unfold getShader, context_getCompileStatus, context_getShaderInfoLog.
  within_tac.
Qed.

Lemma getShader_grows (s : WebGLShaderSource) : within grows (getShader s).
Proof.
  unfold getShader, context_getCompileStatus, context_getShaderInfoLog.
  within_tac.
Qed.

Lemma getShader_logs (s : WebGLShaderSource) :
  within (logs (fun _ => true)) (getShader s).
Proof.
  unfold getShader, context_getCompileStatus, context_getShaderInfoLog.
  within_tac.
Qed.

(** A shader that is not cached is created, compiled and cached. *)
Lemma getShader_missing (h : WebGLHelper) (s : WebGLShaderSource) :
  shaderCache_ h !! shader_uid s = None ->
  completion (getShader s) h = Normal (fresh_handle (gl_ h)) /\
  shaderCache_ (after (getShader s) h) =
    <[shader_uid s := fresh_handle (gl_ h)]> (shaderCache_ h) /\
  next_name (gl_ (after (getShader s) h)) =
    (if lost (gl_ h) then next_name (gl_ h) else S (next_name (gl_ h))) /\
  exists rest,
    new_calls (getShader s) h =
      gl_createShader (getType s) (fresh_handle (gl_ h)) :: rest.
Proof.
  intros E. unfold fresh_handle.
  split_and!.
  1-3: unfold getShader, context_create, context_getCompileStatus,
      context_getShaderInfoLog; run; rewrite E;
    destruct (lost (gl_ h)) eqn:L; simpl; rewrite ?L; simpl;
    try destruct (compile_status _ _); reflexivity.
  destruct (lost (gl_ h)) eqn:L;
    [|destruct (compile_status (gl_ h) (Some (next_name (gl_ h)))) eqn:C];
    eexists; apply new_calls_app;
    unfold getShader, context_create, context_getCompileStatus,
      context_getShaderInfoLog; run; rewrite E, L; simpl; rewrite ?L, ?C;
    simpl; rewrite <- ?app_assoc; reflexivity.
Qed.

Lemma context_create_eq (c : handle -> Call) (h : WebGLHelper) :
  context_create c h =
    (Normal (fresh_handle (gl_ h)),
     set_gl_ (log (c (fresh_handle (gl_ h)))
                (if lost (gl_ h) then gl_ h else take_name (gl_ h))) h).
Proof.
  unfold context_create, fresh_handle. run.
  destruct (lost (gl_ h)); reflexivity.
Qed.

Lemma getProgram_cached (h : WebGLHelper) (f v : WebGLShaderSource)
  (program : handle) :
  programCache_ h !! (shader_uid f ++ "/" ++ shader_uid v)%string = Some program ->
  getProgram f v h = (Normal program, h).
Proof. intros E. unfold getProgram. run. by rewrite E. Qed.

(** A program that is not cached is created, linked from its two shaders
    and cached: the steps of the call, one helper after the other. *)
Lemma getProgram_missing_run (h : WebGLHelper) (f v : WebGLShaderSource) :
  programCache_ h !! (shader_uid f ++ "/" ++ shader_uid v)%string = None ->
  let program := fresh_handle (gl_ h) in
  let h1 := set_gl_ (log (gl_createProgram program)
                       (if lost (gl_ h) then gl_ h else take_name (gl_ h))) h in
  let h2 := after (getShader f) h1 in
  exists fragment vertex,
    completion (getShader f) h1 = Normal fragment /\
    let h3 := set_gl_ (log (gl_attachShader program fragment) (gl_ h2)) h2 in
    let h4 := after (getShader v) h3 in
    completion (getShader v) h3 = Normal vertex /\
    getProgram f v h =
      (Normal program,
       set_programCache_
         (<[(shader_uid f ++ "/" ++ shader_uid v)%string := program]>
            (programCache_ h4))
         (set_gl_ (log (gl_linkProgram program)
                     (log (gl_attachShader program vertex) (gl_ h4))) h4)).
Proof.
  intros E program h1 h2.
  destruct (returns_inv (getShader f) h1 (getShader_returns f)) as [fragment Ef].
  exists fragment.
  destruct (returns_inv (getShader v)
              (set_gl_ (log (gl_attachShader program fragment) (gl_ h2)) h2)
              (getShader_returns v)) as [vertex Ev].
  exists vertex. split; [unfold completion; by rewrite Ef|].
  intros h3 h4. split; [unfold completion; subst h3; by rewrite Ev|].
  unfold getProgram. cbv zeta.
  erewrite after_bind by reflexivity. rewrite E.
  erewrite after_bind by apply context_create_eq. fold program h1.
  erewrite after_bind by exact Ef. fold h2.
  erewrite after_bind by reflexivity. fold h3.
  erewrite after_bind by exact Ev.
  reflexivity.
Qed.

Lemma getProgram_missing (h : WebGLHelper) (f v : WebGLShaderSource) :
  programCache_ h !! (shader_uid f ++ "/" ++ shader_uid v)%string = None ->
  completion (getProgram f v) h = Normal (fresh_handle (gl_ h)) /\
  programCache_ (after (getProgram f v) h) =
    <[(shader_uid f ++ "/" ++ shader_uid v)%string := fresh_handle (gl_ h)]>
      (programCache_ h) /\
  exists rest,
    new_calls (getProgram f v) h = gl_createProgram (fresh_handle (gl_ h)) :: rest.
Proof.
  intros E.
  destruct (getProgram_missing_run h f v E)
    as (fragment & vertex & _ & _ & Hrun).
  cbv zeta in Hrun.
  set (h1 := set_gl_ (log (gl_createProgram (fresh_handle (gl_ h)))
                        (if lost (gl_ h) then gl_ h else take_name (gl_ h))) h)
    in *.
  set (h2 := after (getShader f) h1) in *.
  set (h3 := set_gl_ (log (gl_attachShader (fresh_handle (gl_ h)) fragment)
                        (gl_ h2)) h2) in *.
  set (h4 := after (getShader v) h3) in *.
  assert (programCache_ h4 = programCache_ h) as Hcache.
  { pose proof (getShader_unchanged programCache_ v (fun _ _ => eq_refl)
                  (fun _ _ => eq_refl) h3) as H43.
    pose proof (getShader_unchanged programCache_ f (fun _ _ => eq_refl)
                  (fun _ _ => eq_refl) h1) as H21.
    unfold unchanged in *. fold h4 in H43. fold h2 in H21.
    rewrite H43. simpl. rewrite H21. reflexivity. }
  destruct (getShader_logs f h1) as (new1 & Hn1 & _). fold h2 in Hn1.
  destruct (getShader_logs v h3) as (new2 & Hn2 & _). fold h4 in Hn2.
  unfold completion, after. rewrite Hrun. simpl.
  split_and!; [done | by rewrite Hcache |].
  eexists. apply new_calls_app. unfold after. rewrite Hrun. simpl.
  rewrite Hn2. simpl. rewrite Hn1. simpl.
  destruct (lost (gl_ h)); simpl; rewrite <- !app_assoc; reflexivity.
Qed.

(** ** Context loss *)

Lemma handleWebGLContextLost_eq (h : WebGLHelper) :
  handleWebGLContextLost h =
    (Normal tt,
     set_currentProgram_ None
       (set_programCache_ ∅ (set_shaderCache_ ∅ (set_bufferCache_ ∅ h)))).
Proof. reflexivity. Qed.

Lemma fresh_handle_not_allocated (gl : WebGLRenderingContext) (x : handle) :
  allocated gl x -> is_Some x -> fresh_handle gl <> x.
Proof.
  unfold fresh_handle, allocated. intros Ha [k ->].
  destruct (lost gl); [done|]. intros [= E]. lia.
Qed.

(** C1. The loss handler returns with the three caches empty and no program
    in use, and makes no call on the context, so no delete call. After it,
    binding a buffer, getting a shader or getting a program that was cached
    before the loss creates the object anew: the create call is the first
    call made, its result is what the new cache entry holds (and what is
    bound or returned), and it is not the object the cache held before the
    loss. *)
Theorem context_loss_invalidates (h : WebGLHelper) :
  handles_allocated h ->
  let h1 := after handleWebGLContextLost h in
  completion handleWebGLContextLost h = Normal tt /\
  bufferCache_ h1 = ∅ /\ shaderCache_ h1 = ∅ /\ programCache_ h1 = ∅ /\
  currentProgram_ h1 = None /\
  new_calls handleWebGLContextLost h = [] /\
  (forall target b stale,
     bufferCache_ h !! buffer_uid b = Some stale ->
     exists fresh,
       completion (bindBuffer target b) h1 = Normal tt /\
       bufferCache_ (after (bindBuffer target b) h1) !! buffer_uid b =
         Some {| buf := b; buffer := fresh |} /\
       (exists rest, new_calls (bindBuffer target b) h1 =
          gl_createBuffer fresh :: gl_bindBuffer target fresh :: rest) /\
       (is_Some (buffer stale) -> fresh <> buffer stale)) /\
  (forall s stale,
     shaderCache_ h !! shader_uid s = Some stale ->
     exists fresh,
       completion (getShader s) h1 = Normal fresh /\
       shaderCache_ (after (getShader s) h1) !! shader_uid s = Some fresh /\
       (exists rest, new_calls (getShader s) h1 =
          gl_createShader (getType s) fresh :: rest) /\
       (is_Some stale -> fresh <> stale)) /\
  (forall f v stale,
     programCache_ h !! (shader_uid f ++ "/" ++ shader_uid v)%string = Some stale ->
     exists fresh,
       completion (getProgram f v) h1 = Normal fresh /\
       programCache_ (after (getProgram f v) h1)
         !! (shader_uid f ++ "/" ++ shader_uid v)%string = Some fresh /\
       (exists rest, new_calls (getProgram f v) h1 =
          gl_createProgram fresh :: rest) /\
       (is_Some stale -> fresh <> stale)).
Proof.
  intros (Hb & Hs & Hp) h1.
  assert (gl_ h1 = gl_ h) as Hgl by reflexivity.
  split_and!; try reflexivity.
  - apply new_calls_app. simpl. by rewrite app_nil_r.
  - intros target b stale Hstale. exists (fresh_handle (gl_ h1)).
    assert (bufferCache_ h1 !! buffer_uid b = None) as E by apply lookup_empty.
    unfold completion, after.
    split_and!.
    + by rewrite (bindBuffer_missing h1 target b E).
    + rewrite (bindBuffer_missing h1 target b E). simpl.
      by rewrite lookup_insert_eq.
    + eexists. apply new_calls_app. unfold after.
      rewrite (bindBuffer_missing h1 target b E). simpl.
      destruct (lost (gl_ h)); simpl; rewrite <- !app_assoc; reflexivity.
    + rewrite Hgl. apply fresh_handle_not_allocated.
      exact (Hb _ _ Hstale).
  - intros s stale Hstale. exists (fresh_handle (gl_ h1)).
    assert (shaderCache_ h1 !! shader_uid s = None) as E by apply lookup_empty.
    destruct (getShader_missing h1 s E) as (Hc & Hcache & _ & Hcalls).
    split_and!; [done | | done |].
    + rewrite Hcache. by rewrite lookup_insert_eq.
    + rewrite Hgl. apply fresh_handle_not_allocated. exact (Hs _ _ Hstale).
  - intros f v stale Hstale. exists (fresh_handle (gl_ h1)).
    assert (programCache_ h1 !! (shader_uid f ++ "/" ++ shader_uid v)%string
            = None) as E by apply lookup_empty.
    destruct (getProgram_missing h1 f v E) as (Hc & Hcache & Hcalls).
    split_and!; [done | | done |].
    + rewrite Hcache. by rewrite lookup_insert_eq.
    + rewrite Hgl. apply fresh_handle_not_allocated. exact (Hp _ _ Hstale).
Qed.

(** The theorem at a helper that holds a buffer and a program. *)
Lemma context_loss_invalidates_witness :
  handles_allocated example_cached_helper /\
  bufferCache_ example_cached_helper !! buffer_uid example_buffer =
    Some {| buf := example_buffer; buffer := Some 1%nat |} /\
  bufferCache_ (after handleWebGLContextLost example_cached_helper) = ∅.
Proof.
  assert (handles_allocated example_cached_helper) as Hinv.
  { apply (bool_decide_unpack _). vm_compute. exact I. }
  split; [exact Hinv|]. split; [reflexivity|].
  exact (proj1 (proj2 (context_loss_invalidates example_cached_helper Hinv))).
Defined.

(** ** Methods that leave caches and program alone *)

Lemma getUniformLocation_quiet (n : string) : within quiet (getUniformLocation n).
Proof.
  intros h. unfold getUniformLocation, context_getUniformLocation. run.
  destruct (uniformLocations_ h) as [locs|] eqn:E; simpl.
  - destruct (locs !! n) as [[loc|]|]; simpl; unfold quiet; simpl;
      split_and!; auto; try done; try lia; congruence.
  - reflexivity.
Qed.

Lemma getAttributeLocation_quiet (n : string) :
  within quiet (getAttributeLocation n).
Proof.
  intros h. unfold getAttributeLocation, context_getAttribLocation. run.
  destruct (attribLocations_ h) as [locs|] eqn:E; simpl.
  - destruct (locs !! n) as [loc|]; simpl; [destruct (loc =? 0)|]; simpl;
      unfold quiet; simpl; split_and!; auto; try done; try lia; congruence.
  - reflexivity.
Qed.

#[global] Hint Resolve getUniformLocation_quiet getAttributeLocation_quiet : within.

Lemma setUniformFloatValue_quiet (n : string) (v : number) :
  within quiet (setUniformFloatValue n v).
Proof. unfold setUniformFloatValue. within_tac. Qed.

Lemma setUniformMatrixValue_quiet (n : string) (v : list number) :
  within quiet (setUniformMatrixValue n v).
Proof. unfold setUniformMatrixValue. within_tac. Qed.

Lemma enableAttributeArray_quiet (n : string) (sz type stride offset : Z) :
  within quiet (enableAttributeArray n sz type stride offset).
Proof. unfold enableAttributeArray. within_tac. Qed.

Lemma drawElements_quiet (start end_ : number) :
  within quiet (drawElements start end_).
Proof. unfold drawElements. within_tac. Qed.

Lemma createTextureInternal_quiet (ws wt : option Z) :
  within quiet (createTextureInternal ws wt).
Proof. unfold createTextureInternal. within_tac. Qed.

#[global] Hint Resolve setUniformMatrixValue_quiet createTextureInternal_quiet
  : within.

Lemma createEmptyTexture_quiet (w ht : number) (ws wt : option Z) :
  within quiet (createEmptyTexture w ht ws wt).
Proof. unfold createEmptyTexture. within_tac. Qed.

Lemma createTexture_quiet (image : nat) (ws wt : option Z) :
  within quiet (createTexture image ws wt).
Proof. unfold createTexture. within_tac. Qed.

Lemma apply_uniform_quiet (i : nat) (u : Uniform) (slot : nat) :
  within quiet (apply_uniform i u slot).
Proof. unfold apply_uniform, apply_image, uniform_texture. within_tac. Qed.

#[global] Hint Resolve apply_uniform_quiet : within.

Lemma applyUniforms_from_quiet (n i slot : nat) :
  within quiet (applyUniforms_from n i slot).
Proof.
  revert i slot. induction n as [|n IH]; intros i slot; simpl; within_tac.
Qed.

#[global] Hint Resolve applyUniforms_from_quiet : within.

Lemma applyUniforms_quiet : within quiet applyUniforms.
Proof. unfold applyUniforms. within_tac. Qed.

#[global] Hint Resolve applyUniforms_quiet : within.

Lemma init_passes_quiet (k : nat) (sz : number * number) (pixelRatio : number) :
  within quiet (init_passes k sz pixelRatio).
Proof. induction k as [|k IH]; simpl; within_tac. Qed.

#[global] Hint Resolve init_passes_quiet : within.

Lemma prepareDraw_quiet (sz : number * number) (pixelRatio : number) :
  within quiet (prepareDraw sz pixelRatio).
Proof. unfold prepareDraw. within_tac. Qed.

Lemma apply_passes_quiet (n i : nat) : within quiet (apply_passes n i).
Proof. revert i. induction n as [|n IH]; intros i; simpl; within_tac. Qed.

#[global] Hint Resolve apply_passes_quiet : within.

Lemma finalizeDraw_quiet : within quiet finalizeDraw.
Proof. unfold finalizeDraw. within_tac. Qed.

Lemma applyFrameState_quiet (cos_approx sin_approx : number -> number)
  (frameState : FrameState) :
  within quiet (applyFrameState cos_approx sin_approx frameState).
Proof. unfold applyFrameState. within_tac. Qed.

(** ** Fields the cache methods and the events leave alone *)

Lemma bindBuffer_unchanged {X : Type} (f : WebGLHelper -> X) (target : Z)
  (b : WebGLBuffer) :
  (forall v h, f (set_gl_ v h) = f h) ->
  (forall v h, f (set_bufferCache_ v h) = f h) ->
  within (unchanged f) (bindBuffer target b).
Proof. intros Hgl Hcache. unfold bindBuffer. within_tac. Qed.

Lemma deleteBuffer_unchanged {X : Type} (f : WebGLHelper -> X) (b : WebGLBuffer) :
  (forall v h, f (set_gl_ v h) = f h) ->
  (forall v h, f (set_bufferCache_ v h) = f h) ->
  within (unchanged f) (deleteBuffer b).
Proof. intros Hgl Hcache. unfold deleteBuffer, isContextLost. within_tac. Qed.

Lemma getProgram_unchanged {X : Type} (f : WebGLHelper -> X)
  (fs vs : WebGLShaderSource) :
  (forall v h, f (set_gl_ v h) = f h) ->
  (forall v h, f (set_shaderCache_ v h) = f h) ->
  (forall v h, f (set_programCache_ v h) = f h) ->
  within (unchanged f) (getProgram fs vs).
Proof.
  intros Hgl Hshader Hprogram.
  pose proof (fun s => getShader_unchanged f s Hgl Hshader) as Hget.
  unfold getProgram. within_tac.
Qed.

Lemma dispatch_unchanged {X : Type} (f : WebGLHelper -> X)
  (type : ContextEventType) :
  (forall v h, f (set_gl_ v h) = f h) ->
  (forall v h, f (set_bufferCache_ v h) = f h) ->
  (forall v h, f (set_shaderCache_ v h) = f h) ->
  (forall v h, f (set_programCache_ v h) = f h) ->
  (forall v h, f (set_currentProgram_ v h) = f h) ->
  within (unchanged f) (dispatch type).
Proof.
  intros Hgl Hb Hs Hp Hc.
  unfold dispatch, handleWebGLContextLost, handleWebGLContextRestored.
  destruct type; within_tac; rewrite ?Hc, ?Hp, ?Hs, ?Hb; done.
Qed.

Lemma useProgram_unchanged {X : Type} (f : WebGLHelper -> X) (P : handle) :
  (forall v h, f (set_gl_ v h) = f h) ->
  (forall v h, f (set_currentProgram_ v h) = f h) ->
  (forall v h, f (set_uniformLocations_ v h) = f h) ->
  (forall v h, f (set_attribLocations_ v h) = f h) ->
  within (unchanged f) (useProgram P).
Proof. intros Hgl Hc Hu Ha. unfold useProgram. within_tac. Qed.

(** ** What every operation keeps *)

#[global] Hint Resolve setUniformFloatValue_quiet enableAttributeArray_quiet
  drawElements_quiet createEmptyTexture_quiet createTexture_quiet
  prepareDraw_quiet finalizeDraw_quiet applyFrameState_quiet : within.

Lemma quiet_locations_undefined (h h' : WebGLHelper) :
  quiet h h' -> locations_undefined h -> locations_undefined h'.
Proof. unfold quiet, locations_undefined. intros ? [? ?]. destruct_and!. auto. Qed.

Lemma quiet_handles_allocated (h h' : WebGLHelper) :
  quiet h h' -> handles_allocated h -> handles_allocated h'.
Proof.
  unfold quiet, handles_allocated. intros Hq (Hb & Hs & Hp). destruct_and!.
  assert (forall x, allocated (gl_ h) x -> allocated (gl_ h') x) as Hmono.
  { intros [k|]; simpl; [lia|done]. }
  split_and!.
  - replace (bufferCache_ h') with (bufferCache_ h) by done.
    eapply map_Forall_impl; [exact Hb|]. simpl. auto.
  - replace (shaderCache_ h') with (shaderCache_ h) by done.
    eapply map_Forall_impl; [exact Hs|]. simpl. auto.
  - replace (programCache_ h') with (programCache_ h) by done.
    eapply map_Forall_impl; [exact Hp|]. simpl. auto.
Qed.

Section Reachable.
Variables cos_approx sin_approx : number -> number.

Lemma perform_quiet (op : Op) (h : WebGLHelper) :
  is_quiet_op op = true -> quiet h (perform cos_approx sin_approx op h).
Proof.
  intros Hq. unfold perform.
  destruct op; try discriminate Hq;
    match goal with
    | |- quiet ?h (snd (?m ?h)) =>
        change (quiet h (after m h)); revert h;
        change (within quiet m); try unfold discard; within_tac
    end.
Qed.

(** No operation changes a field that only the constructor assigns. *)
Lemma perform_unchanged {X : Type} (f : WebGLHelper -> X) (op : Op)
  (h : WebGLHelper) :
  (forall h h', quiet h h' -> f h' = f h) ->
  (forall v h, f (set_gl_ v h) = f h) ->
  (forall v h, f (set_bufferCache_ v h) = f h) ->
  (forall v h, f (set_shaderCache_ v h) = f h) ->
  (forall v h, f (set_programCache_ v h) = f h) ->
  (forall v h, f (set_currentProgram_ v h) = f h) ->
  (forall v h, f (set_uniformLocations_ v h) = f h) ->
  (forall v h, f (set_attribLocations_ v h) = f h) ->
  f (perform cos_approx sin_approx op h) = f h.
Proof.
  intros Hquiet Hgl Hb Hs Hp Hc Hu Ha.
  destruct (is_quiet_op op) eqn:Hq.
  { apply Hquiet. by apply perform_quiet. }
  unfold perform.
  destruct op; try discriminate Hq;
    match goal with
    | |- f (snd (?m ?h)) = f ?h =>
        change (unchanged f h (after m h)); revert h;
        change (within (unchanged f) m); try unfold discard
    end.
  - by apply bindBuffer_unchanged.
  - by apply deleteBuffer_unchanged.
  - apply (within_bind (unchanged f)); [by apply getShader_unchanged|].
    intros ?. apply (within_ret (unchanged f)).
  - apply (within_bind (unchanged f)); [by apply useProgram_unchanged|].
    intros ?. apply (within_ret (unchanged f)).
  - apply (within_bind (unchanged f)); [by apply getProgram_unchanged|].
    intros ?. apply (within_ret (unchanged f)).
  - by apply dispatch_unchanged.
Qed.

(** X22. The capability flag and the passes are those of the constructor:
    no sequence of operations changes them, so that an upload and a draw
    call always agree on the index type. *)
Lemma perform_all_flag (ops : list Op) (h : WebGLHelper) :
  hasOESElementIndexUint (perform_all cos_approx sin_approx ops h) =
    hasOESElementIndexUint h /\
  postProcessPasses (perform_all cos_approx sin_approx ops h) =
    postProcessPasses h.
Proof.
  revert h. induction ops as [|op ops IH]; intros h; simpl; [done|].
  destruct (IH (perform cos_approx sin_approx op h)) as [-> ->].
  split; apply perform_unchanged; try done; unfold quiet; intros;
    destruct_and!; done.
Qed.

(** Undefined location maps stay undefined through every operation but a
    change of program. *)
Lemma perform_locations_undefined (op : Op) (h : WebGLHelper) :
  changes_program op h = false ->
  locations_undefined h ->
  locations_undefined (perform cos_approx sin_approx op h).
Proof.
  intros Hop Hundef.
  destruct (is_quiet_op op) eqn:Hq.
  { eapply quiet_locations_undefined; [by apply perform_quiet | done]. }
  destruct Hundef as [Hu Ha]. unfold locations_undefined.
  rewrite <- Hu, <- Ha. unfold perform.
  destruct op; try discriminate Hq.
  - split; apply (bindBuffer_unchanged _ target buf0); done.
  - split; apply (deleteBuffer_unchanged _ buf0); done.
  - split; apply (within_bind (unchanged _));
      try (by apply getShader_unchanged);
      intros ?; apply (within_ret (unchanged _)).
  - simpl in Hop. apply negb_false_iff, bool_decide_eq_true in Hop.
    unfold discard. erewrite after_bind by (by apply useProgram_same). done.
  - split; apply (within_bind (unchanged _));
      try (by apply getProgram_unchanged);
      intros ?; apply (within_ret (unchanged _)).
  - split; apply (dispatch_unchanged _ type); done.
Qed.

Lemma perform_all_locations_undefined (ops : list Op) (h : WebGLHelper) :
  no_program_change cos_approx sin_approx ops h = true ->
  locations_undefined h ->
  locations_undefined (perform_all cos_approx sin_approx ops h).
Proof.
  revert h. induction ops as [|op ops IH]; intros h Hops Hundef; simpl in *.
  - done.
  - apply andb_true_iff in Hops as [Hop Hops]. apply negb_true_iff in Hop.
    apply IH; [done|]. by apply perform_locations_undefined.
Qed.
End Reachable.

(** ** Location maps *)

(** C10. The constructor leaves both location maps undefined, and they stay
    undefined through every sequence of operations in which no [useProgram]
    call changes the program. In such a state a uniform or attribute location
    cannot be resolved: the call throws on reading the undefined map and
    changes nothing. A [useProgram] call that changes the program creates
    both maps, empty, and locations resolve from then on. *)
Theorem locations_undefined_before_program_change
  (cos_approx sin_approx : number -> number)
  (WEBGL_EXTENSIONS : list string) (gl : WebGLRenderingContext)
  (opt_options : option Options) (ops : list Op) :
  no_program_change cos_approx sin_approx ops
    (constructor WEBGL_EXTENSIONS gl opt_options) = true ->
  let h0 := constructor WEBGL_EXTENSIONS gl opt_options in
  let h := perform_all cos_approx sin_approx ops h0 in
  uniformLocations_ h0 = None /\ attribLocations_ h0 = None /\
  uniformLocations_ h = None /\ attribLocations_ h = None /\
  (forall n, getUniformLocation n h = (Throw (undefined_read n), h)) /\
  (forall n, getAttributeLocation n h = (Throw (undefined_read n), h)) /\
  (forall P, P <> currentProgram_ h ->
     uniformLocations_ (after (useProgram P) h) = Some ∅ /\
     attribLocations_ (after (useProgram P) h) = Some ∅ /\
     (forall n, exists loc,
        completion (getUniformLocation n) (after (useProgram P) h) = Normal loc) /\
     (forall n, exists loc,
        completion (getAttributeLocation n) (after (useProgram P) h) = Normal loc)).
Proof.
  intros Hops h0 h.
  assert (locations_undefined h) as [Hu Ha].
  { apply perform_all_locations_undefined; [exact Hops|]. by split. }
  split_and!; try done.
  - intros n. unfold getUniformLocation. run. by rewrite Hu.
  - intros n. unfold getAttributeLocation. run. by rewrite Ha.
  - intros P Hne. unfold after, completion.
    rewrite (useProgram_changed h P Hne). simpl.
    split_and!; try done.
    + intros n. unfold getUniformLocation, context_getUniformLocation. run.
      rewrite lookup_empty. simpl. eauto.
    + intros n. unfold getAttributeLocation, context_getAttribLocation. run.
      rewrite lookup_empty. simpl. eauto.
Qed.

(** The theorem after a bind, a [useProgram(null)], a frame state and a
    context loss on a fresh helper. *)
Lemma locations_undefined_before_program_change_witness :
  getUniformLocation "u_opacity"
    (perform_all (fun x => x) (fun x => x)
       [op_bindBuffer ARRAY_BUFFER example_buffer; op_useProgram None;
        op_dispatch LOST]
       example_helper) =
  (Throw (undefined_read "u_opacity"),
   perform_all (fun x => x) (fun x => x)
     [op_bindBuffer ARRAY_BUFFER example_buffer; op_useProgram None;
      op_dispatch LOST]
     example_helper).
Proof.
  refine (proj1 (proj2 (proj2 (proj2 (proj2
    (locations_undefined_before_program_change (fun x => x) (fun x => x)
       [] example_context None
       [op_bindBuffer ARRAY_BUFFER example_buffer; op_useProgram None;
        op_dispatch LOST] _))))) "u_opacity").
  vm_compute. reflexivity.
Defined.

(** A location the context answers with [null] is stored, and the next
    resolution of the name asks the context again. *)
Lemma getUniformLocation_null (h : WebGLHelper) (n : string)
  (locs : gmap string handle) :
  uniformLocations_ h = Some locs ->
  (locs !! n = None \/ locs !! n = Some None) ->
  (if lost (gl_ h) then None
   else uniform_location (gl_ h) (currentProgram_ h) n) = None ->
  getUniformLocation n h =
    (Normal None,
     set_uniformLocations_ (Some (<[n := None]> locs))
       (set_gl_ (log (gl_getUniformLocation (currentProgram_ h) n None) (gl_ h))
          h)).
Proof.
  intros Hu Hn Hgl.
  cbv beta iota delta [getUniformLocation context_getUniformLocation mbind
    Method_bind this mret Method_ret assign call].
  rewrite Hu. unfold handle, WebGLObject in *.
  destruct Hn as [-> | ->]; rewrite Hgl; reflexivity.
Qed.

(** Within one program, [k] resolutions of a uniform the context does not
    know make [k] lookups in the context. *)
Lemma unresolved_uniform_lookups (k : nat) (h : WebGLHelper) (n : string)
  (locs : gmap string handle) :
  uniformLocations_ h = Some locs ->
  (locs !! n = None \/ locs !! n = Some None) ->
  (if lost (gl_ h) then None
   else uniform_location (gl_ h) (currentProgram_ h) n) = None ->
  uniform_lookups n (repeatedly k (getUniformLocation n)) h = k.
Proof.
  unfold uniform_lookups.
  assert (forall k h locs,
    uniformLocations_ h = Some locs ->
    (locs !! n = None \/ locs !! n = Some None) ->
    (if lost (gl_ h) then None
     else uniform_location (gl_ h) (currentProgram_ h) n) = None ->
    calls (gl_ (after (repeatedly k (getUniformLocation n)) h)) =
      calls (gl_ h) ++
      replicate k (gl_getUniformLocation (currentProgram_ h) n None)) as Hcalls.
  { clear. induction k as [|k IH]; intros h locs Hu Hn Hgl; simpl.
    - unfold after. simpl. by rewrite app_nil_r.
    - unfold after. erewrite after_bind by (by eapply getUniformLocation_null).
      set (h1 := set_uniformLocations_ _ _).
      specialize (IH h1 (<[n := None]> locs)). unfold after in IH.
      rewrite IH; subst h1; simpl; try done.
      + by rewrite <- app_assoc.
      + right. apply lookup_insert_eq. }
  intros Hu Hn Hgl.
  rewrite (new_calls_app _ _ _ (Hcalls k h locs Hu Hn Hgl)).
  induction k as [|k IH]; simpl; [done|].
  rewrite bool_decide_eq_true_2 by done. simpl. by rewrite IH.
Qed.

(** C5 fails on the code. With a program in use, two resolutions of a
    uniform the context does not know make two lookups in the context, and
    so do two resolutions of an attribute at location 0; a uniform with a
    location and an attribute the context does not know (location -1) are
    looked up once. *)
Theorem falsy_locations_are_looked_up_again :
  uniform_lookups "u_missing"
    (repeatedly 2 (getUniformLocation "u_missing")) example_bound_helper = 2%nat /\
  attrib_lookups "a_position"
    (repeatedly 2 (getAttributeLocation "a_position")) example_bound_helper = 2%nat /\
  uniform_lookups "u_opacity"
    (repeatedly 2 (getUniformLocation "u_opacity")) example_bound_helper = 1%nat /\
  attrib_lookups "a_missing"
    (repeatedly 2 (getAttributeLocation "a_missing")) example_bound_helper = 1%nat /\
  uniformLocations_
    (after (getUniformLocation "u_missing") example_bound_helper) =
    Some {["u_missing" := None]}.
Proof. split_and!; vm_compute; reflexivity. Qed.

(** ** The post-processing passes *)

Lemma log_log_all (c : Call) (cs : list Call) (gl : WebGLRenderingContext) :
  log c (log_all cs gl) = log_all (cs ++ [c]) gl.
Proof. unfold log, log_all. simpl. by rewrite app_assoc. Qed.

Lemma log_all_log (c : Call) (cs : list Call) (gl : WebGLRenderingContext) :
  log_all cs (log c gl) = log_all (c :: cs) gl.
Proof. unfold log, log_all. simpl. by rewrite <- app_assoc. Qed.

Lemma log_all_nil (h : WebGLHelper) : set_gl_ (log_all [] (gl_ h)) h = h.
Proof.
  destruct h as [? [] ? ? ? ? ? ? ? ? ? ? ? ? ?]. unfold set_gl_, log_all. simpl.
  by rewrite app_nil_r.
Qed.

(** The loop of [prepareDraw] calls [init] on the first [k] passes, last
    one first. *)
Lemma init_passes_eq (k : nat) (sz : number * number) (pixelRatio : number)
  (h : WebGLHelper) :
  (k <= length (postProcessPasses h))%nat ->
  init_passes k sz pixelRatio h =
    (Normal tt,
     set_gl_
       (log_all (map (fun pass => pass_init pass sz pixelRatio)
                   (rev (take k (postProcessPasses h)))) (gl_ h)) h).
Proof.
  revert h. induction k as [|k IH]; intros h Hk.
  - simpl. by rewrite log_all_nil.
  - destruct (lookup_lt_is_Some_2 (postProcessPasses h) k) as [pass Hpass];
      [lia|].
    simpl. erewrite after_bind by reflexivity. rewrite Hpass.
    erewrite after_bind by reflexivity.
    rewrite IH by (simpl; lia). simpl.
    rewrite (take_S_r _ _ _ Hpass), rev_app_distr. simpl.
    by rewrite log_all_log.
Qed.

(** The loop of [finalizeDraw] from index [i] on is the apply chain of the
    passes from [i] on. *)
Lemma apply_passes_eq (n i : nat) (h : WebGLHelper) :
  (i + n)%nat = length (postProcessPasses h) ->
  apply_passes n i h =
    (Normal tt,
     set_gl_ (log_all (apply_chain (drop i (postProcessPasses h))) (gl_ h)) h).
Proof.
  revert i h. induction n as [|n IH]; intros i h Hn.
  - simpl. rewrite drop_ge by lia. simpl. by rewrite log_all_nil.
  - destruct (lookup_lt_is_Some_2 (postProcessPasses h) i) as [pass Hpass];
      [lia|].
    simpl. erewrite after_bind by reflexivity. rewrite Hpass.
    erewrite after_bind by reflexivity.
    rewrite IH by (simpl; lia). simpl.
    rewrite (drop_S _ _ _ Hpass). simpl.
    rewrite log_all_log, head_lookup, lookup_drop.
    replace (S i + 0)%nat with (S i) by lia. reflexivity.
Qed.

Lemma finalizeDraw_eq (h : WebGLHelper) :
  finalizeDraw h =
    (Normal tt,
     set_gl_ (log_all (apply_chain (postProcessPasses h)) (gl_ h)) h).
Proof.
  unfold finalizeDraw. erewrite after_bind by reflexivity.
  by rewrite apply_passes_eq.
Qed.

Lemma apply_chain_lookup (passes : list WebGLPostProcessingPass) (i : nat)
  (pass : WebGLPostProcessingPass) :
  passes !! i = Some pass ->
  apply_chain passes !! i = Some (pass_apply pass (passes !! S i)).
Proof.
  revert i. induction passes as [|p rest IH]; intros i Hi; [done|].
  destruct i as [|i]; simpl in *.
  - injection Hi as ->. by rewrite head_lookup.
  - by apply IH.
Qed.

Lemma getUniformLocation_logs (P : Call -> bool) (n : string) :
  (forall p r, P (gl_getUniformLocation p n r) = true) ->
  within (logs P) (getUniformLocation n).
Proof.
  intros HP. unfold getUniformLocation, context_getUniformLocation.
  within_tac.
Qed.

Lemma apply_uniform_logs (i : nat) (u : Uniform) (slot : nat) :
  within (logs is_uniform_call) (apply_uniform i u slot).
Proof.
  pose proof (fun n => getUniformLocation_logs is_uniform_call n
                         (fun _ _ => eq_refl)) as Hget.
  unfold apply_uniform, apply_image, uniform_texture. within_tac.
Qed.

Lemma applyUniforms_from_logs (n i slot : nat) :
  within (logs is_uniform_call) (applyUniforms_from n i slot).
Proof.
  pose proof apply_uniform_logs as Hstep.
  revert i slot. induction n as [|n IH]; intros i slot; simpl; within_tac.
Qed.

Lemma applyUniforms_logs : within (logs is_uniform_call) applyUniforms.
Proof.
  pose proof applyUniforms_from_logs as Hloop.
  unfold applyUniforms. within_tac.
Qed.

Lemma filter_pass_calls_uniform (new : list Call) :
  forallb is_uniform_call new = true -> List.filter is_pass_call new = [].
Proof.
  induction new as [|c new IH]; simpl; [done|].
  intros [Hc Hnew]%andb_true_iff. rewrite IH by done.
  by destruct c.
Qed.

Lemma filter_pass_calls_init (sz : number * number) (pixelRatio : number)
  (passes : list WebGLPostProcessingPass) :
  List.filter is_pass_call (map (fun pass => pass_init pass sz pixelRatio) passes) =
    map (fun pass => pass_init pass sz pixelRatio) passes.
Proof. induction passes as [|p passes IH]; simpl; [done|]. by rewrite IH. Qed.

Lemma call_log_all (c : Call) (cs : list Call) (g : WebGLRenderingContext)
  (h : WebGLHelper) :
  call c (set_gl_ (log_all cs g) h) =
    (Normal tt, set_gl_ (log_all (cs ++ [c]) g) h).
Proof.
  unfold call, assign. f_equal.
  change (gl_ (set_gl_ (log_all cs g) h)) with (log_all cs g).
  by rewrite log_log_all.
Qed.

Lemma log_all_app (cs1 cs2 : list Call) (g : WebGLRenderingContext) :
  log_all cs2 (log_all cs1 g) = log_all (cs1 ++ cs2) g.
Proof. unfold log_all. simpl. by rewrite app_assoc. Qed.

Lemma init_passes_log_all (sz : number * number) (pixelRatio : number)
  (cs : list Call) (g : WebGLRenderingContext) (h : WebGLHelper) :
  init_passes (length (postProcessPasses h)) sz pixelRatio
    (set_gl_ (log_all cs g) h) =
    (Normal tt,
     set_gl_
       (log_all (cs ++ map (fun pass => pass_init pass sz pixelRatio)
                         (rev (postProcessPasses h))) g) h).
Proof.
  rewrite init_passes_eq by done.
  change (postProcessPasses (set_gl_ (log_all cs g) h))
    with (postProcessPasses h).
  change (gl_ (set_gl_ (log_all cs g) h)) with (log_all cs g).
  rewrite firstn_all, log_all_app. reflexivity.
Qed.

(** The calls of [prepareDraw] on the passes: [init] on every pass, last
    pass first. *)
Lemma prepareDraw_pass_calls (h : WebGLHelper) (sz : number * number)
  (pixelRatio : number) :
  List.filter is_pass_call (new_calls (prepareDraw sz pixelRatio) h) =
    map (fun pass => pass_init pass sz pixelRatio) (rev (postProcessPasses h)).
Proof.
  set (inits := map (fun pass => pass_init pass sz pixelRatio)
                  (rev (postProcessPasses h))).
  set (h1 := set_canvas_
               {| width := (fst sz * pixelRatio)%float;
                  height := (snd sz * pixelRatio)%float;
                  style_position := style_position (canvas_ h);
                  style_width := Some (fst sz);
                  style_height := Some (snd sz);
                  listeners := listeners (canvas_ h) |} h).
  set (before := [gl_useProgram (currentProgram_ h)] ++ inits ++
                 [gl_bindTexture TEXTURE_2D None;
                  gl_clearColor 0%float 0%float 0%float 0%float;
                  gl_clear COLOR_BUFFER_BIT; gl_enable BLEND;
                  gl_blendFunc ONE ONE_MINUS_SRC_ALPHA]).
  set (h2 := set_gl_ (log_all before (gl_ h)) h1).
  assert (prepareDraw sz pixelRatio h = applyUniforms h2) as Hrun.
  { unfold prepareDraw.
    erewrite after_bind by reflexivity. fold h1.
    erewrite after_bind by reflexivity.
    change (currentProgram_ h1) with (currentProgram_ h).
    change (postProcessPasses h1) with (postProcessPasses h).
    erewrite after_bind.
    2:{ change (call (gl_useProgram (currentProgram_ h)) h1)
          with (Normal tt,
                set_gl_ (log_all [gl_useProgram (currentProgram_ h)] (gl_ h)) h1).
        reflexivity. }
    erewrite after_bind by apply (init_passes_log_all sz pixelRatio _ _ h1).
    do 5 (erewrite after_bind by apply call_log_all).
    fold inits. subst h2 before. rewrite <- !app_assoc. reflexivity. }
  destruct (applyUniforms_logs h2) as (new & Hnew & Huniform).
  assert (calls (gl_ (after (prepareDraw sz pixelRatio) h)) =
          calls (gl_ h) ++ before ++ new) as Hcalls.
  { unfold after. rewrite Hrun. fold (after applyUniforms h2). rewrite Hnew.
    change (calls (gl_ h2)) with (calls (gl_ h) ++ before).
    by rewrite <- app_assoc. }
  rewrite (new_calls_app _ _ _ Hcalls).
  subst before. rewrite !List.filter_app. fold inits.
  rewrite (filter_pass_calls_uniform new Huniform).
  unfold inits at 1. rewrite filter_pass_calls_init. fold inits.
  simpl. by rewrite !app_nil_r.
Qed.

(** C7. [prepareDraw] calls [init] on the passes in reverse order of the
    array. [finalizeDraw] returns after calling [apply] on the passes in the
    order of the array, the pass at index [i] with the pass at index [i + 1]
    as its target and the last pass with none. For the passes [A; B], [A]
    is applied with target [B], then [B] with no target. *)
Theorem pass_order (h : WebGLHelper) :
  (forall sz pixelRatio,
     List.filter is_pass_call (new_calls (prepareDraw sz pixelRatio) h) =
       map (fun pass => pass_init pass sz pixelRatio)
         (rev (postProcessPasses h))) /\
  completion finalizeDraw h = Normal tt /\
  new_calls finalizeDraw h = apply_chain (postProcessPasses h) /\
  length (new_calls finalizeDraw h) = length (postProcessPasses h) /\
  (forall i pass,
     postProcessPasses h !! i = Some pass ->
     new_calls finalizeDraw h !! i =
       Some (pass_apply pass (postProcessPasses h !! S i))) /\
  (forall A B,
     postProcessPasses h = [A; B] ->
     new_calls finalizeDraw h = [pass_apply A (Some B); pass_apply B None]).
Proof.
  assert (new_calls finalizeDraw h = apply_chain (postProcessPasses h)) as Hnew.
  { apply new_calls_app. unfold after. by rewrite finalizeDraw_eq. }
  split_and!.
  - intros sz pixelRatio. apply prepareDraw_pass_calls.
  - unfold completion. by rewrite finalizeDraw_eq.
  - exact Hnew.
  - rewrite Hnew. generalize (postProcessPasses h).
    induction l as [|p l IH]; simpl; [done|]. by rewrite IH.
  - intros i pass Hi. rewrite Hnew. by apply apply_chain_lookup.
  - intros A B Hab. rewrite Hnew, Hab. reflexivity.
Qed.

(** ** The transforms of a frame state *)

Lemma getUniformLocation_unchanged {X : Type} (f : WebGLHelper -> X) (n : string) :
  (forall v h, f (set_gl_ v h) = f h) ->
  (forall v h, f (set_uniformLocations_ v h) = f h) ->
  within (unchanged f) (getUniformLocation n).
Proof.
  intros Hgl Hlocs. unfold getUniformLocation, context_getUniformLocation.
  within_tac.
Qed.

Lemma setUniformMatrixValue_unchanged {X : Type} (f : WebGLHelper -> X)
  (n : string) (v : list number) :
  (forall v h, f (set_gl_ v h) = f h) ->
  (forall v h, f (set_uniformLocations_ v h) = f h) ->
  within (unchanged f) (setUniformMatrixValue n v).
Proof.
  intros Hgl Hlocs.
  pose proof (fun n => getUniformLocation_unchanged f n Hgl Hlocs) as Hget.
  unfold setUniformMatrixValue. within_tac.
Qed.

Lemma hoare_assign_bind {B : Type} (P Q R : WebGLHelper -> Prop)
  (f : WebGLHelper -> WebGLHelper) (k : unit -> Method B) :
  (forall h, P h -> Q (f h)) -> hoare Q (k tt) R ->
  hoare P (assign f ≫= k) R.
Proof. intros Hf Hk h Hh. apply (Hk (f h)). by apply Hf. Qed.

Lemma hoare_within {A : Type} {X : Type} (f : WebGLHelper -> X) (v : X)
  (m : Method A) :
  within (unchanged f) m -> hoare (fun h => f h = v) m (fun h => f h = v).
Proof. intros Hm h Hh. rewrite <- Hh. apply Hm. Qed.

(** An assignment to one of the three transforms, on their values. *)
Ltac matrices_leaf :=
  intros [] [= ? ? ?]; unfold matrices; simpl in *; subst; reflexivity.

(** The three transforms after [applyFrameState], as the method composes
    them. *)
Lemma applyFrameState_matrices (cos_approx sin_approx : number -> number)
  (frameState : FrameState) (h : WebGLHelper) :
  let sz := size frameState in
  let view := viewState frameState in
  matrices (after (applyFrameState cos_approx sin_approx frameState) h) =
    (Transform.translate
       (Transform.rotate cos_approx sin_approx
          (Transform.scale Transform.create
             (2 / (resolution view * fst sz))%float
             (2 / (resolution view * snd sz))%float)
          (- rotation view)%float)
       (- fst (center view))%float (- snd (center view))%float,
     Transform.scale Transform.create (2 / fst sz)%float (2 / snd sz)%float,
     if (rotation view =? 0)%float then Transform.create
     else Transform.rotate cos_approx sin_approx Transform.create
            (- rotation view)%float).
Proof.
  intros sz view.
  match goal with
  | |- matrices (after ?m h) = ?v =>
      cut (forall A B C,
             hoare (fun h => matrices h = (A, B, C)) m
               (fun h => matrices h = v));
        [ intros Hm; exact (Hm _ _ _ h eq_refl) | intros A B C ]
  end.
  pose proof (fun n v => setUniformMatrixValue_unchanged matrices n v
                (fun _ _ => eq_refl) (fun _ _ => eq_refl)) as Hget.
  unfold applyFrameState. cbv zeta. fold sz view.
  do 7 (eapply (hoare_assign_bind _ (fun h => matrices h = (_, _, _)));
        [matrices_leaf|]).
  destruct (rotation view =? 0)%float; simpl negb; cbv iota.
  - change (mret tt ≫= ?k) with (k tt). cbv beta.
    apply hoare_within. within_tac.
  - eapply (hoare_assign_bind _ (fun h => matrices h = (_, _, _)));
      [matrices_leaf|].
    apply hoare_within. within_tac.
Qed.

Lemma applyFrameState_transforms (cos_approx sin_approx : number -> number)
  (frameState : FrameState) (h : WebGLHelper) :
  let sz := size frameState in
  let view := viewState frameState in
  let h' := after (applyFrameState cos_approx sin_approx frameState) h in
  projectionMatrix_ h' =
    Transform.translate
      (Transform.rotate cos_approx sin_approx
         (Transform.scale Transform.create
            (2 / (resolution view * fst sz))%float
            (2 / (resolution view * snd sz))%float)
         (- rotation view)%float)
      (- fst (center view))%float (- snd (center view))%float /\
  offsetScaleMatrix_ h' =
    Transform.scale Transform.create (2 / fst sz)%float (2 / snd sz)%float /\
  offsetRotateMatrix_ h' =
    (if (rotation view =? 0)%float then Transform.create
     else Transform.rotate cos_approx sin_approx Transform.create
            (- rotation view)%float).
Proof.
  intros sz view h'.
  pose proof (applyFrameState_matrices cos_approx sin_approx frameState h)
    as Hm.
  cbv zeta in Hm. fold sz view h' in Hm. unfold matrices in Hm.
  injection Hm as Hp Hs Hr. by split_and!.
Qed.

(** C6. After [applyFrameState] the projection transform is the identity
    scaled by 2 / (resolution * width) and 2 / (resolution * height), then
    rotated by the negated view rotation, then translated by the negated
    view centre. For the view centred at the origin, at resolution 1, not
    rotated, on a viewport of 100 by 100, it is the scale by 0.02 and 0.02:
    its linear part is diagonal and its translation is zero, and so is the
    4x4 matrix set as the projection uniform. *)
Theorem applyFrameState_projection (cos_approx sin_approx : number -> number)
  (frameState : FrameState) (h : WebGLHelper) :
  projectionMatrix_ (after (applyFrameState cos_approx sin_approx frameState) h) =
    Transform.translate
      (Transform.rotate cos_approx sin_approx
         (Transform.scale Transform.create
            (2 / (resolution (viewState frameState) * fst (size frameState)))%float
            (2 / (resolution (viewState frameState) * snd (size frameState)))%float)
         (- rotation (viewState frameState))%float)
      (- fst (center (viewState frameState)))%float
      (- snd (center (viewState frameState)))%float /\
  projectionMatrix_ (after (applyFrameState cos_approx sin_approx example_frame) h) =
    Transform.scale Transform.create 0.02%float 0.02%float /\
  projectionMatrix_ (after (applyFrameState cos_approx sin_approx example_frame) h) =
    Transform.mk 0.02%float 0%float 0%float 0.02%float 0%float 0%float /\
  new_calls (applyFrameState cos_approx sin_approx example_frame)
    example_bound_helper !! 1%nat =
    Some (gl_uniformMatrix4fv None false
            [0.02%float; 0%float; 0%float; 0%float;
             0%float; 0.02%float; 0%float; 0%float;
             0%float; 0%float; 1%float; 0%float;
             0%float; 0%float; 0%float; 1%float]).
Proof.
  split_and!.
  - apply (applyFrameState_transforms cos_approx sin_approx frameState h).
  - rewrite (proj1 (applyFrameState_transforms cos_approx sin_approx
                      example_frame h)).
    vm_compute. reflexivity.
  - rewrite (proj1 (applyFrameState_transforms cos_approx sin_approx
                      example_frame h)).
    vm_compute. reflexivity.
  - vm_compute. reflexivity.
Qed.

(** The order of the three steps matters: for the view centred at (5, 7) at
    resolution 2, scaling the translated identity does not give the
    projection transform of the method. *)
Lemma projection_order_matters (cos_approx sin_approx : number -> number)
  (h : WebGLHelper) :
  projectionMatrix_
    (after (applyFrameState cos_approx sin_approx example_frame_off_centre) h) <>
  Transform.scale
    (Transform.rotate cos_approx sin_approx
       (Transform.translate Transform.create (-5)%float (-7)%float) (-0)%float)
    (2 / (2 * 100))%float (2 / (2 * 100))%float.
Proof.
  rewrite (proj1 (applyFrameState_transforms cos_approx sin_approx
                    example_frame_off_centre h)).
  intros E. apply (f_equal (fun m => (Transform.e m =? -5)%float)) in E.
  vm_compute in E. discriminate E.
Qed.

(** ** Custom uniforms and their textures *)

Lemma uniform_texture_eq (i : nat) (u : Uniform) (h : WebGLHelper) :
  uniform_texture i u h =
    match texture u with
    | Some t => (Normal (Some t), h)
    | None =>
        (Normal (fresh_handle (gl_ h)),
         set_uniforms_
           (<[i := set_texture (fresh_handle (gl_ h)) u]> (uniforms_ h))
           (set_gl_ (log (gl_createTexture (fresh_handle (gl_ h)))
                       (if lost (gl_ h) then gl_ h else take_name (gl_ h))) h))
    end.
Proof.
  unfold uniform_texture. destruct (texture u); [reflexivity|].
  erewrite after_bind by apply context_create_eq.
  erewrite after_bind by reflexivity. reflexivity.
Qed.

(** What is left of [apply_image] once the texture is at hand. *)
Lemma apply_image_rest_unchanged {X : Type} (f : WebGLHelper -> X)
  (u : Uniform) (source : TexSource) (slot : nat) (t : handle) :
  (forall v h, f (set_gl_ v h) = f h) ->
  (forall v h, f (set_uniformLocations_ v h) = f h) ->
  within (unchanged f)
    (call (gl_activeTexture slot);;
     call (gl_bindTexture TEXTURE_2D t);;
     call (gl_texParameteri TEXTURE_2D TEXTURE_MIN_FILTER LINEAR);;
     call (gl_texParameteri TEXTURE_2D TEXTURE_WRAP_S CLAMP_TO_EDGE);;
     call (gl_texParameteri TEXTURE_2D TEXTURE_WRAP_T CLAMP_TO_EDGE);;
     call (gl_texImage2D TEXTURE_2D source);;
     loc ← getUniformLocation (name u);
     call (gl_uniform1i loc slot);;
     mret (S slot)).
Proof.
  intros Hgl Hlocs.
  pose proof (fun n => getUniformLocation_unchanged f n Hgl Hlocs) as Hget.
  within_tac.
Qed.

Lemma apply_image_uniforms (i : nat) (u : Uniform) (source : TexSource)
  (slot : nat) (h : WebGLHelper) :
  uniforms_ (after (apply_image i u source slot) h) =
    match texture u with
    | Some _ => uniforms_ h
    | None => <[i := set_texture (fresh_handle (gl_ h)) u]> (uniforms_ h)
    end.
Proof.
  unfold apply_image. pose proof (uniform_texture_eq i u h) as Htex.
  destruct (texture u) as [t|] eqn:Ht.
  - rewrite (after_bind_normal _ _ _ _ _ Htex). cbv beta.
    apply (apply_image_rest_unchanged uniforms_ u source slot (Some t)
             (fun _ _ => eq_refl) (fun _ _ => eq_refl) h).
  - rewrite (after_bind_normal _ _ _ _ _ Htex). cbv beta.
    match goal with
    | |- uniforms_ (after _ ?h1) = _ =>
        transitivity (uniforms_ h1); [|reflexivity];
        apply (apply_image_rest_unchanged uniforms_ u source slot
                 (fresh_handle (gl_ h))
                 (fun _ _ => eq_refl) (fun _ _ => eq_refl) h1)
    end.
Qed.

(** A callback of [applyUniforms] changes [uniforms_] only by giving an
    image uniform that has no texture a new one. *)
Lemma apply_uniform_uniforms (i : nat) (u : Uniform) (slot : nat)
  (h : WebGLHelper) :
  uniforms_ (after (apply_uniform i u slot) h) =
    match texture u with
    | Some _ => uniforms_ h
    | None =>
        if is_image u
        then <[i := set_texture (fresh_handle (gl_ h)) u]> (uniforms_ h)
        else uniforms_ h
    end.
Proof.
  pose proof (fun n => getUniformLocation_unchanged uniforms_ n
                         (fun _ _ => eq_refl) (fun _ _ => eq_refl)) as Hget.
  unfold apply_uniform, is_image.
  destruct (current_value (value u)) as [c|w ht data|arr|x|] eqn:V.
  - rewrite apply_image_uniforms. by destruct (texture u).
  - rewrite apply_image_uniforms. by destruct (texture u).
  - transitivity (uniforms_ h); [|by destruct (texture u)].
    generalize h.
    match goal with
    | |- forall h2, uniforms_ (after ?m h2) = uniforms_ h2 =>
        change (within (unchanged uniforms_) m)
    end.
    within_tac.
  - transitivity (uniforms_ h); [|by destruct (texture u)].
    generalize h.
    match goal with
    | |- forall h2, uniforms_ (after ?m h2) = uniforms_ h2 =>
        change (within (unchanged uniforms_) m)
    end.
    within_tac.
  - by destruct (texture u).
Qed.

(** A callback of [applyUniforms] leaves every uniform that has a texture
    as it is. *)
Lemma apply_uniform_keeps (i : nat) (ui : Uniform) (slot : nat) (h : WebGLHelper)
  (j : nat) (u : Uniform) :
  uniforms_ h !! i = Some ui ->
  uniforms_ h !! j = Some u ->
  is_Some (texture u) ->
  uniforms_ (after (apply_uniform i ui slot) h) !! j = Some u.
Proof.
  intros Hi Hj [t Ht]. rewrite apply_uniform_uniforms.
  destruct (texture ui) as [ti|] eqn:Hti; [done|].
  destruct (is_image ui); [|done].
  destruct (decide (i = j)) as [->|Hne].
  - rewrite Hi in Hj. injection Hj as ->. congruence.
  - by rewrite list_lookup_insert_ne.
Qed.

(** [applyUniforms] leaves every uniform that has a texture as it is. *)
Lemma applyUniforms_from_keeps (n i slot : nat) (h : WebGLHelper) (j : nat)
  (u : Uniform) :
  uniforms_ h !! j = Some u ->
  is_Some (texture u) ->
  uniforms_ (after (applyUniforms_from n i slot) h) !! j = Some u.
Proof.
  revert i slot h. induction n as [|n IH]; intros i slot h Hj Ht; [done|].
  unfold after. simpl. erewrite after_bind by reflexivity.
  destruct (uniforms_ h !! i) as [ui|] eqn:Hi; [|done].
  pose proof (apply_uniform_keeps i ui slot h j u Hi Hj Ht) as Hstep.
  unfold after in Hstep.
  destruct (apply_uniform i ui slot h) as [[slot'|e] h1] eqn:Estep.
  - erewrite after_bind by exact Estep. by apply IH.
  - erewrite after_bind_throw by exact Estep. done.
Qed.

Lemma emits_then (c : Call) (h h1 h2 : WebGLHelper) :
  emits c h h1 -> logs (fun _ => true) h1 h2 -> emits c h h2.
Proof.
  intros (new1 & E1 & Hin) (new2 & E2 & _). exists (new1 ++ new2).
  rewrite E2, E1, app_assoc. split; [done|]. apply in_or_app. by left.
Qed.

Lemma emits_after (c : Call) (h h1 h2 : WebGLHelper) :
  logs (fun _ => true) h h1 -> emits c h1 h2 -> emits c h h2.
Proof.
  intros (new1 & E1 & _) (new2 & E2 & Hin). exists (new1 ++ new2).
  rewrite E2, E1, app_assoc. split; [done|]. apply in_or_app. by right.
Qed.

Lemma emits_new_calls {A : Type} (c : Call) (m : Method A) (h : WebGLHelper) :
  emits c h (after m h) -> In c (new_calls m h).
Proof. intros (new & E & Hin). by rewrite (new_calls_app m h new E). Qed.

Lemma logs_weaken (P : Call -> bool) (h h' : WebGLHelper) :
  logs P h h' -> logs (fun _ => true) h h'.
Proof.
  intros (new & E & _). exists new. split; [done|].
  clear E. induction new as [|c new IH]; simpl; auto.
Qed.

Lemma no_createTexture_uniform_location (n : string) :
  within (logs (fun c => negb (is_createTexture c))) (getUniformLocation n).
Proof. apply getUniformLocation_logs. done. Qed.

(** A callback creates no texture for a uniform that has one, or whose value
    is not an image. *)
Lemma apply_uniform_no_create (i : nat) (u : Uniform) (slot : nat) :
  (is_image u = true -> is_Some (texture u)) ->
  within (logs (fun c => negb (is_createTexture c))) (apply_uniform i u slot).
Proof.
  intros Hu. pose proof no_createTexture_uniform_location as Hget.
  unfold apply_uniform, apply_image, uniform_texture. unfold is_image in Hu.
  destruct (current_value (value u)); destruct (texture u);
    try (destruct (Hu eq_refl) as [? [=]]); within_tac.
Qed.

(** When every image uniform has its texture, [applyUniforms] creates no
    texture. *)
Lemma applyUniforms_from_no_create (n i slot : nat) (h : WebGLHelper) :
  images_textured h ->
  logs (fun c => negb (is_createTexture c)) h
    (after (applyUniforms_from n i slot) h).
Proof.
  revert i slot h. induction n as [|n IH]; intros i slot h Himg.
  { reflexivity. }
  unfold after. simpl. erewrite after_bind by reflexivity.
  destruct (uniforms_ h !! i) as [ui|] eqn:Hi; [|reflexivity].
  pose proof (apply_uniform_no_create i ui slot (Himg i ui Hi) h) as Hstep.
  pose proof (apply_uniform_uniforms i ui slot h) as Hsame.
  assert (images_textured (after (apply_uniform i ui slot) h)) as Himg1.
  { unfold images_textured. rewrite Hsame.
    destruct (texture ui) eqn:Ht; [done|].
    destruct (is_image ui) eqn:Hv; [|done].
    destruct (Himg i ui Hi Hv) as [? ?]. congruence. }
  unfold after in *.
  destruct (apply_uniform i ui slot h) as [[slot'|e] h1] eqn:Estep.
  - erewrite after_bind by exact Estep. etrans; [exact Hstep|]. by apply IH.
  - erewrite after_bind_throw by exact Estep. exact Hstep.
Qed.

Lemma filter_createTexture_nil (new : list Call) :
  forallb (fun c => negb (is_createTexture c)) new = true ->
  List.filter is_createTexture new = [].
Proof.
  induction new as [|c new IH]; simpl; [done|].
  intros [Hc Hnew]%andb_true_iff. rewrite IH by done.
  by destruct (is_createTexture c).
Qed.

Section ReturnsIf.
Context (I : WebGLHelper -> Prop).

Lemma returns_if_ret {A : Type} (a : A) : returns_if I (mret a).
Proof. intros h Hh. by exists a. Qed.

Lemma returns_if_this : returns_if I this.
Proof. intros h Hh. by exists h. Qed.

Lemma returns_if_assign (f : WebGLHelper -> WebGLHelper) :
  (forall h, I h -> I (f h)) -> returns_if I (assign f).
Proof. intros Hf h Hh. exists tt. split; [done|]. by apply Hf. Qed.

Lemma returns_if_call (c : Call) :
  (forall h, I h -> I (set_gl_ (log c (gl_ h)) h)) -> returns_if I (call c).
Proof. intros Hf h Hh. exists tt. split; [done|]. by apply Hf. Qed.

Lemma returns_if_bind {A B : Type} (m : Method A) (k : A -> Method B) :
  returns_if I m -> (forall a, returns_if I (k a)) -> returns_if I (m ≫= k).
Proof.
  intros Hm Hk h Hh. destruct (Hm h Hh) as (a & Ha & Hh1).
  unfold completion, after in *. unfold mbind, Method_bind.
  destruct (m h) as [[a'|e] h1]; simpl in *; [|discriminate].
  by apply Hk.
Qed.

Lemma returns_if_context_create (c : handle -> Call) :
  (forall x h, I h -> I (set_gl_ (log (c x) (gl_ h)) h)) ->
  (forall h, I h -> I (set_gl_ (take_name (gl_ h)) h)) ->
  returns_if I (context_create c).
Proof.
  intros Hc Hn. unfold context_create.
  apply returns_if_bind; [apply returns_if_this|]. intros h0.
  destruct (lost (gl_ h0)).
  - apply returns_if_bind; [apply returns_if_call; apply Hc|]. intros _.
    apply returns_if_ret.
  - apply returns_if_bind; [apply returns_if_assign; exact Hn|]. intros _.
    apply returns_if_bind; [apply returns_if_call; apply Hc|]. intros _.
    apply returns_if_ret.
Qed.
End ReturnsIf.

(** One step through the structure of a method that returns under [I]. *)
Ltac returns_if_step :=
  lazymatch goal with
  | |- returns_if ?I (mret _) => apply (returns_if_ret I)
  | |- returns_if ?I this => apply (returns_if_this I)
  | |- returns_if ?I (assign _) =>
      apply (returns_if_assign I); intros; simpl; solve [auto]
  | |- returns_if ?I (call _) =>
      apply (returns_if_call I); intros; simpl; solve [auto]
  | |- returns_if ?I (context_create _) =>
      apply (returns_if_context_create I); intros; simpl; solve [auto]
  | |- returns_if ?I (mbind _ _) => apply (returns_if_bind I); [ | intros ? ]
  | |- returns_if _ (match ?x with _ => _ end) => destruct x
  | |- returns_if _ (let _ := _ in _) => cbv zeta
  | |- returns_if _ _ => solve [ eauto with within ]
  end.

Ltac returns_if_tac := repeat returns_if_step.

(** With the uniform locations defined, a uniform location resolves. *)
Lemma getUniformLocation_defined (n : string) :
  returns_if (fun h => is_Some (uniformLocations_ h)) (getUniformLocation n).
Proof.
  intros h [locs Hlocs]. unfold completion, after.
  unfold getUniformLocation, context_getUniformLocation. run. rewrite Hlocs.
  destruct (locs !! n) as [[loc|]|]; simpl; eauto.
Qed.

Lemma apply_uniform_defined (i : nat) (u : Uniform) (slot : nat) :
  returns_if (fun h => is_Some (uniformLocations_ h)) (apply_uniform i u slot).
Proof.
  pose proof getUniformLocation_defined as Hget.
  unfold apply_uniform, apply_image, uniform_texture. returns_if_tac.
Qed.

(** The callback on an image uniform that has a texture binds that
    texture. *)
Lemma apply_uniform_binds (i : nat) (u : Uniform) (slot : nat) (t : WebGLObject)
  (h : WebGLHelper) :
  is_image u = true ->
  texture u = Some t ->
  emits (gl_bindTexture TEXTURE_2D (Some t)) h (after (apply_uniform i u slot) h).
Proof.
  intros Hv Ht.
  assert (forall source,
    emits (gl_bindTexture TEXTURE_2D (Some t)) h
      (after (apply_image i u source slot) h)) as Himage.
  { intros source. unfold apply_image.
    pose proof (uniform_texture_eq i u h) as Htex. rewrite Ht in Htex.
    rewrite (after_bind_normal _ _ _ _ _ Htex). cbv beta.
    do 2 (rewrite after_call_bind).
    match goal with
    | |- emits _ _ (after ?m ?h2) =>
        apply (emits_then _ h h2 (after m h2));
        [ exists [gl_activeTexture slot; gl_bindTexture TEXTURE_2D (Some t)];
          split; [simpl; by rewrite <- app_assoc | simpl; auto]
        | generalize h2;
          match goal with
          | |- forall h3, logs ?P h3 (after ?m3 h3) => change (within (logs P) m3)
          end;
          pose proof (fun n => getUniformLocation_logs (fun _ => true) n
                                 (fun _ _ => eq_refl)) as Hget;
          within_tac ]
    end. }
  unfold apply_uniform. unfold is_image in Hv.
  destruct (current_value (value u)); try discriminate Hv; apply Himage.
Qed.

(** With the uniform locations defined, [applyUniforms] reaches every
    uniform, and binds the texture of an image uniform that has one. *)
Lemma applyUniforms_from_binds (n i slot : nat) (h : WebGLHelper) (j : nat)
  (u : Uniform) (t : WebGLObject) :
  uniforms_ h !! j = Some u ->
  is_image u = true ->
  texture u = Some t ->
  is_Some (uniformLocations_ h) ->
  (i <= j < i + n)%nat ->
  emits (gl_bindTexture TEXTURE_2D (Some t)) h
    (after (applyUniforms_from n i slot) h).
Proof.
  revert i slot h. induction n as [|n IH]; intros i slot h Hj Hv Ht Hdef Hij.
  { lia. }
  unfold after. simpl. erewrite after_bind by reflexivity.
  destruct (uniforms_ h !! i) as [ui|] eqn:Hi.
  2:{ apply lookup_ge_None in Hi. apply lookup_lt_Some in Hj. lia. }
  destruct (apply_uniform_defined i ui slot h Hdef) as (slot' & Hc & Hdef1).
  pose proof (apply_uniform_logs i ui slot h) as Hlog.
  pose proof (apply_uniform_keeps i ui slot h j u Hi Hj
                (ex_intro _ t Ht)) as Hkeep.
  unfold completion, after in *.
  destruct (apply_uniform i ui slot h) as [c h1] eqn:Estep. simpl in *.
  subst c. erewrite after_bind by exact Estep.
  destruct (decide (i = j)) as [->|Hne].
  - rewrite Hi in Hj. injection Hj as ->.
    apply (emits_then _ h h1).
    + pose proof (apply_uniform_binds j u slot t h Hv Ht) as Hb.
      unfold after in Hb. by rewrite Estep in Hb.
    + apply (logs_weaken is_uniform_call). apply applyUniforms_from_logs.
  - apply (emits_after _ h h1).
    + by apply (logs_weaken is_uniform_call).
    + apply IH; try done. lia.
Qed.

(** C9. The loss handler changes the three caches and the program in use
    and nothing else; the restore handler changes nothing. In particular the
    custom uniforms keep their textures: the next [applyUniforms] leaves a
    uniform that had a texture before the loss with that texture, binds that
    texture when the uniform is an image and the uniform locations are
    defined, and creates no texture when every image uniform had its
    texture. *)
Theorem context_loss_keeps_uniform_textures (h : WebGLHelper) :
  let h1 := after handleWebGLContextLost h in
  let h2 := after handleWebGLContextRestored h1 in
  h1 = set_currentProgram_ None
         (set_programCache_ ∅ (set_shaderCache_ ∅ (set_bufferCache_ ∅ h))) /\
  h2 = h1 /\
  (canvas_ h1 = canvas_ h /\ gl_ h1 = gl_ h /\
   hasOESElementIndexUint h1 = hasOESElementIndexUint h /\
   projectionMatrix_ h1 = projectionMatrix_ h /\
   offsetRotateMatrix_ h1 = offsetRotateMatrix_ h /\
   offsetScaleMatrix_ h1 = offsetScaleMatrix_ h /\
   tmpMat4_ h1 = tmpMat4_ h /\
   uniformLocations_ h1 = uniformLocations_ h /\
   attribLocations_ h1 = attribLocations_ h /\
   uniforms_ h1 = uniforms_ h /\
   postProcessPasses h1 = postProcessPasses h) /\
  (forall j u t,
     uniforms_ h !! j = Some u ->
     texture u = Some t ->
     uniforms_ h2 !! j = Some u /\
     uniforms_ (after applyUniforms h2) !! j = Some u /\
     (is_image u = true -> is_Some (uniformLocations_ h) ->
      In (gl_bindTexture TEXTURE_2D (Some t)) (new_calls applyUniforms h2))) /\
  (images_textured h ->
   List.filter is_createTexture (new_calls applyUniforms h2) = []).
Proof.
  intros h1 h2. split_and!; try reflexivity.
  - intros j u t Hj Ht.
    assert (uniforms_ h2 !! j = Some u) as Hj2 by exact Hj.
    split_and!; [done| |].
    + unfold after, applyUniforms. erewrite after_bind by reflexivity.
      by apply applyUniforms_from_keeps.
    + intros Hv Hdef. apply emits_new_calls.
      unfold after, applyUniforms. erewrite after_bind by reflexivity.
      apply (applyUniforms_from_binds _ _ _ h2 j u t); try done.
      apply lookup_lt_Some in Hj2. lia.
  - intros Himg.
    assert (images_textured h2) as Himg2 by exact Himg.
    pose proof (applyUniforms_from_no_create
                  (length (uniforms_ h2)) 0 0 h2 Himg2) as (new & E & Hnew).
    erewrite new_calls_app.
    2:{ unfold after, applyUniforms. erewrite after_bind by reflexivity.
        exact E. }
    by apply filter_createTexture_nil.
Qed.

(** A helper with an image uniform, after a first frame: the uniform has
    the texture 1; after a loss and a restore, [applyUniforms] binds that
    texture again and creates none. *)
Lemma textures_survive_context_loss_example :
  uniforms_ example_textured_helper =
    [ {| name := "u_image"; value := Constant (CanvasValue 0);
         texture := Some 1%nat |} ] /\
  new_calls applyUniforms
    (after (dispatch RESTORED) (after (dispatch LOST) example_textured_helper)) =
    [gl_activeTexture 0; gl_bindTexture TEXTURE_2D (Some 1%nat);
     gl_texParameteri TEXTURE_2D TEXTURE_MIN_FILTER LINEAR;
     gl_texParameteri TEXTURE_2D TEXTURE_WRAP_S CLAMP_TO_EDGE;
     gl_texParameteri TEXTURE_2D TEXTURE_WRAP_T CLAMP_TO_EDGE;
     gl_texImage2D TEXTURE_2D (TexCanvas 0);
     gl_getUniformLocation None "u_image" None;
     gl_uniform1i None 0].
Proof. split; vm_compute; reflexivity. Qed.

(** ** Every cached handle was created by the context *)

Lemma allocated_mono (gl gl' : WebGLRenderingContext) (x : handle) :
  (next_name gl <= next_name gl')%nat -> allocated gl x -> allocated gl' x.
Proof. destruct x; simpl; [lia|done]. Qed.

Lemma fresh_handle_allocated (gl gl' : WebGLRenderingContext) :
  ((if lost gl then next_name gl else S (next_name gl)) <= next_name gl')%nat ->
  allocated gl' (fresh_handle gl).
Proof. unfold fresh_handle. destruct (lost gl); simpl; [done|lia]. Qed.

(** The invariant from its parts: the names only grow and every cache
    holds what it held, or handles the context created. *)
Lemma handles_allocated_step (h h' : WebGLHelper) :
  (next_name (gl_ h) <= next_name (gl_ h'))%nat ->
  (forall key entry, bufferCache_ h' !! key = Some entry ->
     bufferCache_ h !! key = Some entry \/ allocated (gl_ h') (buffer entry)) ->
  (forall key (x : handle), shaderCache_ h' !! key = Some x ->
     shaderCache_ h !! key = Some x \/ allocated (gl_ h') x) ->
  (forall key (x : handle), programCache_ h' !! key = Some x ->
     programCache_ h !! key = Some x \/ allocated (gl_ h') x) ->
  handles_allocated h -> handles_allocated h'.
Proof.
  intros Hn Hb Hs Hp (Ib & Is & Ip). split_and!; intros key x Hx.
  - destruct (Hb key x Hx) as [Hold|Hnew]; [|done].
    eapply allocated_mono; [exact Hn|]. exact (Ib key x Hold).
  - destruct (Hs key x Hx) as [Hold|Hnew]; [|done].
    eapply allocated_mono; [exact Hn|]. exact (Is key x Hold).
  - destruct (Hp key x Hx) as [Hold|Hnew]; [|done].
    eapply allocated_mono; [exact Hn|]. exact (Ip key x Hold).
Qed.

Lemma bindBuffer_allocated (target : Z) (b : WebGLBuffer) (h : WebGLHelper) :
  handles_allocated h -> handles_allocated (after (bindBuffer target b) h).
Proof.
  unfold after.
  destruct (bufferCache_ h !! buffer_uid b) as [entry|] eqn:E.
  - rewrite (bindBuffer_cached h target b entry E).
    apply handles_allocated_step; simpl; auto.
  - rewrite (bindBuffer_missing h target b E).
    apply handles_allocated_step; simpl.
    + destruct (lost (gl_ h)); simpl; lia.
    + intros key entry.
      destruct (decide (buffer_uid b = key)) as [->|Hne].
      * rewrite lookup_insert_eq. intros [= <-]. right. simpl.
        apply fresh_handle_allocated. destruct (lost (gl_ h)); simpl; lia.
      * rewrite lookup_insert_ne by done. auto.
    + auto.
    + auto.
Qed.

Lemma deleteBuffer_allocated (b : WebGLBuffer) (h : WebGLHelper) :
  handles_allocated h -> handles_allocated (after (deleteBuffer b) h).
Proof.
  unfold after.
  assert (forall key entry,
            delete (buffer_uid b) (bufferCache_ h) !! key = Some entry ->
            bufferCache_ h !! key = Some entry) as Hdel.
  { intros key entry Hk. by apply lookup_delete_Some in Hk as [_ ?]. }
  destruct (bufferCache_ h !! buffer_uid b) as [entry|] eqn:E.
  - rewrite (deleteBuffer_cached h b entry E).
    apply handles_allocated_step; simpl; auto.
    destruct (lost (gl_ h)); simpl; lia.
  - rewrite (deleteBuffer_missing h b E).
    destruct (lost (gl_ h)); apply handles_allocated_step; simpl; auto.
Qed.

Lemma getShader_allocated (s : WebGLShaderSource) (h : WebGLHelper) :
  handles_allocated h -> handles_allocated (after (getShader s) h).
Proof.
  destruct (shaderCache_ h !! shader_uid s) as [shader|] eqn:E.
  - unfold after. by rewrite (getShader_cached h s shader E).
  - destruct (getShader_missing h s E) as (_ & Hcache & Hnext & _).
    pose proof (getShader_unchanged bufferCache_ s (fun _ _ => eq_refl)
                  (fun _ _ => eq_refl) h) as Hb.
    pose proof (getShader_unchanged programCache_ s (fun _ _ => eq_refl)
                  (fun _ _ => eq_refl) h) as Hp.
    unfold unchanged in Hb, Hp.
    apply handles_allocated_step.
    + rewrite Hnext. destruct (lost (gl_ h)); lia.
    + rewrite Hb. auto.
    + rewrite Hcache. intros key x.
      destruct (decide (shader_uid s = key)) as [->|Hne].
      * rewrite lookup_insert_eq. intros [= <-]. right.
        apply fresh_handle_allocated. rewrite Hnext. done.
      * rewrite lookup_insert_ne by done. auto.
    + rewrite Hp. auto.
Qed.

Lemma useProgram_allocated (P : handle) (h : WebGLHelper) :
  handles_allocated h -> handles_allocated (after (useProgram P) h).
Proof.
  unfold after. destruct (decide (P = currentProgram_ h)) as [E|Hne].
  - by rewrite (useProgram_same h P E).
  - rewrite (useProgram_changed h P Hne).
    apply handles_allocated_step; simpl; auto.
Qed.

Lemma getProgram_allocated (f v : WebGLShaderSource) (h : WebGLHelper) :
  handles_allocated h -> handles_allocated (after (getProgram f v) h).
Proof.
  intros Hh.
  destruct (programCache_ h !! (shader_uid f ++ "/" ++ shader_uid v)%string)
    as [program|] eqn:E.
  { unfold after. by rewrite (getProgram_cached h f v program E). }
  destruct (getProgram_missing_run h f v E)
    as (fragment & vertex & _ & _ & Hrun).
  cbv zeta in Hrun. unfold after. rewrite Hrun. clear Hrun. simpl.
  set (h1 := set_gl_ (log (gl_createProgram (fresh_handle (gl_ h)))
                        (if lost (gl_ h) then gl_ h else take_name (gl_ h))) h).
  set (h2 := after (getShader f) h1).
  set (h3 := set_gl_ (log (gl_attachShader (fresh_handle (gl_ h)) fragment)
                        (gl_ h2)) h2).
  set (h4 := after (getShader v) h3).
  assert (handles_allocated h1) as H1.
  { revert Hh. apply handles_allocated_step; simpl; auto.
    destruct (lost (gl_ h)); simpl; lia. }
  assert (handles_allocated h2) as H2 by by apply getShader_allocated.
  assert (handles_allocated h3) as H3.
  { revert H2. apply handles_allocated_step; simpl; auto. }
  assert (handles_allocated h4) as H4 by by apply getShader_allocated.
  assert ((if lost (gl_ h) then next_name (gl_ h) else S (next_name (gl_ h)))
          <= next_name (gl_ h4))%nat as Hnext.
  { destruct (getShader_grows f h1) as [_ N21]. fold h2 in N21.
    destruct (getShader_grows v h3) as [_ N43]. fold h4 in N43.
    simpl in *. destruct (lost (gl_ h)); simpl in *; lia. }
  revert H4. apply handles_allocated_step; simpl; auto.
  intros key x.
  destruct (decide ((shader_uid f ++ "/" ++ shader_uid v)%string = key))
    as [->|Hne].
  - rewrite lookup_insert_eq. intros [= <-]. right.
    by apply fresh_handle_allocated.
  - rewrite lookup_insert_ne by done. auto.
Qed.

Lemma dispatch_allocated (type : ContextEventType) (h : WebGLHelper) :
  handles_allocated h -> handles_allocated (after (dispatch type) h).
Proof.
  unfold after, dispatch, handleWebGLContextLost, handleWebGLContextRestored.
  destruct type; run; case_bool_decide; simpl;
    apply handles_allocated_step; simpl; auto;
    intros key x; rewrite ?lookup_empty; solve [discriminate | auto].
Qed.

Section ReachableAllocated.
Variables cos_approx sin_approx : number -> number.

Lemma perform_allocated (op : Op) (h : WebGLHelper) :
  handles_allocated h ->
  handles_allocated (perform cos_approx sin_approx op h).
Proof.
  intros Hh. destruct (is_quiet_op op) eqn:Hq.
  { eapply quiet_handles_allocated; [by apply perform_quiet | done]. }
  unfold perform, discard.
  destruct op; try discriminate Hq.
  - by apply bindBuffer_allocated.
  - by apply deleteBuffer_allocated.
  - destruct (returns_inv (getShader shaderObject) h
                (getShader_returns shaderObject)) as [a Ha].
    erewrite after_bind by exact Ha. by apply getShader_allocated.
  - pose proof (useProgram_allocated program h Hh) as Hu. unfold after in Hu.
    destruct (useProgram program h) as [[a|e] h1] eqn:E.
    + by erewrite after_bind by exact E.
    + by erewrite after_bind_throw by exact E.
  - pose proof (getProgram_allocated fragmentShaderObject vertexShaderObject
                  h Hh) as Hp.
    unfold after in Hp.
    destruct (getProgram fragmentShaderObject vertexShaderObject h)
      as [[a|e] h1] eqn:E.
    + by erewrite after_bind by exact E.
    + by erewrite after_bind_throw by exact E.
  - by apply dispatch_allocated.
Qed.

(** X23. In every helper reached from the constructor by a sequence of
    operations, every handle in the three caches is [null] or an object the
    helper's context created. *)
Lemma reachable_handles_allocated (WEBGL_EXTENSIONS : list string)
  (gl : WebGLRenderingContext) (opt_options : option Options) (ops : list Op) :
  handles_allocated
    (perform_all cos_approx sin_approx ops
       (constructor WEBGL_EXTENSIONS gl opt_options)).
Proof.
  assert (handles_allocated (constructor WEBGL_EXTENSIONS gl opt_options)) as H0.
  { split_and!; intros key x; simpl; rewrite lookup_empty; discriminate. }
  revert H0. generalize (constructor WEBGL_EXTENSIONS gl opt_options).
  induction ops as [|op ops IH]; intros h Hh; simpl; [done|].
  apply IH. by apply perform_allocated.
Qed.
End ReachableAllocated.

(** * More of the class *)

(** ** Caches between two context events *)

(** X1. A shader is compiled once: whatever the first [getShader] of a
    shader source did, a second one returns the same handle, makes no call
    and changes nothing. A shader whose compilation failed is cached like
    any other. *)
Theorem getShader_memoized (h : WebGLHelper) (s : WebGLShaderSource) :
  getShader s (after (getShader s) h) =
    (completion (getShader s) h, after (getShader s) h) /\
  new_calls (getShader s) (after (getShader s) h) = [].
Proof.
  assert (getShader s (after (getShader s) h) =
            (completion (getShader s) h, after (getShader s) h)) as Hrun.
  { destruct (shaderCache_ h !! shader_uid s) as [shader|] eqn:E.
    - unfold after, completion. rewrite (getShader_cached h s shader E). simpl.
      by apply getShader_cached.
    - destruct (getShader_missing h s E) as (-> & Hcache & _).
      apply getShader_cached. rewrite Hcache. apply lookup_insert_eq. }
  split; [exact Hrun|].
  apply new_calls_app. unfold after at 1. rewrite Hrun. simpl.
  by rewrite app_nil_r.
Qed.

(** The entry of a buffer after a bind: the one the cache held, or a new
    one. *)
Lemma bindBuffer_entry (h : WebGLHelper) (target : Z) (b : WebGLBuffer) :
  exists entry,
    bufferCache_ (after (bindBuffer target b) h) !! buffer_uid b = Some entry /\
    bufferCache_ (after (bindBuffer target b) h) =
      <[buffer_uid b := entry]> (bufferCache_ h) /\
    lost (gl_ (after (bindBuffer target b) h)) = lost (gl_ h) /\
    hasOESElementIndexUint (after (bindBuffer target b) h) =
      hasOESElementIndexUint h /\
    match bufferCache_ h !! buffer_uid b with
    | Some old => entry = old
    | None => entry = {| buf := b; buffer := fresh_handle (gl_ h) |}
    end.
Proof.
  unfold after.
  destruct (bufferCache_ h !! buffer_uid b) as [entry|] eqn:E.
  - exists entry. rewrite (bindBuffer_cached h target b entry E). simpl.
    split_and!; try done. symmetry. by apply insert_id.
  - exists {| buf := b; buffer := fresh_handle (gl_ h) |}.
    rewrite (bindBuffer_missing h target b E). simpl.
    split_and!; try done; [apply lookup_insert_eq|].
    destruct (lost (gl_ h)) eqn:L; simpl; done.
Qed.

(** X2. A buffer is created once: after a bind of a buffer, a further bind
    of it, to any target, creates nothing. It binds the handle the cache
    holds and uploads the array again; the cache and the names of the
    context stay as they are. *)
Theorem bindBuffer_reuses_buffer (h : WebGLHelper) (target target' : Z)
  (b : WebGLBuffer) :
  let h1 := after (bindBuffer target b) h in
  exists entry,
    bufferCache_ h1 !! buffer_uid b = Some entry /\
    bufferCache_ (after (bindBuffer target' b) h1) = bufferCache_ h1 /\
    next_name (gl_ (after (bindBuffer target' b) h1)) = next_name (gl_ h1) /\
    new_calls (bindBuffer target' b) h1 =
      [gl_bindBuffer target' (buffer entry);
       gl_bufferData target'
         (if target' =? ARRAY_BUFFER then Some (Float32Array (getArray b))
          else if target' =? ELEMENT_ARRAY_BUFFER then
            Some (if hasOESElementIndexUint h
                  then Uint32Array (getArray b)
                  else Uint16Array (getArray b))
          else None)
         (getUsage b)].
Proof.
  intros h1.
  destruct (bindBuffer_entry h target b) as (entry & E & _ & _ & Hflag & _).
  fold h1 in E, Hflag. exists entry.
  pose proof (bindBuffer_cached h1 target' b entry E) as Hrun.
  unfold after at 1 2. rewrite Hrun. simpl.
  split_and!; try done.
  apply new_calls_app. unfold after at 1. rewrite Hrun. simpl.
  rewrite Hflag. by rewrite <- app_assoc.
Qed.

(** X3. Binding a buffer and deleting it again leaves the buffer cache
    without an entry for the buffer, so as it was when the buffer had none.
    The delete returns normally, and it deletes the object the bind left in
    the cache, unless the context is lost. *)
Theorem bindBuffer_then_deleteBuffer (h : WebGLHelper) (target : Z)
  (b : WebGLBuffer) :
  let h1 := after (bindBuffer target b) h in
  completion (deleteBuffer b) h1 = Normal tt /\
  bufferCache_ (after (deleteBuffer b) h1) =
    delete (buffer_uid b) (bufferCache_ h) /\
  (bufferCache_ h !! buffer_uid b = None ->
     bufferCache_ (after (deleteBuffer b) h1) = bufferCache_ h) /\
  exists entry,
    bufferCache_ h1 !! buffer_uid b = Some entry /\
    List.filter is_delete_call (new_calls (deleteBuffer b) h1) =
      (if lost (gl_ h) then [] else [gl_deleteBuffer (buffer entry)]).
Proof.
  intros h1.
  destruct (bindBuffer_entry h target b) as (entry & E & Hcache & Hlost & _).
  fold h1 in E, Hcache, Hlost.
  pose proof (deleteBuffer_cached h1 b entry E) as Hrun.
  assert (bufferCache_ (after (deleteBuffer b) h1) =
            delete (buffer_uid b) (bufferCache_ h)) as Hdel.
  { unfold after. rewrite Hrun. simpl. rewrite Hcache.
    apply delete_insert_eq. }
  split_and!.
  - unfold completion. by rewrite Hrun.
  - exact Hdel.
  - intros Hnone. rewrite Hdel. by apply delete_id.
  - exists entry. split; [exact E|].
    assert (new_calls (deleteBuffer b) h1 =
              if lost (gl_ h) then [gl_isContextLost true]
              else [gl_isContextLost false; gl_deleteBuffer (buffer entry)])
      as ->.
    { apply new_calls_app. unfold after at 1. rewrite Hrun, Hlost.
      destruct (lost (gl_ h)); simpl; by rewrite <- ?app_assoc. }
    by destruct (lost (gl_ h)).
Qed.

(** X4. A buffer that was deleted is created anew by the next bind: the
    create call is the first call of the bind, and the handle it gives, which
    is bound and cached, is not the handle that was deleted. *)
Theorem deleteBuffer_then_bindBuffer (h : WebGLHelper) (target : Z)
  (b : WebGLBuffer) (stale : BufferCacheEntry) :
  handles_allocated h ->
  bufferCache_ h !! buffer_uid b = Some stale ->
  let h1 := after (deleteBuffer b) h in
  exists fresh,
    bufferCache_ (after (bindBuffer target b) h1) !! buffer_uid b =
      Some {| buf := b; buffer := fresh |} /\
    (exists rest, new_calls (bindBuffer target b) h1 =
       gl_createBuffer fresh :: gl_bindBuffer target fresh :: rest) /\
    (is_Some (buffer stale) -> fresh <> buffer stale).
Proof.
  intros Hinv Hstale h1.
  pose proof (deleteBuffer_cached h b stale Hstale) as Hdel.
  assert (bufferCache_ h1 !! buffer_uid b = None) as E.
  { unfold h1, after. rewrite Hdel. simpl. apply lookup_delete_eq. }
  assert (next_name (gl_ h1) = next_name (gl_ h) /\
          lost (gl_ h1) = lost (gl_ h)) as [Hnext Hlost].
  { unfold h1, after. rewrite Hdel. simpl.
    destruct (lost (gl_ h)) eqn:L; simpl; done. }
  exists (fresh_handle (gl_ h1)).
  pose proof (bindBuffer_missing h1 target b E) as Hrun.
  split_and!.
  - unfold after at 1. rewrite Hrun. simpl. apply lookup_insert_eq.
  - eexists. apply new_calls_app. unfold after at 1. rewrite Hrun. simpl.
    destruct (lost (gl_ h1)); simpl; rewrite <- !app_assoc; reflexivity.
  - intros Hsome. destruct Hinv as (Hb & _).
    pose proof (Hb _ _ Hstale) as Ha. simpl in Ha.
    unfold fresh_handle. rewrite Hnext, Hlost.
    by apply (fresh_handle_not_allocated (gl_ h)).
Qed.

Lemma deleteBuffer_then_bindBuffer_witness :
  exists fresh,
    bufferCache_
      (after (bindBuffer ARRAY_BUFFER example_buffer)
         (after (deleteBuffer example_buffer) example_cached_helper))
      !! buffer_uid example_buffer =
      Some {| buf := example_buffer; buffer := fresh |} /\
    (exists rest,
       new_calls (bindBuffer ARRAY_BUFFER example_buffer)
         (after (deleteBuffer example_buffer) example_cached_helper) =
       gl_createBuffer fresh :: gl_bindBuffer ARRAY_BUFFER fresh :: rest) /\
    (is_Some (Some 1%nat : handle) -> fresh <> Some 1%nat).
Proof.
  apply (deleteBuffer_then_bindBuffer example_cached_helper ARRAY_BUFFER
           example_buffer {| buf := example_buffer; buffer := Some 1%nat |}).
  - apply (bool_decide_unpack _). vm_compute. exact I.
  - reflexivity.
Defined.

(** ** Locations within one program *)

(** X5. A uniform location that resolved to an object is looked up once:
    the next resolution of the name returns the same location, makes no call
    on the context and changes nothing. *)
Theorem getUniformLocation_memoized (h : WebGLHelper) (n : string)
  (loc : WebGLObject) :
  completion (getUniformLocation n) h = Normal (Some loc) ->
  getUniformLocation n (after (getUniformLocation n) h) =
    (Normal (Some loc), after (getUniformLocation n) h).
Proof.
  unfold completion, after.
  unfold getUniformLocation at 1 3 4, context_getUniformLocation. run.
  destruct (uniformLocations_ h) as [locs|] eqn:Hlocs; simpl; [|discriminate].
  destruct (locs !! n) as [[l|]|] eqn:Hn; simpl.
  - intros [= ->]. unfold getUniformLocation. run. by rewrite Hlocs, Hn.
  - intros [= E]. unfold getUniformLocation. run.
    by rewrite lookup_insert_eq, E.
  - intros [= E]. unfold getUniformLocation. run.
    by rewrite lookup_insert_eq, E.
Qed.

Lemma getUniformLocation_memoized_witness :
  getUniformLocation "u_opacity"
    (after (getUniformLocation "u_opacity") example_bound_helper) =
  (Normal (Some 7%nat),
   after (getUniformLocation "u_opacity") example_bound_helper).
Proof.
  apply (getUniformLocation_memoized example_bound_helper "u_opacity" 7%nat).
  vm_compute. reflexivity.
Defined.

(** X6. An attribute location other than 0 is looked up once, the location
    -1 of an attribute the program does not have included: the next
    resolution of the name returns the same number, makes no call on the
    context and changes nothing. *)
Theorem getAttributeLocation_memoized (h : WebGLHelper) (n : string) (loc : Z) :
  completion (getAttributeLocation n) h = Normal loc ->
  loc <> 0 ->
  getAttributeLocation n (after (getAttributeLocation n) h) =
    (Normal loc, after (getAttributeLocation n) h).
Proof.
  unfold completion, after.
  unfold getAttributeLocation at 1 3 4, context_getAttribLocation. run.
  destruct (attribLocations_ h) as [locs|] eqn:Hlocs; simpl; [|discriminate].
  assert (forall l : Z, l <> 0 -> negb (l =? 0) = true) as Hnz.
  { intros l Hl. apply negb_true_iff. by apply Z.eqb_neq. }
  destruct (locs !! n) as [l|] eqn:Hn; simpl;
    [destruct (l =? 0) eqn:Hl; simpl|].
  - intros [= E] Hloc. unfold getAttributeLocation. run.
    by rewrite lookup_insert_eq, E, (Hnz loc Hloc).
  - intros [= ->] Hloc. unfold getAttributeLocation. run.
    by rewrite Hlocs, Hn, Hl.
  - intros [= E] Hloc. unfold getAttributeLocation. run.
    by rewrite lookup_insert_eq, E, (Hnz loc Hloc).
Qed.

Lemma getAttributeLocation_memoized_witness :
  getAttributeLocation "a_missing"
    (after (getAttributeLocation "a_missing") example_bound_helper) =
  (Normal (-1),
   after (getAttributeLocation "a_missing") example_bound_helper).
Proof.
  apply (getAttributeLocation_memoized example_bound_helper "a_missing" (-1)).
  - vm_compute. reflexivity.
  - lia.
Defined.



(** ** The passes of a new helper *)

(** X8. Without a [postProcesses] option the constructor makes one pass,
    with no options, and [finalizeDraw] applies it, with no target. With the
    option it makes one pass for each element, in order, and none besides:
    with an empty array the helper has no pass, and [finalizeDraw] returns
    without a call. *)
Theorem constructor_passes (WEBGL_EXTENSIONS : list string)
  (gl : WebGLRenderingContext) (us : option (list (string * UniformValue))) :
  let default_pass := {| pass_index := 0; pass_options := None |} in
  postProcessPasses (constructor WEBGL_EXTENSIONS gl None) = [default_pass] /\
  postProcessPasses
    (constructor WEBGL_EXTENSIONS gl
       (Some {| opt_uniforms := us; opt_postProcesses := None |})) =
    [default_pass] /\
  new_calls finalizeDraw (constructor WEBGL_EXTENSIONS gl None) =
    [pass_apply default_pass None] /\
  (forall ps,
     let h := constructor WEBGL_EXTENSIONS gl
                (Some {| opt_uniforms := us;
                         opt_postProcesses := Some ps |}) in
     length (postProcessPasses h) = length ps /\
     (forall i o, ps !! i = Some o ->
        postProcessPasses h !! i =
          Some {| pass_index := i; pass_options := Some o |}) /\
     (ps = [] -> postProcessPasses h = [] /\ new_calls finalizeDraw h = [])).
Proof.
  intros default_pass.
  assert (forall h, new_calls finalizeDraw h = apply_chain (postProcessPasses h))
    as Hnew.
  { intros h. apply new_calls_app. unfold after. by rewrite finalizeDraw_eq. }
  split_and!; try reflexivity.
  - by rewrite Hnew.
  - intros ps h. split_and!.
    + unfold h. simpl. by rewrite length_imap.
    + intros i o Hi. unfold h. simpl. rewrite list_lookup_imap, Hi. done.
    + intros ->. split; [done|]. by rewrite Hnew.
Qed.

(** ** A buffer bound while the context is lost *)

(** X9. A lost context creates no buffer: a buffer that is bound for the
    first time while the context is lost gets a cache entry that holds
    [null]. Restoring the context does not touch the entry, so the next bind
    of the buffer binds [null] again and creates nothing. *)
Theorem buffer_bound_while_lost_stays_null (h : WebGLHelper)
  (target target' : Z) (b : WebGLBuffer) :
  lost (gl_ h) = true ->
  bufferCache_ h !! buffer_uid b = None ->
  let h1 := after (bindBuffer target b) h in
  let h2 := after (dispatch RESTORED) h1 in
  lost (gl_ h2) = false /\
  bufferCache_ h2 !! buffer_uid b = Some {| buf := b; buffer := None |} /\
  new_calls (bindBuffer target' b) h2 =
    [gl_bindBuffer target' None;
     gl_bufferData target'
       (if target' =? ARRAY_BUFFER then Some (Float32Array (getArray b))
        else if target' =? ELEMENT_ARRAY_BUFFER then
          Some (if hasOESElementIndexUint h
                then Uint32Array (getArray b)
                else Uint16Array (getArray b))
        else None)
       (getUsage b)].
Proof.
  intros Hlost Hnone h1 h2.
  destruct (bindBuffer_entry h target b) as (entry & E & _ & _ & Hflag & He).
  rewrite Hnone in He. unfold fresh_handle in He. rewrite Hlost in He.
  subst entry. fold h1 in E, Hflag.
  assert (lost (gl_ h2) = false /\ bufferCache_ h2 = bufferCache_ h1 /\
          hasOESElementIndexUint h2 = hasOESElementIndexUint h1)
    as (Hl2 & Hc2 & Hf2).
  { unfold h2, after, dispatch, handleWebGLContextRestored. run.
    by case_bool_decide. }
  rewrite <- Hc2 in E.
  split_and!; [exact Hl2 | exact E |].
  apply new_calls_app. unfold after.
  rewrite (bindBuffer_cached h2 target' b _ E). simpl.
  rewrite Hf2, Hflag. by rewrite <- app_assoc.
Qed.

Lemma buffer_bound_while_lost_stays_null_witness :
  new_calls (bindBuffer ARRAY_BUFFER example_buffer)
    (after (dispatch RESTORED)
       (after (bindBuffer ARRAY_BUFFER example_buffer) example_lost_helper)) =
  [gl_bindBuffer ARRAY_BUFFER None;
   gl_bufferData ARRAY_BUFFER (Some (Float32Array (getArray example_buffer)))
     (getUsage example_buffer)].
Proof.
  refine (proj2 (proj2 (buffer_bound_while_lost_stays_null example_lost_helper
                          ARRAY_BUFFER ARRAY_BUFFER example_buffer _ _))).
  - reflexivity.
  - reflexivity.
Defined.

(** ** Completion and final helper, step by step *)

Lemma outcome_bind {A B : Type} (P : WebGLHelper -> Prop) (m : Method A)
  (k : A -> Method B) (Qm : Completion A -> WebGLHelper -> Prop)
  (Q : Completion B -> WebGLHelper -> Prop) :
  outcome P m Qm ->
  (forall a, outcome (Qm (Normal a)) (k a) Q) ->
  (forall e h, Qm (Throw e) h -> Q (Throw e) h) ->
  outcome P (m ≫= k) Q.
Proof.
  intros Hm Hk He h Hh. specialize (Hm h Hh). unfold completion, after in *.
  unfold mbind, Method_bind. destruct (m h) as [[a|e] h1]; simpl in *.
  - exact (Hk a h1 Hm).
  - by apply He.
Qed.

Lemma outcome_assign_bind {B : Type} (P P' : WebGLHelper -> Prop)
  (f : WebGLHelper -> WebGLHelper) (k : unit -> Method B)
  (Q : Completion B -> WebGLHelper -> Prop) :
  (forall h, P h -> P' (f h)) -> outcome P' (k tt) Q ->
  outcome P (assign f ≫= k) Q.
Proof. intros Hf Hk h Hh. exact (Hk (f h) (Hf h Hh)). Qed.

Lemma outcome_ret_bind {A B : Type} (P : WebGLHelper -> Prop) (a : A)
  (k : A -> Method B) (Q : Completion B -> WebGLHelper -> Prop) :
  outcome P (k a) Q -> outcome P (mret a ≫= k) Q.
Proof. intros Hk h Hh. exact (Hk h Hh). Qed.

Lemma outcome_this_bind {B : Type} (P : WebGLHelper -> Prop)
  (k : WebGLHelper -> Method B) (Q : Completion B -> WebGLHelper -> Prop) :
  (forall h0, P h0 -> outcome P (k h0) Q) -> outcome P (this ≫= k) Q.
Proof. intros Hk h Hh. exact (Hk h Hh h Hh). Qed.

Lemma outcome_then {A B : Type} (P P' : WebGLHelper -> Prop) (m : Method A)
  (a0 : A) (k : A -> Method B) (Q : Completion B -> WebGLHelper -> Prop) :
  outcome P m (fun c h => c = Normal a0 /\ P' h) ->
  outcome P' (k a0) Q ->
  outcome P (m ≫= k) Q.
Proof.
  intros Hm Hk. eapply outcome_bind; [exact Hm | |].
  - intros a h [[= ->] Hh]. by apply Hk.
  - intros e h [[=] _].
Qed.

Lemma outcome_fails {A B : Type} (P P' : WebGLHelper -> Prop) (m : Method A)
  (e : JSError) (k : A -> Method B) (Q : Completion B -> WebGLHelper -> Prop) :
  outcome P m (fun c h => c = Throw e /\ P' h) ->
  (forall h, P' h -> Q (Throw e) h) ->
  outcome P (m ≫= k) Q.
Proof.
  intros Hm HQ. eapply outcome_bind; [exact Hm | |].
  - intros a h [[=] _].
  - intros e' h [[= ->] Hh]. by apply HQ.
Qed.

Lemma outcome_post {A : Type} (P : WebGLHelper -> Prop) (m : Method A)
  (Q Q' : Completion A -> WebGLHelper -> Prop) :
  outcome P m Q' -> (forall c h, Q' c h -> Q c h) -> outcome P m Q.
Proof. intros Hm HQ h Hh. apply HQ. by apply Hm. Qed.

(** ** The uniforms of a frame state *)

Lemma setUniformMatrixValue_defined (cs : list Call) (vals : list (list number))
  (T : list number) (M : Transform.t * Transform.t * Transform.t)
  (n : string) (v : list number) :
  outcome (frame_state is_Some cs (fun new => omap matrix_upload new = vals) T M)
    (setUniformMatrixValue n v)
    (fun c h => c = Normal tt /\
       frame_state is_Some cs
         (fun new => omap matrix_upload new = vals ++ [v]) T M h).
Proof.
  intros h ([locs Hlocs] & Hm & Ht & new & Hc & Hv).
  unfold completion, after, setUniformMatrixValue, getUniformLocation,
    context_getUniformLocation, frame_state, matrices in *.
  run. rewrite Hlocs.
  destruct (locs !! n) as [[l|]|]; simpl; (split; [done|]);
    (split_and!; [by eexists | done | done |]);
    eexists; (split; [rewrite Hc, <- !app_assoc; reflexivity|]);
    rewrite ?omap_app, Hv; reflexivity.
Qed.

Lemma setUniformMatrixValue_undefined (cs : list Call) (C : list Call -> Prop)
  (T : list number) (M : Transform.t * Transform.t * Transform.t)
  (n : string) (v : list number) :
  outcome (frame_state (fun locs => locs = None) cs C T M)
    (setUniformMatrixValue n v)
    (fun c h => c = Throw (undefined_read n) /\
       frame_state (fun locs => locs = None) cs C T M h).
Proof.
  intros h (Hlocs & Hrest).
  unfold completion, after, setUniformMatrixValue, getUniformLocation.
  run. rewrite Hlocs. simpl. split; [done|]. by split.
Qed.

(** An assignment to a transform or to the scratch matrix. *)
Ltac frame_leaf :=
  unfold frame_state, matrices;
  intros [] (? & [= ? ? ?] & ? & ?); simpl in *; subst;
  split_and!; [first [assumption | done] | reflexivity | reflexivity | assumption].

Ltac frame_assign :=
  lazymatch goal with
  | |- outcome (frame_state ?D ?cs ?C _ _) _ _ =>
      eapply (outcome_assign_bind _ (frame_state D cs C _ (_, _, _)));
      [frame_leaf|]
  end.

(** A read of the scratch matrix. *)
Ltac frame_read :=
  apply outcome_this_bind;
  let h0 := fresh "h" in
  let H := fresh "H" in
  intros h0 H;
  rewrite (proj1 (proj2 (proj2 H))); clear h0 H.

(** The transforms of [applyFrameState], up to the first read of the
    scratch matrix. *)
Ltac frame_transforms :=
  unfold applyFrameState; cbv zeta;
  do 7 frame_assign;
  lazymatch goal with
  | |- context [negb (?r =? 0)%float] =>
      destruct (r =? 0)%float; simpl negb; cbv iota;
      [apply outcome_ret_bind | frame_assign]
  end;
  frame_assign; frame_read.

Lemma applyFrameState_defined (cos_approx sin_approx : number -> number)
  (frameState : FrameState) (cs : list Call) (T : list number)
  (M : Transform.t * Transform.t * Transform.t) :
  outcome (frame_state is_Some cs (fun new => omap matrix_upload new = []) T M)
    (applyFrameState cos_approx sin_approx frameState)
    (fun c h => c = Normal tt /\
       exists P S R,
         let T1 := Mat4.fromTransform T P in
         let T2 := Mat4.fromTransform T1 S in
         let T3 := Mat4.fromTransform T2 R in
         frame_state is_Some cs
           (fun new => omap matrix_upload new = [T1; T2; T3]) T3 (P, S, R) h).
Proof.
  destruct M as [[A B] C].
  frame_transforms;
    (eapply outcome_then; [apply setUniformMatrixValue_defined|]);
    frame_assign; frame_read;
    (eapply outcome_then; [apply setUniformMatrixValue_defined|]);
    frame_assign; frame_read;
    (eapply outcome_post; [apply setUniformMatrixValue_defined|]);
    intros c h [-> Hh]; (split; [done|]); eexists _, _, _; exact Hh.
Qed.

Lemma applyFrameState_undefined (cos_approx sin_approx : number -> number)
  (frameState : FrameState) (cs : list Call) (T : list number)
  (M : Transform.t * Transform.t * Transform.t) :
  outcome (frame_state (fun locs => locs = None) cs (fun new => new = []) T M)
    (applyFrameState cos_approx sin_approx frameState)
    (fun c h => c = Throw (undefined_read PROJECTION_MATRIX) /\
       exists P S R,
         frame_state (fun locs => locs = None) cs (fun new => new = [])
           (Mat4.fromTransform T P) (P, S, R) h).
Proof.
  destruct M as [[A B] C].
  frame_transforms;
    (eapply outcome_fails; [apply setUniformMatrixValue_undefined|]);
    intros h Hh; (split; [done|]); eexists _, _, _; exact Hh.
Qed.

(** X10. With a program in use, [applyFrameState] returns after three
    matrix uploads: the scratch matrix filled from the projection transform,
    then filled from the offset scale transform, then from the offset
    rotation transform, each fill on top of the one before. *)
Theorem applyFrameState_uploads (cos_approx sin_approx : number -> number)
  (frameState : FrameState) (h : WebGLHelper) :
  is_Some (uniformLocations_ h) ->
  let h' := after (applyFrameState cos_approx sin_approx frameState) h in
  let T1 := Mat4.fromTransform (tmpMat4_ h) (projectionMatrix_ h') in
  let T2 := Mat4.fromTransform T1 (offsetScaleMatrix_ h') in
  let T3 := Mat4.fromTransform T2 (offsetRotateMatrix_ h') in
  completion (applyFrameState cos_approx sin_approx frameState) h = Normal tt /\
  omap matrix_upload
    (new_calls (applyFrameState cos_approx sin_approx frameState) h) =
    [T1; T2; T3] /\
  tmpMat4_ h' = T3 /\
  is_Some (uniformLocations_ h').
Proof.
  intros Hdef h'.
  destruct (applyFrameState_defined cos_approx sin_approx frameState
              (calls (gl_ h)) (tmpMat4_ h) (matrices h) h)
    as (Hc & P & S & R & Hd' & [= HP HS HR] & HT & new & Hcalls & Hnew).
  { split_and!; try done. exists []. by rewrite app_nil_r. }
  fold h' in HP, HS, HR, HT, Hd', Hcalls. cbv zeta in *.
  rewrite HP, HS, HR. split_and!; try done.
  by rewrite (new_calls_app _ _ _ Hcalls).
Qed.

Lemma applyFrameState_uploads_witness :
  completion (applyFrameState (fun x => x) (fun x => x) example_frame)
    example_bound_helper = Normal tt.
Proof.
  refine (proj1 (applyFrameState_uploads (fun x => x) (fun x => x)
                   example_frame example_bound_helper _)).
  by eexists.
Defined.

(** X11. Before a program is in use, [applyFrameState] throws on reading
    the undefined uniform locations, and it has the work before that read
    behind it: no call was made, but the three transforms are those of the
    frame and the scratch matrix holds the projection transform. *)
Theorem applyFrameState_without_program
  (cos_approx sin_approx : number -> number) (frameState : FrameState)
  (h : WebGLHelper) :
  uniformLocations_ h = None ->
  let h' := after (applyFrameState cos_approx sin_approx frameState) h in
  completion (applyFrameState cos_approx sin_approx frameState) h =
    Throw (undefined_read PROJECTION_MATRIX) /\
  new_calls (applyFrameState cos_approx sin_approx frameState) h = [] /\
  uniformLocations_ h' = None /\
  tmpMat4_ h' = Mat4.fromTransform (tmpMat4_ h) (projectionMatrix_ h') /\
  offsetScaleMatrix_ h' =
    Transform.scale Transform.create
      (2 / fst (size frameState))%float (2 / snd (size frameState))%float.
Proof.
  intros Hundef h'.
  destruct (applyFrameState_undefined cos_approx sin_approx frameState
              (calls (gl_ h)) (tmpMat4_ h) (matrices h) h)
    as (Hc & P & S & R & Hd' & [= HP HS HR] & HT & new & Hcalls & ->).
  { split_and!; try done. exists []. by rewrite app_nil_r. }
  fold h' in HP, HS, HR, HT, Hd', Hcalls.
  rewrite HP. split_and!; try done.
  - by rewrite (new_calls_app _ _ _ Hcalls).
  - apply (applyFrameState_transforms cos_approx sin_approx frameState h).
Qed.

Lemma applyFrameState_without_program_witness :
  completion (applyFrameState (fun x => x) (fun x => x) example_frame)
    example_helper = Throw (undefined_read PROJECTION_MATRIX).
Proof.
  refine (proj1 (applyFrameState_without_program (fun x => x) (fun x => x)
                   example_frame example_helper _)).
  reflexivity.
Defined.



(** ** Texture units of the custom uniforms *)











(** ** Values [applyUniforms] has no branch for *)

Lemma apply_uniform_skipped (i : nat) (u : Uniform) (slot : nat)
  (h : WebGLHelper) :
  is_skipped u = true -> apply_uniform i u slot h = (Normal slot, h).
Proof.
  unfold is_skipped, apply_uniform.
  destruct (current_value (value u)) as [c|w ht data|arr|x|]; try done.
  by destruct arr as [|x [|y [|z [|w [|]]]]].
Qed.

Lemma forallb_lookup {A : Type} (f : A -> bool) (l : list A) (i : nat) (x : A) :
  forallb f l = true -> l !! i = Some x -> f x = true.
Proof.
  revert i. induction l as [|y l IH]; intros [|i]; simpl; try done.
  - intros [Hy _]%andb_true_iff [= <-]. done.
  - intros [_ Hl]%andb_true_iff. by apply IH.
Qed.

(** X13. A custom uniform whose value is an array of a length other than
    2, 3 or 4, or is no image, array or number, is passed over: when every
    custom uniform is of that kind, [applyUniforms] returns without a call
    and changes nothing, even before a program is in use. *)
Theorem applyUniforms_skips_other_values (h : WebGLHelper) :
  forallb is_skipped (uniforms_ h) = true ->
  applyUniforms h = (Normal tt, h).
Proof.
  intros Hall. unfold applyUniforms.
  erewrite after_bind by reflexivity.
  assert (forall n i slot, applyUniforms_from n i slot h = (Normal tt, h))
    as Hloop.
  { induction n as [|n IH]; intros i slot; [done|].
    simpl. erewrite after_bind by reflexivity.
    destruct (uniforms_ h !! i) as [u|] eqn:Hu; [|done].
    erewrite after_bind; [apply IH|].
    apply apply_uniform_skipped. by apply (forallb_lookup _ _ _ _ Hall Hu). }
  apply Hloop.
Qed.

Lemma applyUniforms_skips_other_values_witness :
  let h := constructor [] example_context
             (Some {| opt_uniforms :=
                        Some [("u_five"%string,
                               Constant (ArrayValue [1; 2; 3; 4; 5]%float));
                              ("u_none"%string, Constant OtherValue)];
                      opt_postProcesses := None |}) in
  applyUniforms h = (Normal tt, h).
Proof.
  intros h. apply (applyUniforms_skips_other_values h). reflexivity.
Defined.

(** ** Compiling and linking *)

(** X14. A shader that is not cached is created, given its source and
    compiled, and its compile status is read, in that order. When the status
    is not truthy, as on a lost context, the info log is read and one error
    is written to the console; nothing else changes: the handle is returned
    and cached as after a successful compilation. *)
Theorem getShader_compiles (h : WebGLHelper) (s : WebGLShaderSource) :
  shaderCache_ h !! shader_uid s = None ->
  let shader := fresh_handle (gl_ h) in
  let ok := if lost (gl_ h) then false else compile_status (gl_ h) shader in
  let infoLog := info_log (gl_ h) shader in
  completion (getShader s) h = Normal shader /\
  shaderCache_ (after (getShader s) h) =
    <[shader_uid s := shader]> (shaderCache_ h) /\
  new_calls (getShader s) h =
    [gl_createShader (getType s) shader;
     gl_shaderSource shader (getSource s);
     gl_compileShader shader;
     gl_getShaderParameter shader COMPILE_STATUS ok] ++
    (if ok then []
     else [gl_getShaderInfoLog shader infoLog;
           console_error ("Shader compilation failed - log:" ++
                          String (Ascii.ascii_of_nat 10) infoLog)]).
Proof.
  intros E shader ok infoLog.
  destruct (getShader_missing h s E) as (Hc & Hcache & _).
  split_and!; [exact Hc | exact Hcache |].
  subst shader ok infoLog. unfold fresh_handle.
  destruct (lost (gl_ h)) eqn:L;
    [|destruct (compile_status (gl_ h) (Some (next_name (gl_ h)))) eqn:C];
    apply new_calls_app;
    unfold getShader, context_create, context_getCompileStatus,
      context_getShaderInfoLog; run; rewrite E, L; simpl; rewrite ?L, ?C;
    simpl; rewrite <- ?app_assoc; reflexivity.
Qed.

Lemma getShader_compiles_witness :
  completion (getShader example_fragment) example_lost_helper = Normal None /\
  shaderCache_ (after (getShader example_fragment) example_lost_helper) =
    <[shader_uid example_fragment := None]> (shaderCache_ example_lost_helper) /\
  new_calls (getShader example_fragment) example_lost_helper =
    [gl_createShader (getType example_fragment) None;
     gl_shaderSource None (getSource example_fragment);
     gl_compileShader None;
     gl_getShaderParameter None COMPILE_STATUS false;
     gl_getShaderInfoLog None "";
     console_error ("Shader compilation failed - log:" ++
                    String (Ascii.ascii_of_nat 10) "")].
Proof.
  apply (getShader_compiles example_lost_helper example_fragment).
  reflexivity.
Defined.

Lemma getShader_no_program_call (s : WebGLShaderSource) :
  within (logs (fun c => negb (is_program_call c))) (getShader s).
Proof.
  unfold getShader, context_getCompileStatus, context_getShaderInfoLog.
  within_tac.
Qed.

(** What [getShader] returns is in the shader cache afterwards, and so is
    every entry the cache held. *)
Lemma getShader_result (h : WebGLHelper) (s : WebGLShaderSource) :
  exists shader,
    completion (getShader s) h = Normal shader /\
    shaderCache_ (after (getShader s) h) !! shader_uid s = Some shader /\
    (forall key x, shaderCache_ h !! key = Some x ->
       shaderCache_ (after (getShader s) h) !! key = Some x).
Proof.
  destruct (shaderCache_ h !! shader_uid s) as [shader|] eqn:E.
  - exists shader. unfold completion, after.
    rewrite (getShader_cached h s shader E). by split_and!.
  - destruct (getShader_missing h s E) as (Hc & Hcache & _).
    exists (fresh_handle (gl_ h)). rewrite Hcache.
    split_and!; [done | apply lookup_insert_eq |].
    intros key x Hkey. rewrite lookup_insert_ne; [done|]. congruence.
Qed.

Lemma filter_none {A : Type} (P : A -> bool) (l : list A) :
  forallb (fun x => negb (P x)) l = true -> List.filter P l = [].
Proof.
  induction l as [|x l IH]; simpl; [done|].
  intros [Hx Hl]%andb_true_iff. rewrite IH by done.
  by destruct (P x).
Qed.

(** X15. A program that is not cached is made from its two shaders: the
    program is created, the fragment shader is attached, then the vertex
    shader, and the program is linked, once. The two shaders are those the
    shader cache holds afterwards, so a shader that was cached is not compiled
    again. The program is cached: the next [getProgram] of the two shader
    sources returns it, makes no call and changes nothing. *)
Theorem getProgram_links (h : WebGLHelper) (f v : WebGLShaderSource) :
  programCache_ h !! (shader_uid f ++ "/" ++ shader_uid v)%string = None ->
  let program := fresh_handle (gl_ h) in
  let h' := after (getProgram f v) h in
  exists fragment vertex,
    shaderCache_ h' !! shader_uid f = Some fragment /\
    shaderCache_ h' !! shader_uid v = Some vertex /\
    (forall x, shaderCache_ h !! shader_uid f = Some x -> fragment = x) /\
    (forall x, shaderCache_ h !! shader_uid v = Some x -> vertex = x) /\
    List.filter is_program_call (new_calls (getProgram f v) h) =
      [gl_createProgram program; gl_attachShader program fragment;
       gl_attachShader program vertex; gl_linkProgram program] /\
    getProgram f v h' = (Normal program, h').
Proof.
  intros E program h'.
  destruct (getProgram_missing_run h f v E)
    as (fragment & vertex & Hf & Hv & Hrun).
  cbv zeta in Hf, Hv, Hrun. fold program in Hf, Hv, Hrun.
  set (h1 := set_gl_ (log (gl_createProgram program)
                        (if lost (gl_ h) then gl_ h else take_name (gl_ h))) h)
    in *.
  set (h2 := after (getShader f) h1) in *.
  set (h3 := set_gl_ (log (gl_attachShader program fragment) (gl_ h2)) h2) in *.
  set (h4 := after (getShader v) h3) in *.
  destruct (getShader_result h1 f) as (x1 & Hx1 & Hin1 & Hkeep1).
  destruct (getShader_result h3 v) as (x2 & Hx2 & Hin2 & Hkeep2).
  fold h2 in Hin1, Hkeep1. fold h4 in Hin2, Hkeep2.
  rewrite Hf in Hx1. injection Hx1 as <-.
  rewrite Hv in Hx2. injection Hx2 as <-.
  destruct (getShader_no_program_call f h1) as (new1 & Hn1 & Hp1).
  destruct (getShader_no_program_call v h3) as (new2 & Hn2 & Hp2).
  fold h2 in Hn1. fold h4 in Hn2.
  assert (shaderCache_ h' = shaderCache_ h4) as Hcache.
  { unfold h', after. by rewrite Hrun. }
  exists fragment, vertex. split_and!.
  - rewrite Hcache. apply Hkeep2. exact Hin1.
  - rewrite Hcache. exact Hin2.
  - intros x Hx. pose proof (getShader_cached h1 f x Hx) as Hc.
    unfold completion in Hf. rewrite Hc in Hf. by injection Hf.
  - intros x Hx.
    assert (shaderCache_ h3 !! shader_uid v = Some x) as Hx3.
    { apply (Hkeep1 _ _ Hx). }
    pose proof (getShader_cached h3 v x Hx3) as Hc.
    unfold completion in Hv. rewrite Hc in Hv. by injection Hv.
  - assert (calls (gl_ h') =
            calls (gl_ h) ++
            [gl_createProgram program] ++ new1 ++
            [gl_attachShader program fragment] ++ new2 ++
            [gl_attachShader program vertex; gl_linkProgram program]) as Hcalls.
    { unfold h', after. rewrite Hrun. simpl. rewrite Hn2. simpl. rewrite Hn1.
      simpl. destruct (lost (gl_ h)); simpl; rewrite <- !app_assoc; reflexivity. }
    rewrite (new_calls_app _ _ _ Hcalls).
    rewrite !List.filter_app, (filter_none _ _ Hp1), (filter_none _ _ Hp2).
    reflexivity.
  - apply getProgram_cached. unfold h', after. rewrite Hrun. simpl.
    apply lookup_insert_eq.
Qed.

Lemma getProgram_links_witness :
  getProgram example_fragment example_vertex
    (after (getProgram example_fragment example_vertex) example_helper) =
  (Normal (Some 1%nat),
   after (getProgram example_fragment example_vertex) example_helper).
Proof.
  destruct (getProgram_links example_helper example_fragment example_vertex
              eq_refl) as (fragment & vertex & _ & _ & _ & _ & _ & Hmemo).
  exact Hmemo.
Defined.

(** ** Attribute arrays *)





(** ** Setting a uniform *)



(** ** Preparing a frame *)





(** ** Textures made for the user *)

Lemma createTextureInternal_eq (ws wt : option Z) (h : WebGLHelper) :
  let t := fresh_handle (gl_ h) in
  createTextureInternal ws wt h =
    (Normal t,
     set_gl_
       (log_all
          ([gl_createTexture t; gl_bindTexture TEXTURE_2D t;
            gl_texParameteri TEXTURE_2D TEXTURE_MAG_FILTER LINEAR;
            gl_texParameteri TEXTURE_2D TEXTURE_MIN_FILTER LINEAR] ++
           match ws with
           | Some wrapS => [gl_texParameteri TEXTURE_2D TEXTURE_WRAP_S wrapS]
           | None => []
           end ++
           match wt with
           | Some wrapT => [gl_texParameteri TEXTURE_2D TEXTURE_WRAP_T wrapT]
           | None => []
           end)
          (if lost (gl_ h) then gl_ h else take_name (gl_ h))) h).
Proof.
  intros t. unfold createTextureInternal.
  erewrite after_bind by apply context_create_eq. fold t.
  change (set_gl_ (log (gl_createTexture t) ?g) h)
    with (set_gl_ (log_all [gl_createTexture t] g) h).
  do 3 (erewrite after_bind by apply call_log_all).
  destruct ws as [wrapS|], wt as [wrapT|];
    repeat (first [ erewrite after_bind by apply call_log_all
                  | erewrite after_bind by reflexivity ]);
    simpl; rewrite ?app_nil_r; reflexivity.
Qed.

(** X19. [createTexture] and [createEmptyTexture] create a texture on
    every call, and cache nothing. The texture is bound, its two filters are
    set to LINEAR, a wrap mode is set only where one is given, and the
    pixels are defined last: from the image, or with no data at the width
    and height given. The handle returned is the one created; on a context
    that is not lost, two calls in a row return two different textures. *)
Theorem createTexture_calls (h : WebGLHelper) (ws wt : option Z) :
  let t := fresh_handle (gl_ h) in
  let setup :=
    [gl_createTexture t; gl_bindTexture TEXTURE_2D t;
     gl_texParameteri TEXTURE_2D TEXTURE_MAG_FILTER LINEAR;
     gl_texParameteri TEXTURE_2D TEXTURE_MIN_FILTER LINEAR] ++
    match ws with
    | Some wrapS => [gl_texParameteri TEXTURE_2D TEXTURE_WRAP_S wrapS]
    | None => []
    end ++
    match wt with
    | Some wrapT => [gl_texParameteri TEXTURE_2D TEXTURE_WRAP_T wrapT]
    | None => []
    end in
  (forall image,
     completion (createTexture image ws wt) h = Normal t /\
     new_calls (createTexture image ws wt) h =
       setup ++ [gl_texImage2D TEXTURE_2D (TexCanvas image)] /\
     (lost (gl_ h) = false ->
      completion (createTexture image ws wt)
        (after (createTexture image ws wt) h) <> Normal t)) /\
  (forall w ht,
     completion (createEmptyTexture w ht ws wt) h = Normal t /\
     new_calls (createEmptyTexture w ht ws wt) h =
       setup ++ [gl_texImage2D TEXTURE_2D (TexPixels w ht None)] /\
     (lost (gl_ h) = false ->
      completion (createEmptyTexture w ht ws wt)
        (after (createEmptyTexture w ht ws wt) h) <> Normal t)).
Proof.
  intros t setup.
  pose proof (createTextureInternal_eq ws wt) as Hint. cbv zeta in Hint.
  assert (forall source h0,
    (t0 ← createTextureInternal ws wt;
     call (gl_texImage2D TEXTURE_2D source);; mret t0) h0 =
    (Normal (fresh_handle (gl_ h0)),
     set_gl_
       (log (gl_texImage2D TEXTURE_2D source)
          (log_all
             ([gl_createTexture (fresh_handle (gl_ h0));
               gl_bindTexture TEXTURE_2D (fresh_handle (gl_ h0));
               gl_texParameteri TEXTURE_2D TEXTURE_MAG_FILTER LINEAR;
               gl_texParameteri TEXTURE_2D TEXTURE_MIN_FILTER LINEAR] ++
              match ws with
              | Some wrapS => [gl_texParameteri TEXTURE_2D TEXTURE_WRAP_S wrapS]
              | None => []
              end ++
              match wt with
              | Some wrapT => [gl_texParameteri TEXTURE_2D TEXTURE_WRAP_T wrapT]
              | None => []
              end)
             (if lost (gl_ h0) then gl_ h0 else take_name (gl_ h0)))) h0))
    as Hrun.
  { intros source h0. erewrite after_bind by apply Hint.
    erewrite after_bind by reflexivity. reflexivity. }
  assert (forall source,
    completion (t0 ← createTextureInternal ws wt;
                call (gl_texImage2D TEXTURE_2D source);; mret t0) h = Normal t /\
    new_calls (t0 ← createTextureInternal ws wt;
               call (gl_texImage2D TEXTURE_2D source);; mret t0) h =
      setup ++ [gl_texImage2D TEXTURE_2D source] /\
    (lost (gl_ h) = false ->
     completion (t0 ← createTextureInternal ws wt;
                 call (gl_texImage2D TEXTURE_2D source);; mret t0)
       (after (t0 ← createTextureInternal ws wt;
               call (gl_texImage2D TEXTURE_2D source);; mret t0) h)
     <> Normal t)) as Hboth.
  { intros source. split_and!.
    - unfold completion. by rewrite Hrun.
    - apply new_calls_app. unfold after. rewrite Hrun. simpl.
      destruct (lost (gl_ h)); simpl; rewrite <- app_assoc; reflexivity.
    - intros L. unfold completion, after. rewrite !Hrun. simpl.
      subst t. unfold fresh_handle. rewrite L. simpl. rewrite L.
      intros [= E]. lia. }
  split; intros; apply Hboth.
Qed.

(** ** Disposal *)

Lemma gl_set_gl_ (g : WebGLRenderingContext) (h : WebGLHelper) :
  gl_ (set_gl_ g h) = g.
Proof. reflexivity. Qed.

Lemma set_gl_set_gl_ (g g' : WebGLRenderingContext) (h : WebGLHelper) :
  set_gl_ g (set_gl_ g' h) = set_gl_ g h.
Proof. reflexivity. Qed.

(** A loop whose body makes one call for each key. *)
Lemma for_each_log (I : WebGLHelper -> Prop) (c : string -> Call)
  (body : string -> Method unit) (keys : list string) (h : WebGLHelper) :
  (forall g h0, I h0 -> I (set_gl_ g h0)) ->
  (forall key h0, key ∈ keys -> I h0 ->
     body key h0 = (Normal tt, set_gl_ (log (c key) (gl_ h0)) h0)) ->
  I h ->
  for_each keys body h =
    (Normal tt, set_gl_ (log_all (c <$> keys) (gl_ h)) h).
Proof.
  intros Hgl. revert h. induction keys as [|key rest IH]; intros h Hbody Hh.
  - simpl. by rewrite log_all_nil.
  - simpl for_each. erewrite after_bind by (apply Hbody; [left | exact Hh]).
    rewrite IH.
    + rewrite fmap_cons.
      change (gl_ (set_gl_ (log (c key) (gl_ h)) h)) with (log (c key) (gl_ h)).
      by rewrite log_all_log, set_gl_set_gl_.
    + intros key' h0 Hin. apply Hbody. by right.
    + by apply Hgl.
Qed.

Lemma elem_of_keys {V : Type} (m : gmap string V) (keys : list string)
  (key : string) :
  keys ≡ₚ fst <$> map_to_list m -> key ∈ keys -> is_Some (m !! key).
Proof.
  intros Hperm Hin. rewrite Hperm in Hin.
  apply list_elem_of_fmap in Hin as ([k v] & -> & Hkv).
  apply elem_of_map_to_list in Hkv. by exists v.
Qed.

Lemma fmap_keys {V A : Type} (m : gmap string V) (f : option V -> A)
  (keys : list string) :
  keys ≡ₚ fst <$> map_to_list m ->
  (fun key => f (m !! key)) <$> keys ≡ₚ
    (fun kv => f (Some (snd kv))) <$> map_to_list m.
Proof.
  intros ->. rewrite <- list_fmap_compose.
  assert ((fun key => f (m !! key)) ∘ fst <$> map_to_list m =
          (fun kv => f (Some (snd kv))) <$> map_to_list m) as ->; [|done].
  apply list_fmap_ext. intros i [k v] Hkv.
  apply list_elem_of_lookup_2, elem_of_map_to_list in Hkv. simpl.
  by rewrite Hkv.
Qed.

(** X20. [disposeInternal] returns and leaves the three caches as they are.
    On a lost context it asks whether the context is lost and makes no other
    call. Otherwise it deletes every buffer of the buffer cache, then every
    program of the program cache, then every shader of the shader cache, each
    of them once. *)
Theorem disposeInternal_deletes
  (for_in : forall V : Type, gmap string V -> list string) (h : WebGLHelper) :
  (forall (V : Type) (m : gmap string V), for_in V m ≡ₚ fst <$> map_to_list m) ->
  let h' := after (disposeInternal for_in) h in
  completion (disposeInternal for_in) h = Normal tt /\
  bufferCache_ h' = bufferCache_ h /\
  programCache_ h' = programCache_ h /\
  shaderCache_ h' = shaderCache_ h /\
  (lost (gl_ h) = true ->
     new_calls (disposeInternal for_in) h = [gl_isContextLost true]) /\
  (lost (gl_ h) = false ->
     exists buffers programs shaders,
       new_calls (disposeInternal for_in) h =
         gl_isContextLost false ::
         (gl_deleteBuffer <$> buffers) ++
         (gl_deleteProgram <$> programs) ++
         (gl_deleteShader <$> shaders) /\
       buffers ≡ₚ (fun kv => buffer (snd kv)) <$> map_to_list (bufferCache_ h) /\
       programs ≡ₚ snd <$> map_to_list (programCache_ h) /\
       shaders ≡ₚ snd <$> map_to_list (shaderCache_ h)).
Proof.
  intros Hfor h'.
  set (h0 := set_canvas_ (unlistenAll (canvas_ h)) h).
  set (I := fun hx : WebGLHelper =>
              bufferCache_ hx = bufferCache_ h /\
              programCache_ hx = programCache_ h /\
              shaderCache_ hx = shaderCache_ h).
  assert (forall g hx, I hx -> I (set_gl_ g hx)) as Hgl by done.
  set (cb := fun key =>
               gl_deleteBuffer
                 (from_option buffer None (bufferCache_ h !! key))).
  set (cp := fun key =>
               gl_deleteProgram (default None (programCache_ h !! key))).
  set (cs := fun key =>
               gl_deleteShader (default None (shaderCache_ h !! key))).
  destruct (lost (gl_ h)) eqn:L.
  - assert (disposeInternal for_in h =
              (Normal tt, set_gl_ (log (gl_isContextLost true) (gl_ h)) h0))
      as Hrun.
    { unfold disposeInternal, isContextLost. run. by rewrite L. }
    subst h'. unfold completion, after. rewrite Hrun.
    split_and!; try done.
    intros _. apply new_calls_app. unfold after. by rewrite Hrun.
  - set (h1 := set_gl_ (log (gl_isContextLost false) (gl_ h0)) h0).
    set (kb := for_in _ (bufferCache_ h)).
    set (kp := for_in _ (programCache_ h)).
    set (ks := for_in _ (shaderCache_ h)).
    assert (disposeInternal for_in h =
              (Normal tt,
               set_gl_ (log_all ((cb <$> kb) ++ (cp <$> kp) ++ (cs <$> ks))
                          (gl_ h1)) h1)) as Hrun.
    { unfold disposeInternal.
      erewrite after_bind by reflexivity. fold h0.
      erewrite after_bind.
      2:{ unfold isContextLost. erewrite after_bind by reflexivity.
          erewrite after_bind by reflexivity.
          change (lost (gl_ h0)) with (lost (gl_ h)). rewrite L. reflexivity. }
      fold h1. change (negb false) with true. cbv iota.
      erewrite after_bind by reflexivity.
      change (bufferCache_ h1) with (bufferCache_ h). fold kb.
      erewrite after_bind.
      2:{ apply (for_each_log I cb); [exact Hgl | | done].
          intros key hx Hin (Hb & _ & _).
          destruct (elem_of_keys _ _ _ (Hfor _ _) Hin) as [entry Hentry].
          erewrite after_bind by reflexivity. rewrite Hb.
          subst cb. cbv beta. rewrite Hentry. reflexivity. }
      set (h2 := set_gl_ (log_all (cb <$> kb) (gl_ h1)) h1).
      erewrite after_bind by reflexivity.
      change (programCache_ h2) with (programCache_ h). fold kp.
      erewrite after_bind.
      2:{ apply (for_each_log I cp); [exact Hgl | | done].
          intros key hx Hin (_ & Hp & _).
          erewrite after_bind by reflexivity. rewrite Hp. reflexivity. }
      set (h3 := set_gl_ (log_all (cp <$> kp) (gl_ h2)) h2).
      erewrite after_bind by reflexivity.
      change (shaderCache_ h3) with (shaderCache_ h). fold ks.
      rewrite (for_each_log I cs); [ | exact Hgl | | done].
      2:{ intros key hx Hin (_ & _ & Hs).
          erewrite after_bind by reflexivity. rewrite Hs. reflexivity. }
      subst h3 h2.
      repeat first [ rewrite gl_set_gl_ | rewrite set_gl_set_gl_
                   | rewrite log_all_app ].
      by rewrite <- ?app_assoc. }
    subst h'. unfold completion, after. rewrite Hrun.
    split_and!; try done.
    intros _.
    exists ((fun key => from_option buffer None (bufferCache_ h !! key)) <$> kb),
           ((fun key => default None (programCache_ h !! key)) <$> kp),
           ((fun key => default None (shaderCache_ h !! key)) <$> ks).
    split_and!.
    + apply new_calls_app. unfold after. rewrite Hrun. simpl.
      rewrite <- !list_fmap_compose. by rewrite <- app_assoc.
    + apply (fmap_keys (bufferCache_ h) (from_option buffer None)), Hfor.
    + apply (fmap_keys (programCache_ h) (default None)), Hfor.
    + apply (fmap_keys (shaderCache_ h) (default None)), Hfor.
Qed.

Lemma disposeInternal_deletes_witness :
  completion
    (disposeInternal (fun V (m : gmap string V) => fst <$> map_to_list m))
    example_cached_helper = Normal tt.
Proof.
  refine (proj1 (disposeInternal_deletes
                   (fun V (m : gmap string V) => fst <$> map_to_list m)
                   example_cached_helper _)).
  intros V m. reflexivity.
Defined.

(** ** Locations across a context loss *)

(** X21. A context loss leaves the location maps as they are, so a uniform
    location that was resolved before the loss is still returned after it,
    without a call on the lost context. The program in use is forgotten,
    however: the next [useProgram], of whatever program, is a change of
    program, makes the [gl.useProgram] call and empties both maps. *)
Theorem locations_across_context_loss (h : WebGLHelper) (P : handle) :
  LOST ∈ listeners (canvas_ h) ->
  is_Some P ->
  let h1 := after (dispatch LOST) h in
  lost (gl_ h1) = true /\
  uniformLocations_ h1 = uniformLocations_ h /\
  attribLocations_ h1 = attribLocations_ h /\
  (forall n locs loc,
     uniformLocations_ h = Some locs -> locs !! n = Some (Some loc) ->
     getUniformLocation n h1 = (Normal (Some loc), h1)) /\
  completion (useProgram P) h1 = Normal true /\
  new_calls (useProgram P) h1 = [gl_useProgram P] /\
  uniformLocations_ (after (useProgram P) h1) = Some ∅ /\
  attribLocations_ (after (useProgram P) h1) = Some ∅.
Proof.
  intros Hlisten [p ->] h1.
  assert (h1 = set_currentProgram_ None
                 (set_programCache_ ∅
                    (set_shaderCache_ ∅
                       (set_bufferCache_ ∅
                          (set_gl_ (set_lost true (gl_ h)) h))))) as Hh1.
  { unfold h1, after, dispatch. run.
    by rewrite bool_decide_eq_true_2. }
  assert (Some p <> currentProgram_ h1) as Hne by by rewrite Hh1.
  pose proof (useProgram_changed h1 (Some p) Hne) as Hrun.
  split_and!.
  - by rewrite Hh1.
  - by rewrite Hh1.
  - by rewrite Hh1.
  - intros n locs loc Hlocs Hn.
    assert (uniformLocations_ h1 = Some locs) as Hlocs1 by by rewrite Hh1.
    unfold getUniformLocation. run. by rewrite Hlocs1, Hn.
  - unfold completion. by rewrite Hrun.
  - apply new_calls_app. unfold after. by rewrite Hrun.
  - unfold after. by rewrite Hrun.
  - unfold after. by rewrite Hrun.
Qed.

Lemma locations_across_context_loss_witness :
  let h := after (getUniformLocation "u_opacity") example_bound_helper in
  getUniformLocation "u_opacity" (after (dispatch LOST) h) =
    (Normal (Some 7%nat), after (dispatch LOST) h) /\
  completion (useProgram (Some 9%nat)) (after (dispatch LOST) h) = Normal true.
Proof.
  intros h.
  assert (LOST ∈ listeners (canvas_ h)) as Hlisten.
  { apply (bool_decide_unpack _). vm_compute. exact I. }
  destruct (locations_across_context_loss h (Some 9%nat) Hlisten
              (ex_intro _ 9%nat eq_refl))
    as (_ & _ & _ & Hstale & Hc & _).
  split; [|exact Hc].
  apply (Hstale "u_opacity" {["u_opacity" := Some 7%nat]} 7%nat).
  - vm_compute. reflexivity.
  - reflexivity.
Defined.

(** ** Location maps, once defined *)

#[global] Instance preserves_preorder (J : WebGLHelper -> Prop) :
  PreOrder (preserves J).
Proof.
  split; unfold preserves.
  - intros h Hh. exact Hh.
  - intros x y z Hxy Hyz Hx. auto.
Qed.

(** The obligation of an assignment or a call that leaves the location maps
    defined. *)
Ltac defined_leaf :=
  intros; unfold preserves, locations_defined; simpl;
  first [ done | intros [? ?]; split; solve [ done | by eexists ] ].

Ltac defined_step :=
  lazymatch goal with
  | |- within ?R (mret _) => apply (within_ret R)
  | |- within ?R (throw _) => apply (within_throw R)
  | |- within ?R this => apply (within_this R)
  | |- within ?R (assign _) => apply (within_assign R); defined_leaf
  | |- within ?R (call _) => apply (within_call R); defined_leaf
  | |- within ?R (context_create _) =>
      apply (within_context_create R); defined_leaf
  | |- within ?R (mbind _ _) => apply (within_bind R); [ | intros ? ]
  | |- within _ (match ?x with _ => _ end) => destruct x
  | |- within _ (let _ := _ in _) => cbv zeta
  | |- within _ _ => solve [ eauto ]
  end.

Ltac defined_tac := repeat defined_step.

Section LocationsDefined.
Variables cos_approx sin_approx : number -> number.

Lemma perform_locations_defined (op : Op) :
  forall h, preserves locations_defined h (perform cos_approx sin_approx op h).
Proof.
  assert (forall n, within (preserves locations_defined) (getUniformLocation n))
    as Huniform.
  { intros n. unfold getUniformLocation, context_getUniformLocation.
    defined_tac. }
  assert (forall n, within (preserves locations_defined) (getAttributeLocation n))
    as Hattrib.
  { intros n. unfold getAttributeLocation, context_getAttribLocation.
    defined_tac. }
  assert (forall n v, within (preserves locations_defined)
                        (setUniformMatrixValue n v)) as Hmatrix.
  { intros n v. unfold setUniformMatrixValue. defined_tac. }
  assert (forall ws wt, within (preserves locations_defined)
                          (createTextureInternal ws wt)) as Htexture.
  { intros ws wt. unfold createTextureInternal. defined_tac. }
  assert (forall i u slot, within (preserves locations_defined)
                             (apply_uniform i u slot)) as Hstep.
  { intros i u slot. unfold apply_uniform, apply_image, uniform_texture.
    defined_tac. }
  assert (forall n i slot, within (preserves locations_defined)
                             (applyUniforms_from n i slot)) as Hloop.
  { induction n as [|n IH]; intros i slot; simpl; defined_tac. }
  assert (within (preserves locations_defined) applyUniforms) as Huniforms.
  { unfold applyUniforms. defined_tac. }
  assert (forall k sz pixelRatio, within (preserves locations_defined)
                                    (init_passes k sz pixelRatio)) as Hinit.
  { induction k as [|k IH]; intros sz pixelRatio; simpl; defined_tac. }
  assert (forall n i, within (preserves locations_defined) (apply_passes n i))
    as Hpasses.
  { induction n as [|n IH]; intros i; simpl; defined_tac. }
  assert (forall s, within (preserves locations_defined) (getShader s))
    as Hshader.
  { intros s.
    unfold getShader, context_getCompileStatus, context_getShaderInfoLog.
    defined_tac. }
  intros h. unfold perform.
  destruct op;
    match goal with
    | |- preserves ?J ?h (snd (?m ?h)) =>
        change (preserves J h (after m h)); revert h;
        change (within (preserves J) m); try unfold discard
    end.
  - unfold bindBuffer. defined_tac.
  - unfold deleteBuffer, isContextLost. defined_tac.
  - unfold prepareDraw. defined_tac.
  - unfold drawElements. defined_tac.
  - unfold finalizeDraw. defined_tac.
  - unfold applyFrameState. defined_tac.
  - defined_tac.
  - unfold useProgram. defined_tac.
  - unfold getProgram. defined_tac.
  - defined_tac.
  - defined_tac.
  - unfold setUniformFloatValue. defined_tac.
  - defined_tac.
  - unfold enableAttributeArray. defined_tac.
  - defined_tac.
  - unfold createEmptyTexture. defined_tac.
  - unfold createTexture. defined_tac.
  - unfold dispatch, handleWebGLContextLost, handleWebGLContextRestored.
    destruct type; defined_tac.
Qed.

(** X24. Once both location maps are defined, they stay defined through
    every sequence of operations, context losses and a [useProgram(null)]
    included: from then on a uniform or attribute location always resolves,
    and the TypeError of a lookup before the first program cannot occur
    again. *)
Theorem locations_stay_defined (ops : list Op) (h : WebGLHelper) :
  locations_defined h ->
  let h' := perform_all cos_approx sin_approx ops h in
  locations_defined h' /\
  (forall n, exists loc, completion (getUniformLocation n) h' = Normal loc) /\
  (forall n, exists loc, completion (getAttributeLocation n) h' = Normal loc).
Proof.
  intros Hdef h'.
  assert (locations_defined h') as [[ulocs Hu] [alocs Ha]].
  { subst h'. revert h Hdef.
    induction ops as [|op ops IH]; intros h Hdef; simpl; [done|].
    apply IH. by apply perform_locations_defined. }
  split_and!.
  - split; by eexists.
  - intros n. unfold completion, getUniformLocation, context_getUniformLocation.
    run. rewrite Hu. destruct (ulocs !! n) as [[l|]|]; simpl; eauto.
  - intros n. unfold completion, getAttributeLocation,
      context_getAttribLocation.
    run. rewrite Ha.
    destruct (alocs !! n) as [l|]; simpl; [destruct (l =? 0)|]; simpl; eauto.
Qed.
End LocationsDefined.

Lemma locations_stay_defined_witness :
  exists loc,
    completion (getUniformLocation "u_opacity")
      (perform_all (fun x => x) (fun x => x)
         [op_dispatch LOST; op_useProgram None;
          op_bindBuffer ARRAY_BUFFER example_buffer]
         example_bound_helper) = Normal loc.
Proof.
  refine (proj1 (proj2 (locations_stay_defined (fun x => x) (fun x => x)
                          [op_dispatch LOST; op_useProgram None;
                           op_bindBuffer ARRAY_BUFFER example_buffer]
                          example_bound_helper _)) "u_opacity").
  split; by eexists.
Defined.

(** ** The offset transforms of a frame state *)

(** X25. After [applyFrameState] the offset scale transform is the identity
    scaled by 2 / width and 2 / height, whatever the view; the offset
    rotation transform is the identity when the view rotation is zero, of
    either sign, and the identity rotated by the negated rotation when it is
    not, a rotation that is not a number included. Neither depends on the
    helper before the call. *)
Theorem applyFrameState_offsets (cos_approx sin_approx : number -> number)
  (frameState : FrameState) (h : WebGLHelper) :
  let h' := after (applyFrameState cos_approx sin_approx frameState) h in
  let r := rotation (viewState frameState) in
  offsetScaleMatrix_ h' =
    Transform.scale Transform.create
      (2 / fst (size frameState))%float (2 / snd (size frameState))%float /\
  offsetRotateMatrix_ h' =
    (if (r =? 0)%float then Transform.create
     else Transform.rotate cos_approx sin_approx Transform.create (- r)%float) /\
  ((r = 0%float \/ r = (-0)%float) -> offsetRotateMatrix_ h' = Transform.create) /\
  (r = nan ->
   offsetRotateMatrix_ h' =
     Transform.rotate cos_approx sin_approx Transform.create (- nan)%float).
Proof.
  intros h' r.
  pose proof (applyFrameState_matrices cos_approx sin_approx frameState h)
    as Hm.
  cbv zeta in Hm. fold h' r in Hm. unfold matrices in Hm.
  injection Hm as _ Hs Hr.
  split_and!; [exact Hs | exact Hr | |].
  - intros [E | E]; rewrite Hr, E; reflexivity.
  - intros E. rewrite Hr, E. reflexivity.
Qed.
